(** * Transcribe-Tool: the serialization layer of [transcribe.py]

    A shallow embedding of [transcribe.py]: the two timestamp formatters, the
    four segment writers, the output-path derivation and the command-line
    driver, followed by the properties proved about them.

    Conventions of the embedding.
    - A Python [str] is a list of Unicode code points ([N]); [lit] turns a
      literal into one.
    - A Python [float] is an IEEE 754 binary64 value, [spec_float] of the
      Standard Library with [prec = 53] and [emax = 1024]; arithmetic is
      the library's correctly rounded [SFsub], [SFmul] and [SFdiv].
    - A Python [int] is [Z].
    - A raised exception is the [Raise] case of [result].
    - A file opened in text mode is the text written to it (the code points
      handed to [f.write], in order); the byte encoding and the platform's
      newline translation lie below what is modelled. *)

From Stdlib Require Import ZArith NArith List Bool Lia String Ascii.
From Stdlib Require Import SpecFloat.
Import ListNotations.

Local Set Warnings "-register-all".
Local Open Scope list_scope.
Local Open Scope Z_scope.

(** ** Exceptions and results *)

(** The exceptions the modelled library calls raise. *)
Inductive exn : Type :=
| OverflowError
| ValueError.

Inductive result (A : Type) : Type :=
| Ok (a : A)
| Raise (e : exn).

Arguments Ok {A} a.
Arguments Raise {A} e.

Definition bind {A B : Type} (r : result A) (k : A -> result B) : result B :=
  match r with
  | Ok a => k a
  | Raise e => Raise e
  end.

Declare Scope py_scope.
Delimit Scope py_scope with py.
Notation "x <- c1 ;; c2" := (bind c1 (fun x => c2))
  (at level 61, c1 at next level, right associativity) : py_scope.
Local Open Scope py_scope.

(** ** Python strings *)

Module PyStr.

Definition char := N.
Definition str := list char.

(** A literal: each character of the Rocq string is one code point. *)
Definition lit (s : string) : str :=
  List.map N_of_ascii (list_ascii_of_string s).
Arguments lit s%_string.

(** The newline character as a string. *)
Definition nl : str := [10%N].

(** [str.isspace] on one code point: the code points CPython's
    [_PyUnicode_IsWhitespace] accepts. *)
Definition isspace (c : char) : bool :=
  ((9 <=? c) && (c <=? 13) || (28 <=? c) && (c <=? 32)
   || (c =? 133) || (c =? 160) || (c =? 5760)
   || (8192 <=? c) && (c <=? 8202)
   || (c =? 8232) || (c =? 8233) || (c =? 8239) || (c =? 8287)
   || (c =? 12288))%N.

Fixpoint lstrip (s : str) : str :=
  match s with
  | [] => []
  | c :: r => if isspace c then lstrip r else s
  end.

Definition rstrip (s : str) : str := rev (lstrip (rev s)).

(** [s.strip()] *)
Definition strip (s : str) : str := rstrip (lstrip s).

(** Truth value of a string: non-empty. *)
Definition truthy (s : str) : bool :=
  match s with [] => false | _ :: _ => true end.


Fixpoint starts_with (p s : str) : bool :=
  match p, s with
  | [], _ => true
  | _ :: _, [] => false
  | a :: p', b :: s' => (a =? b)%N && starts_with p' s'
  end.

(** [needle in s] *)
Fixpoint contains (needle s : str) : bool :=
  starts_with needle s
  || match s with
     | [] => false
     | _ :: s' => contains needle s'
     end.

(** *** Decimal rendering of integers *)

Definition digit_char (d : Z) : char := Z.to_N (48 + d).

Fixpoint digits_aux (fuel : nat) (n : Z) (acc : str) : str :=
  match fuel with
  | O => acc
  | S fuel' =>
      let acc' := digit_char (n mod 10) :: acc in
      if n / 10 =? 0 then acc' else digits_aux fuel' (n / 10) acc'
  end.

(** The decimal digits of [n >= 0], most significant first. *)
Definition digits (n : Z) : str :=
  digits_aux (S (Z.to_nat (Z.log2 n))) n [].

(** [format(n, "0<width>d")]: sign-aware zero padding to at least [width]
    characters; [width = 0] is [str(n)]. *)
Definition format_d (width : nat) (n : Z) : str :=
  let ds := digits (Z.abs n) in
  if n <? 0
  then lit "-" ++ repeat 48%N (width - 1 - List.length ds) ++ ds
  else repeat 48%N (width - List.length ds) ++ ds.

End PyStr.

Import PyStr.

(** ** Python floats *)

Module PyFloat.

Definition prec : Z := 53.
Definition emax : Z := 1024.

Definition float := spec_float.

Definition zero : float := S754_zero false.

(** [float(n)] for an integer [n], correctly rounded. *)
Definition of_int (n : Z) : float := binary_normalize prec emax n 0 false.

(** The dyadic number [m * 2^e] and the decimal number [d / 10^k] as the
    nearest float: how the literals below are written. *)
Definition dyadic (m e : Z) : float := binary_normalize prec emax m e false.

Definition sub : float -> float -> float := SFsub prec emax.
Definition mul : float -> float -> float := SFmul prec emax.

(** [a > b] *)
Definition gt (a b : float) : bool := SFltb b a.

(** An integer as an exact, not normalised, mantissa. *)
Definition raw_of_int (n : Z) : float :=
  match n with
  | Z0 => S754_zero false
  | Zpos p => S754_finite false p 0
  | Zneg p => S754_finite true p 0
  end.

(** [a / b] on integers, [b <> 0]: the correctly rounded quotient. *)
Definition int_true_div (a b : Z) : float :=
  SFdiv prec emax (raw_of_int a) (raw_of_int b).

Definition decimal (d k : Z) : float := int_true_div d (10 ^ k).

(** Truncation of a finite float towards zero. *)
Definition trunc (s : bool) (m : positive) (e : Z) : Z :=
  cond_Zopp s (Z.shiftl (Zpos m) e).

(** [int(x)] *)
Definition to_int (x : float) : result Z :=
  match x with
  | S754_nan => Raise ValueError
  | S754_infinity _ => Raise OverflowError
  | S754_zero _ => Ok 0
  | S754_finite s m e => Ok (trunc s m e)
  end.

(** The fractional part [math.modf(x)[0]] of a finite float: exact, with
    the sign of [x]. *)
Definition frac (x : float) : float :=
  match x with
  | S754_finite s m e =>
      if e <? 0
      then binary_normalize prec emax
             (cond_Zopp s (Zpos m mod 2 ^ (- e))) e s
      else S754_zero s
  | _ => x
  end.

(** [round(x)]: to the nearest integer, ties to even. *)
Definition round_half_even (x : float) : result Z :=
  match x with
  | S754_nan => Raise ValueError
  | S754_infinity _ => Raise OverflowError
  | S754_zero _ => Ok 0
  | S754_finite s m e =>
      if e <? 0 then
        let q := Zpos m / 2 ^ (- e) in
        let r := Zpos m mod 2 ^ (- e) in
        let up :=
          match 2 * r ?= 2 ^ (- e) with
          | Lt => false
          | Gt => true
          | Eq => Z.odd q
          end in
        Ok (cond_Zopp s (if up then q + 1 else q))
      else Ok (trunc s m e)
  end.

(** [max(a, b)]: the first argument unless the second is greater. *)
Definition max (a b : float) : float := if gt b a then b else a.

End PyFloat.

(** ** [datetime.timedelta] *)

Module Datetime.

Import PyFloat.

Record timedelta : Type := {
  days : Z;
  seconds : Z;
  microseconds : Z
}.

Definition divmod (a b : Z) : Z * Z := (a / b, a mod b).

(** [timedelta(seconds=x)] for a float [x]: the whole seconds and the
    fraction are split, the fraction is scaled to microseconds and rounded
    half-even, the fields are normalised, and the day count is checked. *)
Definition of_seconds (x : float) : result timedelta :=
  whole <- to_int x ;;
  let secondsfrac := frac x in
  let '(d1, s1) := divmod whole (24 * 3600) in
  let usdouble := mul secondsfrac (of_int 1000000) in
  us0 <- round_half_even usdouble ;;
  let '(s2, us) := divmod us0 1000000 in
  let '(d2, s) := divmod (s1 + s2) (24 * 3600) in
  let d := d1 + d2 in
  if Z.abs d >? 999999999 then Raise OverflowError
  else Ok {| days := d; seconds := s; microseconds := us |}.

(** [td.total_seconds()] *)
Definition total_seconds (td : timedelta) : float :=
  int_true_div ((days td * 86400 + seconds td) * 10 ^ 6 + microseconds td)
               (10 ^ 6).

End Datetime.

(** ** The timestamp formatters *)

Import PyFloat.

(** The four fields both formatters compute: hours, minutes, seconds and
    milliseconds. *)
Definition ts_fields (seconds : float) : result (Z * Z * Z * Z) :=
  td <- Datetime.of_seconds (PyFloat.max zero seconds) ;;
  total_seconds <- to_int (Datetime.total_seconds td) ;;
  let hours := total_seconds / 3600 in
  let minutes := (total_seconds mod 3600) / 60 in
  let secs := total_seconds mod 60 in
  millis <- to_int (mul (sub (Datetime.total_seconds td) (of_int total_seconds))
                        (of_int 1000)) ;;
  Ok (hours, minutes, secs, millis).

Definition render_ts (sep : str) (fields : Z * Z * Z * Z) : str :=
  let '(hours, minutes, secs, millis) := fields in
  format_d 2 hours ++ lit ":" ++ format_d 2 minutes ++ lit ":"
    ++ format_d 2 secs ++ sep ++ format_d 3 millis.

Definition format_ts_srt (seconds : float) : result str :=
  fields <- ts_fields seconds ;;
  Ok (render_ts (lit ",") fields).

Definition format_ts_vtt (seconds : float) : result str :=
  fields <- ts_fields seconds ;;
  Ok (render_ts (lit ".") fields).

(** ** Segments and the text they are written to *)

(** A transcript segment: the dictionary [{"start", "end", "text"}] both
    backends are normalised to. *)
Record segment : Type := {
  seg_start : float;
  seg_end : float;
  seg_text : str
}.

(** A computation that writes to an open text file: from the text written so
    far to the text written afterwards and a value or an exception. *)
Definition writer (A : Type) : Type := str -> str * result A.

Definition wret {A : Type} (a : A) : writer A := fun f => (f, Ok a).

Definition wbind {A B : Type} (m : writer A) (k : A -> writer B) : writer B :=
  fun f =>
    match m f with
    | (f', Ok a) => k a f'
    | (f', Raise e) => (f', Raise e)
    end.

(** [f.write(s)] *)
Definition write (s : str) : writer unit := fun f => (f ++ s, Ok tt).

(** A pure computation that may raise, inside a writer. *)
Definition lift {A : Type} (r : result A) : writer A := fun f => (f, r).

Notation "x <~ c1 ;; c2" := (wbind c1 (fun x => c2))
  (at level 61, c1 at next level, right associativity) : py_scope.
Notation "c1 ;;; c2" := (wbind c1 (fun _ => c2))
  (at level 61, right associativity) : py_scope.

(** [with open(out_path, "w", encoding="utf-8") as f: body]: the file is
    created or truncated, so [body] starts from the empty text. *)
Definition with_open_w {A : Type} (body : writer A) : str * result A :=
  body [].

(** ** The four writers *)

(** [for x in l: body(x)] *)
Fixpoint for_each {A : Type} (l : list A) (body : A -> writer unit)
  : writer unit :=
  match l with
  | [] => wret tt
  | x :: rest => body x ;;; for_each rest body
  end.

(** [enumerate(l, start)] *)
Fixpoint enumerate {A : Type} (start : Z) (l : list A) : list (Z * A) :=
  match l with
  | [] => []
  | x :: rest => (start, x) :: enumerate (start + 1) rest
  end.

Definition write_txt (segments : list segment) : str * result unit :=
  with_open_w
    (for_each segments (fun seg =>
       let text := strip (seg_text seg) in
       if truthy text then write (text ++ nl) else wret tt)).

Definition write_srt (segments : list segment) : str * result unit :=
  with_open_w
    (for_each (enumerate 1 segments) (fun '(idx, seg) =>
       start <~ lift (format_ts_srt (seg_start seg)) ;;
       end_ <~ lift (format_ts_srt (seg_end seg)) ;;
       let text := strip (seg_text seg) in
       if negb (truthy text) then wret tt
       else write (format_d 0 idx ++ nl ++ start ++ lit " --> " ++ end_ ++ nl
                     ++ text ++ nl ++ nl))).

Definition write_vtt (segments : list segment) : str * result unit :=
  with_open_w
    (write (lit "WEBVTT" ++ nl ++ nl) ;;;
     for_each segments (fun seg =>
       start <~ lift (format_ts_vtt (seg_start seg)) ;;
       end_ <~ lift (format_ts_vtt (seg_end seg)) ;;
       let text := strip (seg_text seg) in
       if negb (truthy text) then wret tt
       else write (start ++ lit " --> " ++ end_ ++ nl ++ text ++ nl ++ nl))).

(** ** [json.dump] *)

Module Json.

(** The values [json] encodes: [None], [bool], [int], [float], [str],
    [list] and [dict] with string keys, in insertion order. *)
Inductive value : Type :=
| Null
| Bool (b : bool)
| Int (n : Z)
| Float (x : float)
| Str (s : str)
| List (l : list value)
| Dict (items : list (str * value)).

Definition hex_digit (d : N) : char :=
  if (d <? 10)%N then (48 + d)%N else (87 + d)%N.

(** One character of a string under [ensure_ascii=False]: the quote, the
    backslash and the control characters are escaped, every other code point
    is written as it is. *)
Definition escape_char (c : char) : str :=
  if (c =? 34)%N then [92; 34]%N
  else if (c =? 92)%N then [92; 92]%N
  else if (c =? 8)%N then [92; 98]%N
  else if (c =? 12)%N then [92; 102]%N
  else if (c =? 10)%N then [92; 110]%N
  else if (c =? 13)%N then [92; 114]%N
  else if (c =? 9)%N then [92; 116]%N
  else if (c <? 32)%N
       then [92; 117; 48; 48]%N ++ [hex_digit (c / 16); hex_digit (c mod 16)]
  else [c].

Definition encode_basestring (s : str) : str :=
  [34%N] ++ flat_map escape_char s ++ [34%N].

Section Encoder.

(** [float.__repr__], the shortest decimal string that reads back as the
    same float: a parameter of the encoder. *)
Variable float_repr : float -> str.

(** The width of one indentation level. *)
Variable indent : nat.

Definition floatstr (x : float) : str :=
  match x with
  | S754_nan => lit "NaN"
  | S754_infinity false => lit "Infinity"
  | S754_infinity true => lit "-Infinity"
  | _ => float_repr x
  end.

Definition newline_indent (level : nat) : str :=
  nl ++ repeat 32%N (indent * level).

(** The text of [v] at nesting depth [level], items separated by a comma
    and a newline, keys from values by a colon and a space. *)
Fixpoint encode (level : nat) (v : value) : str :=
  match v with
  | Null => lit "null"
  | Bool true => lit "true"
  | Bool false => lit "false"
  | Int n => format_d 0 n
  | Float x => floatstr x
  | Str s => encode_basestring s
  | List [] => lit "[]"
  | List (x :: xs) =>
      lit "[" ++ newline_indent (S level) ++ encode (S level) x
        ++ (fix rest (l : list value) : str :=
              match l with
              | [] => []
              | y :: ys =>
                  lit "," ++ newline_indent (S level)
                    ++ encode (S level) y ++ rest ys
              end) xs
        ++ newline_indent level ++ lit "]"
  | Dict [] => lit "{}"
  | Dict ((k, x) :: kxs) =>
      lit "{" ++ newline_indent (S level)
        ++ encode_basestring k ++ lit ": " ++ encode (S level) x
        ++ (fix rest (l : list (str * value)) : str :=
              match l with
              | [] => []
              | (k', y) :: ys =>
                  lit "," ++ newline_indent (S level)
                    ++ encode_basestring k' ++ lit ": "
                    ++ encode (S level) y ++ rest ys
              end) kxs
        ++ newline_indent level ++ lit "}"
  end.

(** [json.dumps(v, ensure_ascii=False, indent=indent)] *)
Definition dumps (v : value) : str := encode 0 v.

End Encoder.

(** *** The decoder: [json.loads]

    The scanner of CPython's [json] module in its default, strict mode, on
    the list of characters still to be read. A decoding error is [None]. *)



Definition is_digit (c : char) : bool := ((48 <=? c) && (c <=? 57))%N.






Definition int_of_digits (ds : str) : Z :=
  fold_left (fun acc c => acc * 10 + (Z.of_N c - 48)) ds 0.















End Json.

(** The Python value of a segment list: a list of dictionaries. *)
Definition segment_value (seg : segment) : Json.value :=
  Json.Dict [ (lit "start", Json.Float (seg_start seg));
              (lit "end", Json.Float (seg_end seg));
              (lit "text", Json.Str (seg_text seg)) ].

Definition segments_value (segments : list segment) : Json.value :=
  Json.List (List.map segment_value segments).

Definition write_json (float_repr : float -> str) (segments : list segment)
  : str * result unit :=
  with_open_w (write (Json.dumps float_repr 2 (segments_value segments))).

(** ** [os.path.splitext] and the derived output path *)

Module OsPath.

Fixpoint rfind_aux (c : char) (i : Z) (p : str) (last : Z) : Z :=
  match p with
  | [] => last
  | x :: r => rfind_aux c (i + 1) r (if (x =? c)%N then i else last)
  end.

(** [p.rfind(c)]: the index of the last [c] in [p], or [-1]. *)
Definition rfind (c : char) (p : str) : Z := rfind_aux c 0 p (-1).

(** [p[i:j]] for [0 <= i]. *)
Definition slice (p : str) (i j : Z) : str :=
  firstn (Z.to_nat (j - i)) (skipn (Z.to_nat i) p).

(** Whether some character of [l] differs from [extsep]: the loop that
    skips leading dots. *)
Fixpoint has_non_dot (extsep : char) (l : str) : bool :=
  match l with
  | [] => false
  | c :: r => if negb (c =? extsep)%N then true else has_non_dot extsep r
  end.

(** [genericpath._splitext(p, sep, altsep, extsep)] *)
Definition _splitext (p : str) (sep : char) (altsep : option char)
           (extsep : char) : str * str :=
  let sepIndex := rfind sep p in
  let sepIndex :=
    match altsep with
    | Some a => Z.max sepIndex (rfind a p)
    | None => sepIndex
    end in
  let dotIndex := rfind extsep p in
  if (dotIndex >? sepIndex)
     && has_non_dot extsep (slice p (sepIndex + 1) dotIndex)
  then (firstn (Z.to_nat dotIndex) p, skipn (Z.to_nat dotIndex) p)
  else (p, []).

(** The two implementations of [os.path]. *)
Inductive flavour : Type := posixpath | ntpath.

Definition splitext (os : flavour) (p : str) : str * str :=
  match os with
  | posixpath => _splitext p 47%N None 46%N
  | ntpath => _splitext p 92%N (Some 47%N) 46%N
  end.

End OsPath.

Definition derive_output_path (os : OsPath.flavour) (input_path fmt : str)
  : str :=
  let '(base, _) := OsPath.splitext os input_path in
  base ++ lit "." ++ fmt.

(** ** The command-line driver *)

(** The choices of [--format]. *)
Inductive format : Type := txt | srt | vtt | json.

(** The choice as the string [argparse] stores in [args.format]. *)
Definition format_str (f : format) : str :=
  match f with
  | txt => lit "txt"
  | srt => lit "srt"
  | vtt => lit "vtt"
  | json => lit "json"
  end.

(** The parsed command line. *)
Record args : Type := {
  input : str;
  model : str;
  language : option str;
  fmt : format;
  output : option str
}.

(** The two backends. *)
Inductive backend : Type := faster_whisper | openai_whisper.

(** What the driver finds around it: the file system's answer to
    [os.path.exists], the answer of [shutil.which], the flavour of [os.path],
    [float.__repr__], and the two transcription functions, each returning the
    segments or raising an exception [err] given by [str(err)]. *)
Record env : Type := {
  path_exists : str -> bool;
  which : str -> option str;
  os_path : OsPath.flavour;
  float_repr : float -> str;
  transcribe_with_faster_whisper :
    str -> str -> option str -> str + list segment;
  transcribe_with_openai_whisper :
    str -> str -> option str -> str + list segment
}.

(** What the driver leaves behind: the two output streams, the files written
    (the latest first) and the backends called (the latest first). *)
Record world : Type := {
  stdout : str;
  stderr : str;
  files : list (str * str);
  called : list backend
}.

Definition initial_world : world :=
  {| stdout := []; stderr := []; files := []; called := [] |}.

(** How the process ends: [main] returns an exit code, or an exception
    leaves it. *)
Inductive outcome : Type :=
| Return (code : Z)
| Uncaught (e : exn).

(** [print(s)] *)
Definition print (s : str) (w : world) : world :=
  {| stdout := stdout w ++ s ++ nl; stderr := stderr w;
     files := files w; called := called w |}.

(** [print(s, file=sys.stderr)] *)
Definition eprint (s : str) (w : world) : world :=
  {| stdout := stdout w; stderr := stderr w ++ s ++ nl;
     files := files w; called := called w |}.

Definition call (b : backend) (w : world) : world :=
  {| stdout := stdout w; stderr := stderr w;
     files := files w; called := b :: called w |}.

(** [open(path, "w")] and what the writer leaves in the file. The destination
    is taken to be writable: an [OSError] of [open] is not modelled. *)
Definition store (path content : str) (w : world) : world :=
  {| stdout := stdout w; stderr := stderr w;
     files := (path, content) :: files w; called := called w |}.

(** [a or b] on an optional string: [a] when it is neither [None] nor empty. *)
Definition py_or (a : option str) (b : str) : str :=
  match a with
  | Some s => if truthy s then s else b
  | None => b
  end.

Definition ffmpeg_hint : str :=
  lit "ffmpeg not found on PATH. Install it, then re-run." ++ nl
    ++ lit "Windows (winget): winget install --id Gyan.FFmpeg -e" ++ nl
    ++ lit "Verify: ffmpeg -version".

Definition install_hint : str :=
  lit "Transcription failed. Install dependencies:" ++ nl
    ++ lit "  pip install -r requirements.txt" ++ nl
    ++ lit "Also ensure ffmpeg is installed and on PATH." ++ nl
    ++ lit "Details: ".

(** The tail of [main]: the writer for the requested format, then the
    report. *)
Definition write_and_report (e : env) (a : args) (out_path : str)
           (segments : list segment) (w : world) : world * outcome :=
  let '(content, r) :=
    match fmt a with
    | txt => write_txt segments
    | json => write_json (float_repr e) segments
    | srt => write_srt segments
    | vtt => write_vtt segments
    end in
  let w := store out_path content w in
  match r with
  | Raise x => (w, Uncaught x)
  | Ok _ => (print (lit "Wrote " ++ out_path) w, Return 0)
  end.

Definition main (e : env) (a : args) (w : world) : world * outcome :=
  if negb (path_exists e (input a)) then
    (eprint (lit "Input not found: " ++ input a) w, Return 2)
  else
    match which e (lit "ffmpeg") with
    | None => (eprint ffmpeg_hint w, Return 2)
    | Some _ =>
        let out_path :=
          py_or (output a)
                (derive_output_path (os_path e) (input a) (format_str (fmt a))) in
        let w := call faster_whisper w in
        match transcribe_with_faster_whisper e (input a) (model a) (language a) with
        | inr segments => write_and_report e a out_path segments w
        | inl err =>
            if contains (lit "No module named") err then
              let w := call openai_whisper w in
              match transcribe_with_openai_whisper e (input a) (model a)
                                                   (language a) with
              | inr segments => write_and_report e a out_path segments w
              | inl err2 => (eprint (install_hint ++ err2) w, Return 1)
              end
            else (eprint (lit "Transcription failed: " ++ err) w, Return 1)
        end
    end.

(** ** Vocabulary of the properties *)

(** The string a result holds; empty when it is an exception. *)
Definition value_of (r : result str) : str :=
  match r with
  | Ok s => s
  | Raise _ => []
  end.

(** A seconds value the formatters accept. *)
Definition formattable (x : float) : Prop :=
  exists fields, ts_fields x = Ok fields.

(** A segment whose two times the formatters accept. *)
Definition timed (seg : segment) : Prop :=
  formattable (seg_start seg) /\ formattable (seg_end seg).

(** A segment whose trimmed text is not empty. *)
Definition has_text (seg : segment) : bool := truthy (strip (seg_text seg)).

(** The timestamp line of a subtitle block. *)
Definition cue_line (fmt_ts : float -> result str) (seg : segment) : str :=
  value_of (fmt_ts (seg_start seg)) ++ lit " --> "
    ++ value_of (fmt_ts (seg_end seg)) ++ nl.

(** A block of subtitle format A: the index line, the timestamp line, the
    trimmed text and a blank line. *)
Definition srt_block (idx : Z) (seg : segment) : str :=
  format_d 0 idx ++ nl ++ cue_line format_ts_srt seg
    ++ strip (seg_text seg) ++ nl ++ nl.

(** A block of subtitle format B: the timestamp line, the trimmed text and a
    blank line. *)
Definition vtt_block (seg : segment) : str :=
  cue_line format_ts_vtt seg ++ strip (seg_text seg) ++ nl ++ nl.

(** The three segments of the specification's example, with the texts
    [hello], two spaces, and [world]. *)
Definition example_segments (t0 t1 t2 t3 : float) : list segment :=
  [ {| seg_start := t0; seg_end := t1; seg_text := lit "hello" |};
    {| seg_start := t1; seg_end := t2; seg_text := lit "  " |};
    {| seg_start := t2; seg_end := t3; seg_text := lit "world" |} ].

(** The test the driver applies to the primary backend's failure. *)
Definition not_installed (err : str) : bool :=
  contains (lit "No module named") err.

(** The destination the driver writes to and reports. *)
Definition destination (e : env) (a : args) : str :=
  py_or (output a)
        (derive_output_path (os_path e) (input a) (format_str (fmt a))).

(** The text the writer of the requested format leaves. *)
Definition serialized (e : env) (f : format) (segments : list segment) : str :=
  fst (match f with
       | txt => write_txt segments
       | json => write_json (float_repr e) segments
       | srt => write_srt segments
       | vtt => write_vtt segments
       end).


(** The preconditions the driver checks before it transcribes. *)
Definition ready (e : env) (a : args) : Prop :=
  path_exists e (input a) = true /\ which e (lit "ffmpeg") <> None.

(** A path separator of the flavour. *)
Definition is_sep (os : OsPath.flavour) (c : char) : bool :=
  match os with
  | OsPath.posixpath => (c =? 47)%N
  | OsPath.ntpath => ((c =? 92) || (c =? 47))%N
  end.

(** [splits os p base ext]: the split of a path into a root and an
    extension. The path is a directory part, empty or ending in a separator,
    followed by a file name without separators. When the name has a dot
    with a character other than a dot somewhere before its last dot, the
    extension runs from that last dot to the end; otherwise the extension is
    empty. *)
Definition splits (os : OsPath.flavour) (p base ext : str) : Prop :=
  exists dir name,
    p = dir ++ name
    /\ (forall c, In c name -> is_sep os c = false)
    /\ (dir = [] \/ exists d c, dir = d ++ [c] /\ is_sep os c = true)
    /\ ((exists stem e,
            name = stem ++ 46%N :: e /\ ~ In 46%N e
            /\ (exists c, In c stem /\ c <> 46%N)
            /\ base = dir ++ stem /\ ext = 46%N :: e)
        \/ ((forall stem e,
                name = stem ++ 46%N :: e -> ~ In 46%N e ->
                forall c, In c stem -> c = 46%N)
            /\ base = p /\ ext = [])).

(** The microseconds a [timedelta] counts. *)
Definition total_microseconds (td : Datetime.timedelta) : Z :=
  (Datetime.days td * 86400 + Datetime.seconds td) * 10 ^ 6
  + Datetime.microseconds td.

(** The result of [binary_round_aux] from its final mantissa and exponent. *)
Definition pack (s : bool) (m e : Z) : float :=
  match m with
  | Z0 => S754_zero s
  | Zpos p => if e <=? 971 then S754_finite s p e else S754_infinity s
  | Zneg _ => S754_nan
  end.

(** A float that is not negative: no sign bit set. *)
Definition signless (f : float) : Prop :=
  match f with
  | S754_zero true | S754_infinity true | S754_finite true _ _ => False
  | _ => True
  end.

(** The fields as the specification words them: the clamped value itself,
    with no rounding, split into hours, minutes and whole seconds, and the
    milliseconds cut from its fractional remainder. [m * 2^e] is a positive
    finite float; every other float that is not infinite clamps to zero. *)
Definition fields_as_specified (x : float) : Z * Z * Z * Z :=
  match x with
  | S754_finite false m e =>
      let whole := Z.shiftl (Zpos m) e in
      let millis := Z.shiftl (Zpos m * 1000) e - whole * 1000 in
      (whole / 3600, (whole mod 3600) / 60, whole mod 60, millis)
  | _ => (0, 0, 0, 0)
  end.



(** A [float.__repr__] for the examples: the texts of the three times they
    use. *)
Definition example_float_repr (x : float) : str :=
  if SFeqb x (decimal 15 1) then lit "1.5"
  else if SFeqb x (of_int 2) then lit "2.0"
  else lit "0.0".

(** Two segments for the examples of the structured format: a text with an
    accented letter, and an empty text. *)
Definition example_transcript : list segment :=
  [ {| seg_start := zero; seg_end := decimal 15 1;
       seg_text := [104; 233; 108; 108; 111]%N |};
    {| seg_start := decimal 15 1; seg_end := of_int 2; seg_text := [] |} ].

(** The text of one segment in the structured format, at the indentation of
    a list item: the three members on lines of their own, four spaces in,
    and the closing brace two spaces in. *)
Definition segment_text (float_repr : float -> str) (seg : segment) : str :=
  lit "{" ++ nl
    ++ lit "    " ++ Json.encode_basestring (lit "start") ++ lit ": "
    ++ Json.floatstr float_repr (seg_start seg) ++ lit "," ++ nl
    ++ lit "    " ++ Json.encode_basestring (lit "end") ++ lit ": "
    ++ Json.floatstr float_repr (seg_end seg) ++ lit "," ++ nl
    ++ lit "    " ++ Json.encode_basestring (lit "text") ++ lit ": "
    ++ Json.encode_basestring (seg_text seg) ++ nl
    ++ lit "  " ++ lit "}".

(** The text of a segment list in the structured format: the brackets on
    lines of their own, each segment two spaces in, a comma after every
    segment but the last. *)
Definition segments_text (float_repr : float -> str)
           (segments : list segment) : str :=
  match segments with
  | [] => lit "[]"
  | seg :: rest =>
      lit "[" ++ nl ++ lit "  " ++ segment_text float_repr seg
        ++ flat_map (fun s => lit "," ++ nl ++ lit "  "
                                ++ segment_text float_repr s) rest
        ++ nl ++ lit "]"
  end.

(** ** The two backends

    The two libraries lie outside the program: each is given by what its
    calls answer. A call returns, or raises an exception [err] given by
    [str(err)]; an import that fails is such an exception in place of the
    module. Of the objects the libraries return, the attributes and keys the
    program reads are modelled. *)

Module Backend.

(** The lazy sequence of segments [model.transcribe] of faster-whisper
    returns: the segments it yields, and the exception that ends the
    iteration when one does. *)
Record generator : Type := {
  yielded : list segment;
  raised : option str
}.

(** [faster_whisper]: the constructor [WhisperModel(model_size, device,
    compute_type)] and the method [transcribe(audio, language, vad_filter,
    beam_size)], which returns the segments and an [info] that is not
    read. *)
Record faster_whisper_module : Type := {
  fw_model : Type;
  WhisperModel : str -> str -> str -> str + fw_model;
  fw_transcribe : fw_model -> str -> option str -> bool -> Z -> str + generator
}.

(** A segment of openai-whisper: a dictionary, of which the three keys read
    are modelled, each absent ([None]) or present. *)
Record whisper_segment : Type := {
  ws_start : option float;
  ws_end : option float;
  ws_text : option str
}.

(** [whisper]: [load_model(name)] and the method [transcribe(audio,
    language)], whose result is a dictionary: its entry ["segments"], absent
    or present, is modelled. *)
Record whisper_module : Type := {
  ow_model : Type;
  load_model : str -> str + ow_model;
  ow_transcribe : ow_model -> str -> option str
                  -> str + option (list whisper_segment)
}.

Definition transcribe_with_faster_whisper
           (faster_whisper : str + faster_whisper_module)
           (input_path model_name : str) (language : option str)
  : str + list segment :=
  match faster_whisper with
  | inl err => inl err
  | inr fw =>
      match WhisperModel fw model_name (lit "cpu") (lit "int8") with
      | inl err => inl err
      | inr model =>
          match fw_transcribe fw model input_path language true 5 with
          | inl err => inl err
          | inr segments =>
              let out :=
                List.map (fun seg => {| seg_start := seg_start seg;
                                        seg_end := seg_end seg;
                                        seg_text := seg_text seg |})
                         (yielded segments) in
              match raised segments with
              | Some err => inl err
              | None => inr out
              end
          end
      end
  end.

(** [seg[key]]: the value, or the [KeyError] whose text is the quoted key. *)
Definition getitem {A : Type} (key : str) (v : option A) : str + A :=
  match v with
  | Some a => inr a
  | None => inl ([39%N] ++ key ++ [39%N])
  end.

(** The dictionary built from one segment of openai-whisper; the keys are
    read from left to right. *)
Definition segment_of (seg : whisper_segment) : str + segment :=
  match getitem (lit "start") (ws_start seg) with
  | inl err => inl err
  | inr s =>
      match getitem (lit "end") (ws_end seg) with
      | inl err => inl err
      | inr e =>
          match getitem (lit "text") (ws_text seg) with
          | inl err => inl err
          | inr t => inr {| seg_start := s; seg_end := e; seg_text := t |}
          end
      end
  end.

(** The list comprehension over the segments: the first exception ends
    it. *)
Fixpoint comprehension (segs : list whisper_segment) : str + list segment :=
  match segs with
  | [] => inr []
  | seg :: rest =>
      match segment_of seg with
      | inl err => inl err
      | inr s =>
          match comprehension rest with
          | inl err => inl err
          | inr out => inr (s :: out)
          end
      end
  end.

Definition transcribe_with_openai_whisper
           (whisper : str + whisper_module)
           (input_path model_name : str) (language : option str)
  : str + list segment :=
  match whisper with
  | inl err => inl err
  | inr ow =>
      match load_model ow model_name with
      | inl err => inl err
      | inr model =>
          match ow_transcribe ow model input_path language with
          | inl err => inl err
          | inr result =>
              comprehension (match result with
                             | Some segs => segs
                             | None => []
                             end)
          end
      end
  end.

End Backend.

(** The environment in which the two backends are those of the program over
    the given libraries. *)
Definition with_backends (e : env)
           (faster_whisper : str + Backend.faster_whisper_module)
           (whisper : str + Backend.whisper_module) : env :=
  {| path_exists := path_exists e;
     which := which e;
     os_path := os_path e;
     float_repr := float_repr e;
     transcribe_with_faster_whisper :=
       Backend.transcribe_with_faster_whisper faster_whisper;
     transcribe_with_openai_whisper :=
       Backend.transcribe_with_openai_whisper whisper |}.

(** ** Vocabulary of the further properties *)

(** The whole seconds of a seconds value after the clamp: those of a
    positive finite float, and zero for every float that clamps to zero. *)
Definition whole_seconds (x : float) : Z :=
  match x with
  | S754_finite false m e => Z.shiftl (Zpos m) e
  | _ => 0
  end.

(** A string of decimal digits. *)
Definition numeral (s : str) : Prop :=
  Forall (fun c => Json.is_digit c = true) s.

(** A segment the subtitle writers stop at with the exception [e]: its start
    time is rejected, or its start time is accepted and its end time is
    rejected. *)
Definition rejected (seg : segment) (e : exn) : Prop :=
  ts_fields (seg_start seg) = Raise e
  \/ (formattable (seg_start seg) /\ ts_fields (seg_end seg) = Raise e).

(** The segments a run transcribes: those of the primary backend, or those
    of the secondary one when the primary is not installed. *)
Definition transcript (e : env) (a : args) (segments : list segment) : Prop :=
  transcribe_with_faster_whisper e (input a) (model a) (language a)
  = inr segments
  \/ exists err,
      transcribe_with_faster_whisper e (input a) (model a) (language a)
      = inl err
      /\ not_installed err = true
      /\ transcribe_with_openai_whisper e (input a) (model a) (language a)
         = inr segments.

(** The six ways through [main]. *)
Inductive run (e : env) (a : args) (w : world) : world * outcome -> Prop :=
| run_no_input :
    path_exists e (input a) = false ->
    run e a w (eprint (lit "Input not found: " ++ input a) w, Return 2)
| run_no_ffmpeg :
    path_exists e (input a) = true -> which e (lit "ffmpeg") = None ->
    run e a w (eprint ffmpeg_hint w, Return 2)
| run_primary_fails err :
    ready e a ->
    transcribe_with_faster_whisper e (input a) (model a) (language a)
    = inl err ->
    not_installed err = false ->
    run e a w (eprint (lit "Transcription failed: " ++ err)
                      (call faster_whisper w), Return 1)
| run_both_fail err err2 :
    ready e a ->
    transcribe_with_faster_whisper e (input a) (model a) (language a)
    = inl err ->
    not_installed err = true ->
    transcribe_with_openai_whisper e (input a) (model a) (language a)
    = inl err2 ->
    run e a w (eprint (install_hint ++ err2)
                      (call openai_whisper (call faster_whisper w)), Return 1)
| run_primary segments :
    ready e a ->
    transcribe_with_faster_whisper e (input a) (model a) (language a)
    = inr segments ->
    run e a w (write_and_report e a (destination e a) segments
                                (call faster_whisper w))
| run_secondary err segments :
    ready e a ->
    transcribe_with_faster_whisper e (input a) (model a) (language a)
    = inl err ->
    not_installed err = true ->
    transcribe_with_openai_whisper e (input a) (model a) (language a)
    = inr segments ->
    run e a w (write_and_report e a (destination e a) segments
                 (call openai_whisper (call faster_whisper w))).

(** A string of white space only. *)
Definition blank (s : str) : Prop := Forall (fun c => isspace c = true) s.

(** [trimmed s t]: [t] is [s] without its leading and trailing white space:
    white space surrounds it in [s], and it neither starts nor ends with a
    white space character. *)
Definition trimmed (s t : str) : Prop :=
  exists pre post,
    s = pre ++ t ++ post /\ blank pre /\ blank post
    /\ (forall c r, t = c :: r -> isspace c = false)
    /\ (forall r c, t = r ++ [c] -> isspace c = false).

(** A segment whose text has a character that is not white space. *)
Definition visible (seg : segment) : bool :=
  existsb (fun c => negb (isspace c)) (seg_text seg).

(** A path with a file name: what follows its last separator has a
    character other than a dot. *)
Definition named (os : OsPath.flavour) (p : str) : Prop :=
  exists dir name c,
    p = dir ++ name
    /\ (forall x, In x name -> is_sep os x = false)
    /\ (dir = [] \/ exists d s, dir = d ++ [s] /\ is_sep os s = true)
    /\ In c name /\ c <> 46%N.

(** What each format holds for no segments at all. *)
Definition empty_output (f : format) : str :=
  match f with
  | txt => []
  | srt => []
  | vtt => lit "WEBVTT" ++ nl ++ nl
  | json => lit "[]"
  end.

(** A whisper module for the examples: it loads every model and answers
    every transcription with the given result. *)
Definition example_whisper (result : option (list Backend.whisper_segment))
  : Backend.whisper_module :=
  {| Backend.ow_model := unit;
     Backend.load_model := fun _ => inr tt;
     Backend.ow_transcribe := fun _ _ _ => inr result |}.

(** A faster-whisper module for the examples: it loads every model and
    answers every transcription with the given segments. *)
Definition example_faster_whisper (segments : Backend.generator)
  : Backend.faster_whisper_module :=
  {| Backend.fw_model := unit;
     Backend.WhisperModel := fun _ _ _ => inr tt;
     Backend.fw_transcribe := fun _ _ _ _ _ => inr segments |}.

(** The time a timestamp shows, in milliseconds. *)
Definition shown_millis (fields : Z * Z * Z * Z) : Z :=
  let '(hours, minutes, secs, millis) := fields in
  ((hours * 60 + minutes) * 60 + secs) * 1000 + millis.

(** * Properties *)

(** ** Writers: the loop and the text it leaves *)

Section ForEach.

Context {A : Type}.
Variable body : A -> writer unit.
Variable text_of : A -> str.

(** A loop whose body appends [text_of x] for each [x] appends them all. *)
Lemma for_each_appends (l : list A) :
  (forall x, In x l -> forall f, body x f = (f ++ text_of x, Ok tt)) ->
  forall f, for_each l body f = (f ++ flat_map text_of l, Ok tt).
Proof.
  induction l as [| x rest IH]; intros Hbody f; simpl.
  - now rewrite app_nil_r.
  - unfold wbind. rewrite (Hbody x (or_introl eq_refl)).
    rewrite IH by (intros y Hy; apply Hbody; now right).
    now rewrite <- app_assoc.
Qed.

End ForEach.

Lemma flat_map_filter {A B : Type} (p : A -> bool) (h : A -> list B) l :
  flat_map (fun x => if p x then h x else []) l = flat_map h (filter p l).
Proof.
  induction l as [| x rest IH]; simpl; [reflexivity |].
  destruct (p x); simpl; now rewrite IH.
Qed.

Lemma enumerate_In {A : Type} (l : list A) :
  forall start i x, In (i, x) (enumerate start l) -> In x l.
Proof.
  induction l as [| y rest IH]; simpl; intros start i x H; [exact H |].
  destruct H as [H | H]; [inversion H; now left | right; eauto].
Qed.

Lemma enumerate_nth {A : Type} (l : list A) :
  forall start n x,
    nth_error l n = Some x ->
    nth_error (enumerate start l) n = Some (start + Z.of_nat n, x).
Proof.
  induction l as [| y rest IH]; intros start n x H.
  - destruct n; discriminate.
  - destruct n as [| n]; simpl in *.
    + inversion H. now rewrite Z.add_0_r.
    + rewrite (IH (start + 1) n x H). do 2 f_equal. lia.
Qed.

Lemma formattable_srt x :
  formattable x -> format_ts_srt x = Ok (value_of (format_ts_srt x)).
Proof.
  unfold format_ts_srt. intros [fields ->]. reflexivity.
Qed.

Lemma formattable_vtt x :
  formattable x -> format_ts_vtt x = Ok (value_of (format_ts_vtt x)).
Proof.
  unfold format_ts_vtt. intros [fields ->]. reflexivity.
Qed.

(** The body of the loop of [write_srt] on a segment with formattable
    times. *)
Lemma srt_body_appends idx seg f :
  timed seg ->
  (start <~ lift (format_ts_srt (seg_start seg)) ;;
   end_ <~ lift (format_ts_srt (seg_end seg)) ;;
   let text := strip (seg_text seg) in
   if negb (truthy text) then wret tt
   else write (format_d 0 idx ++ nl ++ start ++ lit " --> " ++ end_ ++ nl
                 ++ text ++ nl ++ nl)) f
  = (f ++ (if has_text seg then srt_block idx seg else []), Ok tt).
Proof.
  intros [Hs He]. unfold wbind, lift, has_text, srt_block, cue_line.
  rewrite (formattable_srt _ Hs), (formattable_srt _ He). simpl value_of.
  destruct (truthy (strip (seg_text seg))); simpl negb; cbv iota.
  - unfold write. now rewrite <- !app_assoc.
  - unfold wret. now rewrite app_nil_r.
Qed.

Lemma vtt_body_appends seg f :
  timed seg ->
  (start <~ lift (format_ts_vtt (seg_start seg)) ;;
   end_ <~ lift (format_ts_vtt (seg_end seg)) ;;
   let text := strip (seg_text seg) in
   if negb (truthy text) then wret tt
   else write (start ++ lit " --> " ++ end_ ++ nl ++ text ++ nl ++ nl)) f
  = (f ++ (if has_text seg then vtt_block seg else []), Ok tt).
Proof.
  intros [Hs He]. unfold wbind, lift, has_text, vtt_block, cue_line.
  rewrite (formattable_vtt _ Hs), (formattable_vtt _ He). simpl value_of.
  destruct (truthy (strip (seg_text seg))); simpl negb; cbv iota.
  - unfold write. now rewrite <- !app_assoc.
  - unfold wret. now rewrite app_nil_r.
Qed.

Lemma write_txt_spec segments :
  write_txt segments
  = (flat_map (fun seg => strip (seg_text seg) ++ nl)
              (filter has_text segments), Ok tt).
Proof.
  unfold write_txt, with_open_w.
  rewrite for_each_appends
    with (text_of := fun seg =>
                       if has_text seg then strip (seg_text seg) ++ nl else []).
  - now rewrite (flat_map_filter has_text (fun seg => strip (seg_text seg) ++ nl)).
  - intros seg _ f. unfold has_text.
    destruct (truthy (strip (seg_text seg))); unfold write, wret;
      [reflexivity | now rewrite app_nil_r].
Qed.

Lemma write_srt_spec segments :
  Forall timed segments ->
  write_srt segments
  = (flat_map (fun p => srt_block (fst p) (snd p))
              (filter (fun p => has_text (snd p)) (enumerate 1 segments)),
     Ok tt).
Proof.
  intros Htimed. unfold write_srt, with_open_w.
  rewrite for_each_appends
    with (text_of := fun p => if has_text (snd p)
                              then srt_block (fst p) (snd p) else []).
  - now rewrite (flat_map_filter (fun p => has_text (snd p))
                                 (fun p => srt_block (fst p) (snd p))).
  - intros [idx seg] Hin f. apply srt_body_appends.
    rewrite Forall_forall in Htimed. apply Htimed.
    eapply enumerate_In; eassumption.
Qed.

Lemma write_vtt_spec segments :
  Forall timed segments ->
  write_vtt segments
  = (lit "WEBVTT" ++ nl ++ nl ++ flat_map vtt_block (filter has_text segments),
     Ok tt).
Proof.
  intros Htimed. unfold write_vtt, with_open_w, wbind, write.
  rewrite for_each_appends
    with (text_of := fun seg => if has_text seg then vtt_block seg else []).
  - now rewrite (flat_map_filter has_text vtt_block).
  - intros seg Hin f. apply vtt_body_appends.
    rewrite Forall_forall in Htimed. now apply Htimed.
Qed.

(** C6. The plain-text writer leaves exactly the trimmed text of each segment
    whose trimmed text is not empty, each followed by one newline, in order;
    on the example segments that is [hello], newline, [world], newline. *)
Theorem write_txt_lines :
  forall segments,
    write_txt segments
    = (flat_map (fun seg => strip (seg_text seg) ++ nl)
                (filter has_text segments), Ok tt)
    /\ forall t0 t1 t2 t3,
        write_txt (example_segments t0 t1 t2 t3)
        = (lit "hello" ++ nl ++ lit "world" ++ nl, Ok tt).
Proof.
  intros segments. split; [apply write_txt_spec |].
  intros t0 t1 t2 t3. rewrite write_txt_spec. reflexivity.
Qed.

(** ** Subtitle format A: numbering *)

(** The example segments with the times 0, 1.5, 2 and 3661.5 seconds. *)
Lemma example_timed :
  Forall timed
    (example_segments zero (decimal 15 1) (of_int 2) (decimal 36615 1)).
Proof.
  repeat constructor; eexists; vm_compute; reflexivity.
Defined.

(** C1, as the code has it. The index of a block is the position of its
    segment in the input sequence, counted from 1 before the segments with
    empty trimmed text are dropped: the writer leaves, in order, the block of
    every pair [(idx, seg)] of [enumerate(segments, start=1)] whose segment
    has text, and that enumeration pairs the segment at offset [n] with
    [1 + n]. *)
Theorem write_srt_numbering :
  forall segments,
    Forall timed segments ->
    write_srt segments
    = (flat_map (fun p => srt_block (fst p) (snd p))
                (filter (fun p => has_text (snd p)) (enumerate 1 segments)),
       Ok tt)
    /\ forall n seg,
        nth_error segments n = Some seg ->
        nth_error (enumerate 1 segments) n = Some (1 + Z.of_nat n, seg).
Proof.
  intros segments Htimed. split.
  - now apply write_srt_spec.
  - intros n seg. apply enumerate_nth.
Qed.

Lemma write_srt_numbering_witness :
  write_srt (example_segments zero (decimal 15 1) (of_int 2) (decimal 36615 1))
  = (lit "1" ++ nl ++ lit "00:00:00,000 --> 00:00:01,500" ++ nl
       ++ lit "hello" ++ nl ++ nl
       ++ lit "3" ++ nl ++ lit "00:00:02,000 --> 01:01:01,500" ++ nl
       ++ lit "world" ++ nl ++ nl, Ok tt).
Proof.
  rewrite (proj1 (write_srt_numbering _ example_timed)).
  vm_compute. reflexivity.
Defined.

(** C1, as the specification words it, fails on its own example: the second
    block written carries the index 3, the position of its segment, and not
    the index 2. *)
Lemma write_srt_index_gap :
  write_srt (example_segments zero (decimal 15 1) (of_int 2) (decimal 36615 1))
  = (lit "1" ++ nl ++ lit "00:00:00,000 --> 00:00:01,500" ++ nl
       ++ lit "hello" ++ nl ++ nl
       ++ lit "3" ++ nl ++ lit "00:00:02,000 --> 01:01:01,500" ++ nl
       ++ lit "world" ++ nl ++ nl, Ok tt)
  /\ write_srt (example_segments zero (decimal 15 1) (of_int 2)
                                 (decimal 36615 1))
     <> (lit "1" ++ nl ++ lit "00:00:00,000 --> 00:00:01,500" ++ nl
           ++ lit "hello" ++ nl ++ nl
           ++ lit "2" ++ nl ++ lit "00:00:02,000 --> 01:01:01,500" ++ nl
           ++ lit "world" ++ nl ++ nl, Ok tt).
Proof.
  split; [vm_compute; reflexivity | vm_compute; discriminate].
Qed.

(** ** Subtitle format B *)

(** C8. On segments whose times the formatter accepts, the writer of
    subtitle format B leaves the line [WEBVTT], a blank line, and then, for
    each segment whose trimmed text is not empty, in order: the start and end
    timestamps of the period convention joined by the arrow, a newline, the
    trimmed text, a newline, and a blank line. Nothing else is written: no
    index, and no line ending but the newline. *)
Theorem write_vtt_content :
  forall segments,
    Forall timed segments ->
    write_vtt segments
    = (lit "WEBVTT" ++ nl ++ nl
         ++ flat_map (fun seg =>
                        value_of (format_ts_vtt (seg_start seg)) ++ lit " --> "
                          ++ value_of (format_ts_vtt (seg_end seg)) ++ nl
                          ++ strip (seg_text seg) ++ nl ++ nl)
                     (filter has_text segments),
       Ok tt).
Proof.
  intros segments Htimed. rewrite (write_vtt_spec segments Htimed).
  do 4 f_equal. apply flat_map_ext. intros seg. unfold vtt_block, cue_line.
  now rewrite <- !app_assoc.
Qed.

Lemma write_vtt_content_witness :
  write_vtt (example_segments zero (decimal 15 1) (of_int 2) (decimal 36615 1))
  = (lit "WEBVTT" ++ nl ++ nl
       ++ lit "00:00:00.000 --> 00:00:01.500" ++ nl ++ lit "hello" ++ nl ++ nl
       ++ lit "00:00:02.000 --> 01:01:01.500" ++ nl ++ lit "world" ++ nl ++ nl,
     Ok tt).
Proof.
  rewrite (write_vtt_content _ example_timed).
  vm_compute. reflexivity.
Defined.

(** C8, as the specification words it, fails on a time the formatter
    rejects. A segment with a text and an infinite start time gets no block:
    the writer raises after the header. *)
Lemma write_vtt_infinite_start :
  has_text {| seg_start := S754_infinity false; seg_end := decimal 15 1;
              seg_text := lit "hello" |} = true
  /\ write_vtt [ {| seg_start := S754_infinity false; seg_end := decimal 15 1;
                    seg_text := lit "hello" |} ]
     = (lit "WEBVTT" ++ nl ++ nl, Raise OverflowError).
Proof.
  split; vm_compute; reflexivity.
Qed.

(** ** The structured format: what the encoder writes *)

Lemma encode_segment fr seg :
  Json.encode fr 2 1 (segment_value seg) = segment_text fr seg.
Proof.
  unfold segment_value, segment_text.
  cbn [Json.encode Json.newline_indent Nat.mul Nat.add repeat].
  rewrite <- !app_assoc. reflexivity.
Qed.

Lemma encode_items fr rest :
  (fix items (l : list Json.value) : str :=
     match l with
     | [] => []
     | y :: ys =>
         lit "," ++ Json.newline_indent 2 1 ++ Json.encode fr 2 1 y ++ items ys
     end) (List.map segment_value rest)
  = flat_map (fun s => lit "," ++ nl ++ lit "  " ++ segment_text fr s) rest.
Proof.
  induction rest as [| s rest IH]; [reflexivity |].
  simpl List.map. cbn [flat_map]. rewrite <- IH, <- encode_segment.
  rewrite <- !app_assoc. reflexivity.
Qed.

(** The encoder writes the segment list in the layout of [segments_text]. *)
Lemma dumps_segments fr segments :
  Json.dumps fr 2 (segments_value segments) = segments_text fr segments.
Proof.
  destruct segments as [| seg rest]; [reflexivity |].
  unfold Json.dumps, segments_value, segments_text.
  rewrite <- encode_items, <- encode_segment. reflexivity.
Qed.

(** ** The structured format: reading strings back *)







(** ** The structured format: reading numbers back *)












(** ** The structured format: reading a segment back *)







(** ** The structured format: reading a segment list back *)









(** Writing the structured format always succeeds, and leaves the text of
    the segment list. *)
Lemma write_json_spec fr segments :
  write_json fr segments = (segments_text fr segments, Ok tt).
Proof.
  unfold write_json, with_open_w, write. rewrite dumps_segments. reflexivity.
Qed.




(** The text written for the example transcript: the accented letter is
    written as it is, the empty text as an empty string. *)
Lemma write_json_example :
  write_json example_float_repr example_transcript
  = (lit "[" ++ nl
       ++ lit "  {" ++ nl
       ++ lit "    " ++ [34%N] ++ lit "start" ++ [34%N] ++ lit ": 0.0," ++ nl
       ++ lit "    " ++ [34%N] ++ lit "end" ++ [34%N] ++ lit ": 1.5," ++ nl
       ++ lit "    " ++ [34%N] ++ lit "text" ++ [34%N] ++ lit ": "
       ++ [34; 104; 233; 108; 108; 111; 34]%N ++ nl
       ++ lit "  }," ++ nl
       ++ lit "  {" ++ nl
       ++ lit "    " ++ [34%N] ++ lit "start" ++ [34%N] ++ lit ": 1.5," ++ nl
       ++ lit "    " ++ [34%N] ++ lit "end" ++ [34%N] ++ lit ": 2.0," ++ nl
       ++ lit "    " ++ [34%N] ++ lit "text" ++ [34%N] ++ lit ": "
       ++ [34; 34]%N ++ nl
       ++ lit "  }" ++ nl
       ++ lit "]",
     Ok tt).
Proof. vm_compute. reflexivity. Qed.

(** ** The driver *)

(** Every writer completes on segments with formattable times. *)
Lemma writers_complete e f segments :
  Forall timed segments ->
  match f with
  | txt => write_txt segments
  | json => write_json (float_repr e) segments
  | srt => write_srt segments
  | vtt => write_vtt segments
  end = (serialized e f segments, Ok tt).
Proof.
  intros Htimed. unfold serialized. destruct f.
  - now rewrite write_txt_spec.
  - now rewrite (write_srt_spec segments Htimed).
  - now rewrite (write_vtt_spec segments Htimed).
  - reflexivity.
Qed.

Lemma write_and_report_ok e a out_path segments w :
  Forall timed segments ->
  write_and_report e a out_path segments w
  = (print (lit "Wrote " ++ out_path)
           (store out_path (serialized e (fmt a) segments) w),
     Return 0).
Proof.
  intros Htimed. unfold write_and_report.
  now rewrite (writers_complete e (fmt a) segments Htimed).
Qed.

(** The driver past its two checks. *)
Lemma main_ready e a w :
  ready e a ->
  main e a w
  = let w1 := call faster_whisper w in
    match transcribe_with_faster_whisper e (input a) (model a) (language a) with
    | inr segments => write_and_report e a (destination e a) segments w1
    | inl err =>
        if not_installed err then
          let w2 := call openai_whisper w1 in
          match transcribe_with_openai_whisper e (input a) (model a)
                                               (language a) with
          | inr segments => write_and_report e a (destination e a) segments w2
          | inl err2 => (eprint (install_hint ++ err2) w2, Return 1)
          end
        else (eprint (lit "Transcription failed: " ++ err) w1, Return 1)
    end.
Proof.
  intros [Hin Hff]. unfold main. rewrite Hin. simpl negb. cbv iota.
  destruct (which e (lit "ffmpeg")); [reflexivity | congruence].
Qed.

(** An environment for the examples: the input exists, [ffmpeg] is found,
    and the two backends answer as given. *)
Definition example_env (primary secondary : str + list segment) : env :=
  {| path_exists := fun _ => true;
     which := fun _ => Some (lit "/usr/bin/ffmpeg");
     os_path := OsPath.posixpath;
     float_repr := fun _ => lit "0.0";
     transcribe_with_faster_whisper := fun _ _ _ => primary;
     transcribe_with_openai_whisper := fun _ _ _ => secondary |}.

Definition example_args (f : format) (o : option str) : args :=
  {| input := lit "talk.mp4"; model := lit "small"; language := None;
     fmt := f; output := o |}.

(** C2. The exit code of the driver. It is 2 when the input path does not
    exist, and 2 when it exists and [ffmpeg] is not found. Past these checks
    it is 1 when the primary backend fails for a reason other than not being
    installed, and 1 when the primary is not installed and the secondary
    fails. When a backend returns segments (with times the formatters accept)
    it is 0, the text of the requested format is stored at the destination,
    and the destination is reported on the standard output. *)
Theorem main_exit_code :
  forall e a w,
    (path_exists e (input a) = false -> snd (main e a w) = Return 2)
    /\ (path_exists e (input a) = true -> which e (lit "ffmpeg") = None ->
        snd (main e a w) = Return 2)
    /\ (ready e a ->
        let primary :=
          transcribe_with_faster_whisper e (input a) (model a) (language a) in
        let secondary :=
          transcribe_with_openai_whisper e (input a) (model a) (language a) in
        (forall err,
            primary = inl err -> not_installed err = false ->
            snd (main e a w) = Return 1)
        /\ (forall err err2,
               primary = inl err -> not_installed err = true ->
               secondary = inl err2 ->
               snd (main e a w) = Return 1)
        /\ (forall segments,
               primary = inr segments
               \/ (exists err, primary = inl err /\ not_installed err = true
                               /\ secondary = inr segments) ->
               Forall timed segments ->
               snd (main e a w) = Return 0
               /\ stdout (fst (main e a w))
                  = stdout w ++ lit "Wrote " ++ destination e a ++ nl
               /\ files (fst (main e a w))
                  = (destination e a, serialized e (fmt a) segments)
                      :: files w)).
Proof.
  intros e a w. split; [| split].
  - intros Hin. unfold main. now rewrite Hin.
  - intros Hin Hff. unfold main. now rewrite Hin, Hff.
  - intros Hready. cbv zeta. rewrite (main_ready e a w Hready). cbv zeta.
    split; [| split].
    + intros err -> ->. reflexivity.
    + intros err err2 -> -> ->. reflexivity.
    + intros segments [-> | [err (-> & -> & ->)]] Htimed;
        rewrite (write_and_report_ok _ _ _ _ _ Htimed); simpl; auto.
Qed.

(** C3. The backend selector, past the driver's two checks and from a state
    in which no backend has been called. The secondary backend is called if
    and only if the primary fails with a message that says it is not
    installed. Any other failure of the primary ends the run at once: only
    the primary has been called, the exit code is 1 and the failure is
    reported. When the secondary fails too, both have been called, the exit
    code is 1 and the report carries the secondary's failure. *)
Theorem backend_fallback :
  forall e a,
    ready e a ->
    let primary :=
      transcribe_with_faster_whisper e (input a) (model a) (language a) in
    let secondary :=
      transcribe_with_openai_whisper e (input a) (model a) (language a) in
    let run := main e a initial_world in
    (In openai_whisper (called (fst run))
     <-> exists err, primary = inl err /\ not_installed err = true)
    /\ (forall err,
           primary = inl err -> not_installed err = false ->
           run = ({| stdout := [];
                     stderr := lit "Transcription failed: " ++ err ++ nl;
                     files := [];
                     called := [faster_whisper] |}, Return 1))
    /\ (forall err err2,
           primary = inl err -> not_installed err = true ->
           secondary = inl err2 ->
           run = ({| stdout := [];
                     stderr := install_hint ++ err2 ++ nl;
                     files := [];
                     called := [openai_whisper; faster_whisper] |}, Return 1)).
Proof.
  intros e a Hready. cbv zeta. rewrite (main_ready e a _ Hready). cbv zeta.
  split; [| split].
  - destruct (transcribe_with_faster_whisper e (input a) (model a) (language a))
      as [err | segments].
    + destruct (not_installed err) eqn:Hni.
      * split; [intros _; now exists err |]. intros _.
        destruct (transcribe_with_openai_whisper e (input a) (model a)
                                                 (language a));
          [simpl; auto |].
        unfold write_and_report.
        destruct (match fmt a with txt => _ | _ => _ end) as [content [u | x]];
          simpl; auto.
      * split; [simpl; intros [H | []]; discriminate |].
        intros [err' [Heq Hni']]. congruence.
    + split; [| intros [err' [Heq _]]; discriminate].
      unfold write_and_report.
      destruct (match fmt a with txt => _ | _ => _ end) as [content [u | x]];
        simpl; intros [H | []]; discriminate.
  - intros err -> ->. unfold eprint, call, initial_world. simpl.
    reflexivity.
  - intros err err2 -> -> ->. unfold eprint, call, initial_world.
    cbn [stdout stderr files called app]. now rewrite <- app_assoc.
Qed.

(** ** [os.path.splitext] *)

Module SplitextFacts.

Import OsPath.

Lemma rfind_aux_spec c p :
  forall i last,
    (rfind_aux c i p last = last /\ ~ In c p)
    \/ (exists a b, p = a ++ c :: b /\ ~ In c b
                   /\ rfind_aux c i p last = i + Z.of_nat (List.length a)).
Proof.
  induction p as [| x r IH]; intros i last; simpl.
  - left. split; [reflexivity | tauto].
  - destruct (N.eqb_spec x c) as [-> | Hne].
    + destruct (IH (i + 1) i) as [[Heq Hnin] | (a & b & -> & Hb & Heq)].
      * right. exists [], r. simpl. repeat split; auto. rewrite Heq. lia.
      * right. exists (c :: a), b. simpl. repeat split; auto.
        rewrite Heq. lia.
    + destruct (IH (i + 1) last) as [[Heq Hnin] | (a & b & -> & Hb & Heq)].
      * left. split; [exact Heq | intros [H | H]; auto].
      * right. exists (x :: a), b. simpl. repeat split; auto.
        rewrite Heq. lia.
Qed.

(** [rfind] finds the last occurrence. *)
Lemma rfind_spec c p :
  (rfind c p = -1 /\ ~ In c p)
  \/ (exists a b, p = a ++ c :: b /\ ~ In c b
                 /\ rfind c p = Z.of_nat (List.length a)).
Proof.
  unfold rfind. destruct (rfind_aux_spec c p 0 (-1)) as [H | (a & b & H)].
  - now left.
  - right. exists a, b. now rewrite Z.add_0_l in H.
Qed.

(** Two splits of a list at the last occurrence of [c] agree. *)
Lemma last_split_unique (c : char) a b a' b' :
  a ++ c :: b = a' ++ c :: b' -> ~ In c b -> ~ In c b' -> a = a' /\ b = b'.
Proof.
  intros Heq Hb Hb'.
  apply app_eq_app in Heq as [l [[-> Hl] | [-> Hl]]].
  - destruct l as [| y l]; simpl in Hl.
    + inversion Hl. now rewrite app_nil_r.
    + inversion Hl; subst. exfalso. apply Hb'. apply in_elt.
  - destruct l as [| y l]; simpl in Hl.
    + inversion Hl. now rewrite app_nil_r.
    + inversion Hl; subst. exfalso. apply Hb. apply in_elt.
Qed.

Lemma has_non_dot_spec extsep l :
  has_non_dot extsep l = true <-> exists c, In c l /\ c <> extsep.
Proof.
  induction l as [| x r IH]; simpl.
  - split; [discriminate | intros [c [[] _]]].
  - destruct (N.eqb_spec x extsep) as [-> | Hne]; simpl.
    + rewrite IH. split.
      * intros [c [Hin Hc]]. exists c. auto.
      * intros [c [[<- | Hin] Hc]]; [congruence | eauto].
    + split; [intros _; exists x; auto | reflexivity].
Qed.

Lemma slice_middle (a m b : str) :
  slice (a ++ m ++ b) (Z.of_nat (List.length a))
        (Z.of_nat (List.length a + List.length m)) = m.
Proof.
  unfold slice. rewrite Nat2Z.id.
  replace (Z.to_nat (Z.of_nat (List.length a + List.length m)
                     - Z.of_nat (List.length a)))
    with (List.length m) by lia.
  rewrite skipn_app, skipn_all, Nat.sub_diag. simpl.
  rewrite firstn_app, firstn_all, Nat.sub_diag. simpl.
  now rewrite app_nil_r.
Qed.

Section Generic.

Variable sep : char.
Variable altsep : option char.
Variable isep : char -> bool.

Hypothesis isep_def :
  forall c,
    isep c = ((c =? sep)
              || match altsep with Some a => c =? a | None => false end)%N.

Lemma altsep_cases : altsep = None \/ exists a, altsep = Some a.
Proof. clear. destruct altsep; eauto. Qed.

Lemma isep_sep : isep sep = true.
Proof. rewrite isep_def, N.eqb_refl. reflexivity. Qed.

Lemma isep_alt a : altsep = Some a -> isep a = true.
Proof.
  intros H. rewrite isep_def, H, N.eqb_refl. apply orb_true_r.
Qed.

Lemma not_isep c :
  c <> sep -> (forall a, altsep = Some a -> c <> a) -> isep c = false.
Proof.
  intros Hs Ha. rewrite isep_def.
  destruct (N.eqb_spec c sep); [contradiction |]. simpl.
  destruct altsep_cases as [H | [a H]]; rewrite H; [reflexivity |].
  destruct (N.eqb_spec c a) as [-> |]; [| reflexivity].
  now specialize (Ha a H).
Qed.

(** The index [_splitext] computes for the last separator. *)
Definition sep_index (p : str) : Z :=
  match altsep with
  | Some a => Z.max (rfind sep p) (rfind a p)
  | None => rfind sep p
  end.

Lemma sep_index_spec p :
  (sep_index p = -1 /\ forall c, In c p -> isep c = false)
  \/ (exists a s b,
         p = a ++ s :: b /\ isep s = true
         /\ (forall c, In c b -> isep c = false)
         /\ sep_index p = Z.of_nat (List.length a)).
Proof.
  unfold sep_index.
  destruct (rfind_spec sep p) as [[Hs Hns] | (a1 & b1 & Hp1 & Hb1 & Hs)].
  - destruct altsep_cases as [Halt | [alt Halt]]; rewrite Halt.
    2: destruct (rfind_spec alt p) as [[Ha Hna] | (a2 & b2 & Hp2 & Hb2 & Ha)].
    + left. split; [exact Hs |]. intros c Hc. apply not_isep.
      * intros ->. contradiction.
      * intros a. rewrite Halt. discriminate.
    + left. split; [lia |]. intros c Hc. apply not_isep.
      * intros ->. contradiction.
      * intros a. rewrite Halt. intros [= <-]. intros ->. contradiction.
    + right. exists a2, alt, b2. repeat split; auto.
      * now apply isep_alt.
      * intros c Hc. apply not_isep.
        -- intros ->. apply Hns. rewrite Hp2. apply in_or_app. right.
           now right.
        -- intros a. rewrite Halt. intros [= <-]. intros ->. contradiction.
      * lia.
  - destruct altsep_cases as [Halt | [alt Halt]]; rewrite Halt.
    2: destruct (rfind_spec alt p) as [[Ha Hna] | (a2 & b2 & Hp2 & Hb2 & Ha)].
    + right. exists a1, sep, b1. repeat split; auto.
      * apply isep_sep.
      * intros c Hc. apply not_isep.
        -- intros ->. contradiction.
        -- intros a. rewrite Halt. discriminate.
    + right. exists a1, sep, b1. repeat split; auto.
      * apply isep_sep.
      * intros c Hc. apply not_isep.
        -- intros ->. contradiction.
        -- intros a. rewrite Halt. intros [= <-]. intros ->. apply Hna.
           rewrite Hp1. apply in_or_app. right. now right.
      * lia.
    + pose proof Hp1 as Heq. rewrite Hp2 in Heq.
      apply app_eq_app in Heq as [l [[-> Hl] | [-> Hl]]].
      * (* the last [sep] is not after the last [alt] *)
        right. exists (a1 ++ l), alt, b2. repeat split; auto.
        -- now apply isep_alt.
        -- intros c Hc. apply not_isep.
           ++ intros ->. destruct l as [| y l]; simpl in Hl.
              { inversion Hl; subst. contradiction. }
              { inversion Hl; subst. apply Hb1. apply in_or_app.
                right. now right. }
           ++ intros a. rewrite Halt. intros [= <-]. intros ->.
              contradiction.
        -- rewrite Hs, Ha, length_app. lia.
      * right. exists (a2 ++ l), sep, b1. repeat split; auto.
        -- apply isep_sep.
        -- intros c Hc. apply not_isep.
           ++ intros ->. contradiction.
           ++ intros a. rewrite Halt. intros [= <-]. intros ->.
              destruct l as [| y l]; simpl in Hl.
              { inversion Hl; subst. contradiction. }
              { inversion Hl; subst. apply Hb2. apply in_or_app.
                right. now right. }
        -- rewrite Hs, Ha, length_app. lia.
Qed.

Lemma gtb_true a b : b < a -> (a >? b) = true.
Proof. intros H. rewrite Z.gtb_ltb. now apply Z.ltb_lt. Qed.

Lemma gtb_false a b : a <= b -> (a >? b) = false.
Proof. intros H. rewrite Z.gtb_ltb. now apply Z.ltb_ge. Qed.

Lemma firstn_exact (a b : str) : firstn (List.length a) (a ++ b) = a.
Proof.
  rewrite firstn_app, firstn_all, Nat.sub_diag. simpl. apply app_nil_r.
Qed.

Lemma skipn_exact (a b : str) : skipn (List.length a) (a ++ b) = b.
Proof.
  rewrite skipn_app, skipn_all, Nat.sub_diag. reflexivity.
Qed.

Lemma all_dots stem :
  has_non_dot 46%N stem = false -> forall c, In c stem -> c = 46%N.
Proof.
  intros H c Hc. destruct (N.eq_dec c 46%N) as [| Hne]; [assumption |].
  assert (has_non_dot 46%N stem = true) by (apply has_non_dot_spec; eauto).
  congruence.
Qed.

(** What [_splitext] returns once the name after the last separator is
    known. *)
Lemma split_name dir name :
  (forall c, In c name -> isep c = false) ->
  sep_index (dir ++ name) = Z.of_nat (List.length dir) - 1 ->
  let '(base, ext) := _splitext (dir ++ name) sep altsep 46%N in
  (exists stem e,
      name = stem ++ 46%N :: e /\ ~ In 46%N e
      /\ (exists c, In c stem /\ c <> 46%N)
      /\ base = dir ++ stem /\ ext = 46%N :: e)
  \/ ((forall stem e,
          name = stem ++ 46%N :: e -> ~ In 46%N e ->
          forall c, In c stem -> c = 46%N)
      /\ base = dir ++ name /\ ext = []).
Proof.
  intros Hname Hidx. unfold _splitext. fold (sep_index (dir ++ name)).
  rewrite Hidx.
  destruct (rfind_spec 46%N (dir ++ name))
    as [[Hdot Hnodot] | (a' & e & Hp & He & Hdot)]; rewrite Hdot.
  - (* no dot at all *)
    rewrite gtb_false by lia.
    right. repeat split; auto.
    intros stem e' -> _. exfalso. apply Hnodot.
    apply in_or_app. right. apply in_elt.
  - apply app_eq_app in Hp as [l [[-> Hl] | [-> Hl]]].
    + (* the last dot lies before the name, or starts it *)
      destruct l as [| y l]; simpl in Hl.
      * subst name. rewrite app_nil_r.
        rewrite gtb_true by lia.
        replace (Z.of_nat (List.length a') - 1 + 1)
          with (Z.of_nat (List.length a')) by lia.
        pose proof (slice_middle a' [] (46%N :: e)) as Hsl.
        rewrite Nat.add_0_r in Hsl. simpl app in Hsl.
        match goal with
        | |- context [has_non_dot _ ?t] =>
            replace t with (@nil char) by (symmetry; exact Hsl)
        end.
        simpl. right. repeat split; auto.
        intros stem e' Heq He' c Hc.
        apply (last_split_unique 46%N [] e stem e') in Heq as [<- _]; auto.
        destruct Hc.
      * inversion Hl; subst y e. clear Hl.
        rewrite gtb_false by (rewrite length_app; simpl List.length; lia).
        simpl. right. repeat split; auto.
        intros stem e' -> _. exfalso. apply He.
        apply in_or_app. right. apply in_or_app. right. now left.
    + (* the last dot lies in the name *)
      subst name.
      rewrite gtb_true by (rewrite length_app; lia).
      replace (Z.of_nat (List.length dir) - 1 + 1)
        with (Z.of_nat (List.length dir)) by lia.
      rewrite length_app, slice_middle. simpl andb.
      destruct (has_non_dot 46%N l) eqn:Hnd.
      * left. exists l, e. repeat split; auto.
        -- now apply has_non_dot_spec.
        -- rewrite Nat2Z.id, <- length_app, app_assoc. apply firstn_exact.
        -- rewrite Nat2Z.id, <- length_app, app_assoc. apply skipn_exact.
      * right. repeat split; auto.
        intros stem e' Heq He' c Hc.
        apply last_split_unique in Heq as [-> ->]; auto.
        eapply all_dots; eassumption.
Qed.

Lemma splitext_generic p :
  let '(base, ext) := _splitext p sep altsep 46%N in
  exists dir name,
    p = dir ++ name
    /\ (forall c, In c name -> isep c = false)
    /\ (dir = [] \/ exists d c, dir = d ++ [c] /\ isep c = true)
    /\ ((exists stem e,
            name = stem ++ 46%N :: e /\ ~ In 46%N e
            /\ (exists c, In c stem /\ c <> 46%N)
            /\ base = dir ++ stem /\ ext = 46%N :: e)
        \/ ((forall stem e,
                name = stem ++ 46%N :: e -> ~ In 46%N e ->
                forall c, In c stem -> c = 46%N)
            /\ base = p /\ ext = [])).
Proof.
  destruct (sep_index_spec p)
    as [[Hi Hnosep] | (a & s & b & Hp & Hs & Hb & Hi)].
  - pose proof (split_name [] p Hnosep) as H. simpl in H.
    specialize (H Hi). destruct (_splitext p sep altsep 46%N) as [base ext].
    exists [], p. repeat split; auto.
  - assert (Hp' : p = (a ++ [s]) ++ b) by (now rewrite <- app_assoc).
    pose proof (split_name (a ++ [s]) b Hb) as H. rewrite <- Hp' in H.
    rewrite length_app in H. simpl List.length in H.
    specialize (H ltac:(lia)).
    destruct (_splitext p sep altsep 46%N) as [base ext].
    exists (a ++ [s]), b.
    split; [exact Hp' |]. split; [exact Hb |].
    split; [right; now exists a, s |].
    destruct H as [H | (H1 & H2 & H3)]; [now left | right].
    repeat split; auto.
Qed.

End Generic.

(** [os.path.splitext] meets its description for both flavours. *)
Lemma splitext_splits os p :
  splits os p (fst (splitext os p)) (snd (splitext os p)).
Proof.
  unfold splits, splitext. destruct os.
  - assert (Hdef : forall c, is_sep posixpath c = ((c =? 47) || false)%N)
      by (intros c; simpl; now rewrite orb_false_r).
    pose proof (splitext_generic 47%N None (is_sep posixpath) Hdef p)
      as H.
    destruct (_splitext p 47%N None 46%N) as [base ext]. exact H.
  - assert (Hdef : forall c,
               is_sep ntpath c = ((c =? 92) || (c =? 47))%N)
      by reflexivity.
    pose proof (splitext_generic 92%N (Some 47%N) (is_sep ntpath) Hdef p)
      as H.
    destruct (_splitext p 92%N (Some 47%N) 46%N) as [base ext]. exact H.
Qed.

End SplitextFacts.

(** ** The destination *)

(** A run that returns 0 has stored one file, at the destination, and has
    reported the destination. *)
Lemma main_returns_0 e a w w' :
  main e a w = (w', Return 0) ->
  exists content,
    files w' = (destination e a, content) :: files w
    /\ stdout w' = stdout w ++ lit "Wrote " ++ destination e a ++ nl.
Proof.
  assert (Hwr : forall segments w0,
             files w0 = files w -> stdout w0 = stdout w ->
             write_and_report e a (destination e a) segments w0
             = (w', Return 0) ->
             exists content,
               files w' = (destination e a, content) :: files w
               /\ stdout w' = stdout w ++ lit "Wrote " ++ destination e a ++ nl).
  { intros segments w0 Hf Hs. unfold write_and_report.
    destruct (match fmt a with txt => _ | _ => _ end) as [content [u | x]];
      [| discriminate].
    intros [= <-]. exists content. simpl. now rewrite Hf, Hs. }
  unfold main. destruct (path_exists e (input a)); [| discriminate].
  simpl negb. cbv iota.
  destruct (which e (lit "ffmpeg")); [| discriminate].
  fold (destination e a).
  destruct (transcribe_with_faster_whisper e (input a) (model a) (language a))
    as [err | segments].
  - destruct (contains (lit "No module named") err); [| discriminate].
    destruct (transcribe_with_openai_whisper e (input a) (model a) (language a))
      as [err2 | segments]; [discriminate |].
    now apply Hwr.
  - now apply Hwr.
Qed.

(** C9, as the code has it. A run that returns 0 has stored the text at one
    destination and reported it. The destination is the [--output] path when
    one is given and is not the empty string. When [--output] is omitted or
    empty it is the root of the input path, as [os.path.splitext] splits it,
    followed by a dot and the name of the format. *)
Theorem output_destination :
  forall e a w w',
    main e a w = (w', Return 0) ->
    exists dest content,
      files w' = (dest, content) :: files w
      /\ stdout w' = stdout w ++ lit "Wrote " ++ dest ++ nl
      /\ (forall o, output a = Some o -> o <> [] -> dest = o)
      /\ (output a = None \/ output a = Some [] ->
          exists base ext,
            splits (os_path e) (input a) base ext
            /\ dest = base ++ lit "." ++ format_str (fmt a)).
Proof.
  intros e a w w' Hrun.
  destruct (main_returns_0 e a w w' Hrun) as [content [Hfiles Hout]].
  exists (destination e a), content. repeat split; auto.
  - intros o Ho Hne. unfold destination. rewrite Ho.
    destruct o; [contradiction | reflexivity].
  - intros Ho.
    exists (fst (OsPath.splitext (os_path e) (input a))),
           (snd (OsPath.splitext (os_path e) (input a))).
    split; [apply SplitextFacts.splitext_splits |].
    unfold destination, derive_output_path.
    destruct (OsPath.splitext (os_path e) (input a)) as [base ext].
    destruct Ho as [-> | ->]; reflexivity.
Qed.

Lemma output_destination_witness :
  exists dest content,
    files (fst (main (example_env (inr (example_segments zero zero zero zero))
                                  (inl []))
                     (example_args srt None) initial_world))
    = (dest, content) :: files initial_world
    /\ stdout (fst (main (example_env
                            (inr (example_segments zero zero zero zero))
                            (inl []))
                         (example_args srt None) initial_world))
       = stdout initial_world ++ lit "Wrote " ++ dest ++ nl
    /\ (forall o,
           output (example_args srt None) = Some o -> o <> [] -> dest = o)
    /\ (output (example_args srt None) = None
        \/ output (example_args srt None) = Some [] ->
        exists base ext,
          splits OsPath.posixpath (lit "talk.mp4") base ext
          /\ dest = base ++ lit "." ++ lit "srt").
Proof.
  apply (output_destination
           (example_env (inr (example_segments zero zero zero zero)) (inl []))
           (example_args srt None) initial_world).
  vm_compute. reflexivity.
Defined.

(** C9, as the specification words it, fails when [--output] is given as the
    empty string: the text is stored at the derived path [talk.txt], not at
    the path given. *)
Lemma output_given_empty :
  main (example_env (inr (example_segments zero zero zero zero)) (inl []))
       (example_args txt (Some [])) initial_world
  = ({| stdout := lit "Wrote talk.txt" ++ nl;
        stderr := [];
        files := [(lit "talk.txt", lit "hello" ++ nl ++ lit "world" ++ nl)];
        called := [faster_whisper] |}, Return 0).
Proof.
  vm_compute. reflexivity.
Qed.


Lemma backend_fallback_witness :
  main (example_env (inl (lit "No module named 'faster_whisper'"))
                    (inl (lit "No module named 'whisper'")))
       (example_args txt None) initial_world
  = ({| stdout := [];
        stderr := install_hint ++ lit "No module named 'whisper'" ++ nl;
        files := [];
        called := [openai_whisper; faster_whisper] |}, Return 1).
Proof.
  pose proof (backend_fallback
                (example_env (inl (lit "No module named 'faster_whisper'"))
                             (inl (lit "No module named 'whisper'")))
                (example_args txt None)) as H.
  cbv zeta in H.
  assert (Hready : ready (example_env
                            (inl (lit "No module named 'faster_whisper'"))
                            (inl (lit "No module named 'whisper'")))
                         (example_args txt None))
    by (split; [reflexivity | discriminate]).
  destruct (H Hready) as (_ & _ & H3).
  apply (H3 (lit "No module named 'faster_whisper'")
            (lit "No module named 'whisper'")); reflexivity.
Defined.

(** ** Binary floating point: digits and shifts *)

Lemma digits2_pos_log2 p : Zpos (digits2_pos p) = Z.log2 (Zpos p) + 1.
Proof.
  induction p as [p IH | p IH |]; simpl digits2_pos.
  - rewrite Pos2Z.inj_succ, IH. simpl Z.log2.
    destruct p; simpl; lia.
  - rewrite Pos2Z.inj_succ, IH. simpl Z.log2.
    destruct p; simpl; lia.
  - reflexivity.
Qed.

Lemma Zdigits2_bounds m :
  0 < m -> 2 ^ (Zdigits2 m - 1) <= m < 2 ^ Zdigits2 m.
Proof.
  intros H. destruct m as [| p | p]; try lia.
  unfold Zdigits2. rewrite digits2_pos_log2.
  replace (Z.log2 (Z.pos p) + 1 - 1) with (Z.log2 (Z.pos p)) by lia.
  pose proof (Z.log2_spec (Z.pos p) H). unfold Z.succ in *. lia.
Qed.

Lemma Zdigits2_unique m d :
  2 ^ (d - 1) <= m < 2 ^ d -> 0 < m -> Zdigits2 m = d.
Proof.
  intros Hb Hm. destruct m as [| p | p]; try lia.
  unfold Zdigits2. rewrite digits2_pos_log2.
  assert (0 < d).
  { destruct (Z.ltb_spec 0 d); [assumption |].
    exfalso. rewrite Z.pow_neg_r in Hb by lia.
    destruct (Z.eqb_spec d 0); [subst; simpl in *; lia |].
    rewrite (Z.pow_neg_r 2 d) in Hb by lia. lia. }
  assert (Z.log2 (Z.pos p) = d - 1); [| lia].
  apply Z.log2_unique; [lia |]. unfold Z.succ.
  replace (d - 1 + 1) with d by lia. lia.
Qed.

Lemma Zdigits2_pos m : 0 < m -> 0 < Zdigits2 m.
Proof. destruct m; simpl; lia. Qed.

Lemma iter_pos_nat {A : Type} (f : A -> A) p x :
  iter_pos f p x = Nat.iter (Pos.to_nat p) f x.
Proof.
  revert x. induction p as [p IH | p IH |]; intros x; simpl iter_pos.
  - rewrite !IH, Pos2Nat.inj_xI, <- Nat.iter_add, <- Nat.iter_succ_r.
    f_equal. lia.
  - rewrite !IH, Pos2Nat.inj_xO, <- Nat.iter_add. f_equal. lia.
  - reflexivity.
Qed.

Lemma shr_1_m mrs : 0 <= shr_m mrs -> shr_m (shr_1 mrs) = shr_m mrs / 2.
Proof.
  destruct mrs as [m r s]. simpl. intros H.
  destruct m as [| p | p]; try lia; [reflexivity |].
  destruct p as [p | p |]; simpl shr_m.
  - rewrite Pos2Z.inj_xI. apply Z.div_unique with 1; lia.
  - rewrite Pos2Z.inj_xO. apply Z.div_unique with 0; lia.
  - reflexivity.
Qed.

Lemma shr_1_r mrs : 0 <= shr_m mrs -> shr_r (shr_1 mrs) = Z.odd (shr_m mrs).
Proof.
  destruct mrs as [m r s]. simpl. intros H.
  destruct m as [| p | p]; try lia; [reflexivity |].
  destruct p; reflexivity.
Qed.

(** [n] single shifts divide the mantissa by [2^n]. *)
Lemma shr_iter_m n mrs :
  0 <= shr_m mrs ->
  shr_m (Nat.iter n shr_1 mrs) = shr_m mrs / 2 ^ Z.of_nat n.
Proof.
  intros H. induction n as [| n IH].
  - simpl. now rewrite Z.div_1_r.
  - rewrite Nat.iter_succ, shr_1_m, IH.
    + rewrite Nat2Z.inj_succ, Z.pow_succ_r by lia.
      rewrite Z.div_div by lia. f_equal. lia.
    + rewrite IH. apply Z.div_pos; lia.
Qed.

(** After at least one shift the round bit is the last bit shifted out. *)
Lemma shr_iter_r n mrs :
  0 <= shr_m mrs ->
  shr_r (Nat.iter (S n) shr_1 mrs) = Z.odd (shr_m mrs / 2 ^ Z.of_nat n).
Proof.
  intros H. rewrite Nat.iter_succ, shr_1_r.
  - now rewrite shr_iter_m.
  - rewrite shr_iter_m by assumption. apply Z.div_pos; lia.
Qed.

(** [shr] on a positive shift count. *)
Lemma shr_pos mrs e n :
  0 < n -> 0 <= shr_m mrs ->
  exists mrs',
    shr mrs e n = (mrs', e + n)
    /\ shr_m mrs' = shr_m mrs / 2 ^ n
    /\ shr_r mrs' = Z.odd (shr_m mrs / 2 ^ (n - 1)).
Proof.
  intros Hn Hm. destruct n as [| p | p]; try lia.
  unfold shr. rewrite iter_pos_nat.
  exists (Nat.iter (Pos.to_nat p) shr_1 mrs). split; [reflexivity |].
  split.
  - rewrite shr_iter_m by assumption. now rewrite positive_nat_Z.
  - destruct (Pos2Nat.is_succ p) as [k Hk]. rewrite Hk.
    rewrite shr_iter_r by assumption. do 3 f_equal. lia.
Qed.

Lemma shr_nonpos mrs e n : n <= 0 -> shr mrs e n = (mrs, e).
Proof. destruct n; try lia; reflexivity. Qed.

Lemma fexp_eq z : fexp prec emax z = Z.max (z - 53) (-1074).
Proof. reflexivity. Qed.

Lemma shr_m_of_loc m l : shr_m (shr_record_of_loc m l) = m.
Proof. destruct l as [| []]; reflexivity. Qed.

(** One shift to the exponent [fexp] asks for: the mantissa is kept when the
    exponent is already large enough, and divided otherwise. *)
Lemma shr_fexp_spec m e l :
  0 <= m ->
  let e1 := fexp prec emax (Zdigits2 m + e) in
  exists mrs,
    (e1 <= e /\ shr_fexp prec emax m e l = (mrs, e)
     /\ mrs = shr_record_of_loc m l)
    \/ (e < e1 /\ shr_fexp prec emax m e l = (mrs, e1)
        /\ shr_m mrs = m / 2 ^ (e1 - e)
        /\ shr_r mrs = Z.odd (m / 2 ^ (e1 - e - 1))).
Proof.
  intros Hm e1. unfold shr_fexp. fold e1.
  destruct (Z.leb_spec e1 e) as [Hle | Hlt].
  - exists (shr_record_of_loc m l). left. split; [assumption |].
    split; [| reflexivity]. apply shr_nonpos. lia.
  - destruct (shr_pos (shr_record_of_loc m l) e (e1 - e)) as (mrs & H1 & H2 & H3);
      [lia | now rewrite shr_m_of_loc |].
    exists mrs. right. rewrite shr_m_of_loc in H2, H3.
    replace (e + (e1 - e)) with e1 in H1 by lia. auto.
Qed.

Lemma round_nearest_even_cases mrs :
  let m' := round_nearest_even (shr_m mrs) (loc_of_shr_record mrs) in
  m' = shr_m mrs \/ (m' = shr_m mrs + 1 /\ shr_r mrs = true).
Proof.
  destruct mrs as [m [|] [|]]; simpl; auto.
  destruct (Z.even m); auto.
Qed.

(** The anatomy of [binary_round_aux]: a shift to the exponent [e1], a
    rounding that keeps the mantissa or adds one, and a second shift. *)
Lemma binary_round_aux_anatomy s mx ex lx :
  0 <= mx ->
  exists m1 e1 m1' m e,
    binary_round_aux prec emax s mx ex lx = pack s m e
    /\ 0 <= m1
    /\ ((fexp prec emax (Zdigits2 mx + ex) <= ex /\ m1 = mx /\ e1 = ex
         /\ (lx = loc_Exact -> m1' = m1))
        \/ (ex < fexp prec emax (Zdigits2 mx + ex)
            /\ m1 = mx / 2 ^ (e1 - ex)
            /\ e1 = fexp prec emax (Zdigits2 mx + ex)
            /\ (lx = loc_Exact -> m1' = m1 + 1 ->
                Z.odd (mx / 2 ^ (e1 - ex - 1)) = true)))
    /\ (m1' = m1 \/ m1' = m1 + 1)
    /\ ((fexp prec emax (Zdigits2 m1' + e1) <= e1 /\ m = m1' /\ e = e1)
        \/ (e1 < fexp prec emax (Zdigits2 m1' + e1)
            /\ m = m1' / 2 ^ (e - e1)
            /\ e = fexp prec emax (Zdigits2 m1' + e1))).
Proof.
  intros Hmx. unfold binary_round_aux.
  destruct (shr_fexp_spec mx ex lx Hmx)
    as [mrs [(Hle & Heq & Hmrs) | (Hlt & Heq & Hm & Hr)]]; rewrite Heq.
  - (* no first shift *)
    set (m1' := round_nearest_even (shr_m mrs) (loc_of_shr_record mrs)).
    assert (Hm1 : shr_m mrs = mx) by (subst mrs; apply shr_m_of_loc).
    assert (Hround : m1' = mx \/ m1' = mx + 1).
    { destruct (round_nearest_even_cases mrs) as [H | [H _]];
        fold m1' in H; rewrite Hm1 in H; auto. }
    assert (Hm1' : 0 <= m1') by lia.
    destruct (shr_fexp_spec m1' ex loc_Exact Hm1')
      as [mrs2 [(Hle2 & Heq2 & Hmrs2) | (Hlt2 & Heq2 & Hm2 & _)]];
      rewrite Heq2.
    + exists mx, ex, m1', m1', ex. subst mrs2. simpl shr_m.
      repeat split; auto.
      left. repeat split; auto. intros ->. subst mrs m1'. reflexivity.
    + exists mx, ex, m1', (shr_m mrs2),
        (fexp prec emax (Zdigits2 m1' + ex)).
      repeat split; auto.
      left. repeat split; auto. intros ->. subst mrs m1'. reflexivity.
  - (* a first shift *)
    set (e1 := fexp prec emax (Zdigits2 mx + ex)) in *.
    set (m1' := round_nearest_even (shr_m mrs) (loc_of_shr_record mrs)).
    assert (Hm1 : 0 <= shr_m mrs) by (rewrite Hm; apply Z.div_pos; lia).
    assert (Hround : m1' = shr_m mrs \/ (m1' = shr_m mrs + 1 /\ shr_r mrs = true))
      by apply round_nearest_even_cases.
    assert (Hm1' : 0 <= m1') by lia.
    destruct (shr_fexp_spec m1' e1 loc_Exact Hm1')
      as [mrs2 [(Hle2 & Heq2 & Hmrs2) | (Hlt2 & Heq2 & Hm2 & _)]];
      rewrite Heq2.
    + exists (shr_m mrs), e1, m1', m1', e1. subst mrs2. simpl shr_m.
      repeat split; auto; [| tauto].
      right. repeat split; auto. intros _ Hup.
      destruct Hround as [H | [_ H]]; [lia | now rewrite <- Hr].
    + exists (shr_m mrs), e1, m1', (shr_m mrs2),
        (fexp prec emax (Zdigits2 m1' + e1)).
      repeat split; auto; [| tauto].
      right. repeat split; auto. intros _ Hup.
      destruct Hround as [H | [_ H]]; [lia | now rewrite <- Hr].
Qed.

Lemma pow2_pos a : 0 < 2 ^ a \/ (a < 0 /\ 2 ^ a = 0).
Proof.
  destruct (Z.ltb_spec a 0).
  - right. split; [assumption |]. now apply Z.pow_neg_r.
  - left. apply Z.pow_pos_nonneg; lia.
Qed.

Lemma pow2_gt0 a : 0 <= a -> 0 < 2 ^ a.
Proof. intros. apply Z.pow_pos_nonneg; lia. Qed.

Lemma pow2_split a b : 0 <= a -> 0 <= b -> 2 ^ (a + b) = 2 ^ a * 2 ^ b.
Proof. intros. now apply Z.pow_add_r. Qed.

Lemma pow2_le a b : a <= b -> 0 <= a -> 2 ^ a <= 2 ^ b.
Proof. intros. apply Z.pow_le_mono_r; lia. Qed.

Lemma pow2_lt_inv a b : 0 <= b -> 2 ^ a < 2 ^ b -> a < b.
Proof. intros Hb H. apply (Z.pow_lt_mono_r_iff 2); lia. Qed.

Lemma Zdigits2_shift r j :
  0 < r -> 0 <= j -> Zdigits2 (r * 2 ^ j) = Zdigits2 r + j.
Proof.
  intros Hr Hj. pose proof (Zdigits2_bounds r Hr) as [Hlo Hhi].
  pose proof (Zdigits2_pos r Hr). pose proof (pow2_gt0 j Hj).
  apply Zdigits2_unique; [| nia].
  replace (Zdigits2 r + j - 1) with ((Zdigits2 r - 1) + j) by lia.
  rewrite !pow2_split by lia. nia.
Qed.

(** A mantissa that already sits at the exponent [fexp] asks for is
    returned as it is. *)
Lemma binary_round_aux_exact s mx ex :
  0 < mx ->
  fexp prec emax (Zdigits2 mx + ex) <= ex ->
  binary_round_aux prec emax s mx ex loc_Exact = pack s mx ex.
Proof.
  intros Hmx Hle.
  destruct (binary_round_aux_anatomy s mx ex loc_Exact) as
    (m1 & e1 & m1' & m & e & Heq & _ & H1 & _ & H2); [lia |].
  rewrite Heq.
  destruct H1 as [(_ & -> & -> & Hex) | (Hlt & _)]; [| lia].
  rewrite (Hex eq_refl) in H2.
  destruct H2 as [(_ & -> & ->) | (Hlt & _)]; [reflexivity | lia].
Qed.

Lemma shl_align_spec mx ex ex' :
  exists mz ez,
    shl_align mx ex ex' = (mz, ez)
    /\ ((ex' < ex /\ ez = ex' /\ Zpos mz = Zpos mx * 2 ^ (ex - ex'))
        \/ (ex <= ex' /\ ez = ex /\ mz = mx)).
Proof.
  unfold shl_align. destruct (ex' - ex) as [| d | d] eqn:Hd.
  - exists mx, ex. split; [reflexivity |]. right. repeat split; lia.
  - exists mx, ex. split; [reflexivity |]. right. repeat split; lia.
  - exists (Pos.iter xO mx d), ex'. split; [reflexivity |]. left.
    repeat split; [lia |].
    change (Pos.iter xO mx d) with (shift_pos d mx).
    rewrite shift_pos_correct, Zpower_pos_nat, Zpower_nat_Z, positive_nat_Z.
    replace (ex - ex') with (Z.pos d) by lia. lia.
Qed.

(** A positive mantissa of at most 53 digits, in the normal range, is
    normalised without rounding: it is shifted left to 53 digits. *)
Lemma binary_normalize_exact r e :
  0 < r ->
  Zdigits2 r <= 53 ->
  -1074 <= Zdigits2 r + e - 53 <= 971 ->
  binary_normalize prec emax r e false
  = pack false (r * 2 ^ (53 - Zdigits2 r)) (Zdigits2 r + e - 53).
Proof.
  intros Hr Hd He. destruct r as [| p | p]; try lia.
  unfold binary_normalize, binary_round.
  change (Z.pos (digits2_pos p)) with (Zdigits2 (Z.pos p)).
  set (d := Zdigits2 (Z.pos p)) in *.
  assert (Hf : fexp prec emax (d + e) = d + e - 53) by (rewrite fexp_eq; lia).
  rewrite Hf.
  destruct (shl_align_spec p e (d + e - 53))
    as (mz & ez & Heq & [(Hlt & -> & Hmz) | (Hle & -> & ->)]); rewrite Heq.
  - replace (e - (d + e - 53)) with (53 - d) in Hmz by lia.
    rewrite binary_round_aux_exact; [now rewrite Hmz | lia |].
    rewrite Hmz, Zdigits2_shift by lia. fold d. rewrite fexp_eq. lia.
  - assert (d = 53) by lia.
    rewrite binary_round_aux_exact; [| lia | fold d; rewrite fexp_eq; lia].
    replace (53 - d) with 0 by lia. rewrite Z.mul_1_r.
    now replace (d + e - 53) with e by lia.
Qed.

Lemma pack_pos s m e :
  0 < m -> e <= 971 -> pack s m e = S754_finite s (Z.to_pos m) e.
Proof.
  intros Hm He. destruct m as [| p | p]; try lia. simpl.
  destruct (Z.leb_spec e 971); [reflexivity | lia].
Qed.

Lemma Zdigits2_range m a b :
  0 <= a -> 2 ^ a <= m < 2 ^ b -> a < Zdigits2 m <= b.
Proof.
  intros Ha [Hlo Hhi]. pose proof (pow2_gt0 a Ha).
  assert (Hm : 0 < m) by lia.
  pose proof (Zdigits2_bounds m Hm) as [Hdlo Hdhi].
  pose proof (Zdigits2_pos m Hm).
  split.
  - apply pow2_lt_inv; lia.
  - assert (Zdigits2 m - 1 < b); [| lia].
    apply pow2_lt_inv; [| lia].
    destruct (Z.ltb_spec b 0); [| assumption].
    rewrite (Z.pow_neg_r 2 b) in Hhi by assumption. lia.
Qed.

(** A mantissa of 53 digits rounds to a mantissa of 53 digits, whatever was
    cut off before: the result is a normal number. *)
Lemma round_53 s q e0 lx :
  2 ^ 52 <= q < 2 ^ 54 ->
  -1000 <= e0 <= 900 ->
  exists m e,
    binary_round_aux prec emax s q e0 lx = S754_finite s m e
    /\ 2 ^ 52 <= Zpos m < 2 ^ 53
    /\ e0 <= e <= e0 + 2.
Proof.
  intros Hq He0.
  destruct (binary_round_aux_anatomy s q e0 lx) as
    (m1 & e1 & m1' & m & e & Heq & Hm1 & H1 & Hround & H2); [lia |].
  assert (Hd : 52 < Zdigits2 q <= 54) by (apply Zdigits2_range; lia).
  rewrite fexp_eq in H1.
  assert (Hm1b : 2 ^ 52 <= m1 < 2 ^ 53 /\ e0 <= e1 <= e0 + 1).
  { destruct H1 as [(Hle & -> & -> & _) | (Hlt & Hm1eq & He1 & _)].
    - assert (Zdigits2 q = 53) by lia.
      pose proof (Zdigits2_bounds q ltac:(lia)) as Hb.
      rewrite H in Hb. simpl Z.sub in Hb. lia.
    - assert (Zdigits2 q = 54) by lia.
      pose proof (Zdigits2_bounds q ltac:(lia)) as Hb.
      rewrite H in Hb. simpl Z.sub in Hb.
      assert (He1' : e1 = e0 + 1) by lia. clear He1 Hlt. subst e1 m1.
      replace (e0 + 1 - e0) with 1 by lia. change (2 ^ 1) with 2.
      split; [| lia]. split.
      + apply Z.div_le_lower_bound; lia.
      + apply Z.div_lt_upper_bound; lia. }
  destruct Hm1b as [Hm1b He1].
  assert (Hm1' : 2 ^ 52 <= m1' <= 2 ^ 53) by lia.
  rewrite fexp_eq in H2.
  assert (Hfin : 2 ^ 52 <= m < 2 ^ 53 /\ e1 <= e <= e1 + 1).
  { destruct (Z.eq_dec m1' (2 ^ 53)) as [Heq53 | Hne].
    - assert (Zdigits2 m1' = 54)
        by (apply Zdigits2_unique; rewrite Heq53; simpl; lia).
      destruct H2 as [(Hle & _) | (Hlt & Hmeq & He)]; [lia |].
      assert (He' : e = e1 + 1) by lia. clear He Hlt. subst e m.
      replace (e1 + 1 - e1) with 1 by lia. rewrite Heq53.
      change (2 ^ 53 / 2 ^ 1) with (2 ^ 52). lia.
    - assert (Zdigits2 m1' = 53) by (apply Zdigits2_unique; simpl; lia).
      destruct H2 as [(Hle & -> & ->) | (Hlt & _)]; lia. }
  destruct Hfin as [Hmb He].
  rewrite Heq, pack_pos by lia.
  exists (Z.to_pos m), e. split; [reflexivity |].
  rewrite Z2Pos.id by lia. lia.
Qed.

(** The quotient of a positive integer below [2^67] by [10^6] is a normal
    number with the exponent between [-72] and [-4]. *)
Lemma int_true_div_normal N :
  1 <= N < 2 ^ 67 ->
  exists m e,
    int_true_div N (10 ^ 6) = S754_finite false m e
    /\ 2 ^ 52 <= Zpos m < 2 ^ 53
    /\ -72 <= e <= -4.
Proof.
  intros HN. destruct N as [| p | p]; try lia.
  change (10 ^ 6) with 1000000.
  unfold int_true_div, raw_of_int, SFdiv, SFdiv_core_binary.
  change (Zdigits2 1000000) with 20.
  set (d1 := Zdigits2 (Z.pos p)).
  assert (Hd1 : 0 < d1 <= 67) by (apply Zdigits2_range; lia).
  rewrite fexp_eq.
  replace (Z.min (Z.max (d1 + 0 - (20 + 0) - 53) (-1074)) (0 - 0))
    with (d1 - 73) by lia.
  replace (0 - 0 - (d1 - 73)) with (73 - d1) by lia.
  destruct (73 - d1) as [| sh | sh] eqn:Hsh; try lia.
  rewrite Z.shiftl_mul_pow2 by lia. rewrite <- Hsh.
  pose proof (Zdigits2_bounds (Z.pos p) ltac:(lia)) as [Hlo Hhi]. fold d1 in Hlo, Hhi.
  assert (Hm' : 2 ^ 72 <= Z.pos p * 2 ^ (73 - d1) < 2 ^ 73).
  { assert (Hp72 : 2 ^ 72 = 2 ^ (d1 - 1) * 2 ^ (73 - d1))
      by (rewrite <- pow2_split by lia; f_equal; lia).
    assert (Hp73 : 2 ^ 73 = 2 ^ d1 * 2 ^ (73 - d1))
      by (rewrite <- pow2_split by lia; f_equal; lia).
    assert (Hpos : 0 < 2 ^ (73 - d1)) by (apply pow2_gt0; lia).
    rewrite Hp72, Hp73. nia. }
  pose proof (Z_div_mod_eq_full (Z.pos p * 2 ^ (73 - d1)) 1000000) as Hdm.
  unfold Z.div, Z.modulo in Hdm.
  destruct (Z.div_eucl (Z.pos p * 2 ^ (73 - d1)) 1000000) as [q r] eqn:Hqr.
  assert (Hq : 2 ^ 52 <= q < 2 ^ 54).
  { assert (q = Z.pos p * 2 ^ (73 - d1) / 1000000)
      by (unfold Z.div; now rewrite Hqr).
    subst q. split.
    - apply Z.div_le_lower_bound; [lia |].
      transitivity (2 ^ 72); [vm_compute; discriminate | lia].
    - apply Z.div_lt_upper_bound; [lia |].
      eapply Z.lt_le_trans; [apply Hm' | vm_compute; discriminate]. }
  simpl xorb.
  destruct (round_53 false q (d1 - 73) (new_location 1000000 r) Hq ltac:(lia))
    as (m & e & Heq & Hm & He).
  exists m, e. split; [exact Heq |]. split; [exact Hm | lia].
Qed.

(** The float left when the whole seconds are taken from a normal,
    non-negative number of seconds: zero, or a fraction below one with a
    mantissa of at most 53 digits. *)
Lemma sub_whole m e :
  2 ^ 52 <= Zpos m < 2 ^ 53 ->
  -72 <= e <= -4 ->
  sub (S754_finite false m e) (of_int (trunc false m e)) = S754_zero false
  \/ exists mf ef,
      sub (S754_finite false m e) (of_int (trunc false m e))
      = S754_finite false mf ef
      /\ Zpos mf < 2 ^ 53 /\ -200 <= ef <= -53.
Proof.
  intros Hm He. unfold trunc, cond_Zopp.
  rewrite Z.shiftl_div_pow2 by lia.
  set (k := - e). assert (Hk : 4 <= k <= 72) by lia.
  pose proof (pow2_gt0 k ltac:(lia)) as Hpk.
  pose proof (Z_div_mod_eq_full (Zpos m) (2 ^ k)) as Hdm.
  pose proof (Z.mod_pos_bound (Zpos m) (2 ^ k) Hpk) as Hr.
  set (W := Zpos m / 2 ^ k) in *. set (r := Zpos m mod 2 ^ k) in *.
  assert (HW : 0 <= W) by (apply Z.div_pos; lia).
  destruct (Z.eq_dec W 0) as [HW0 | HWpos].
  - (* less than one second *)
    right. exists m, e. rewrite HW0. split; [reflexivity |].
    split; [lia |]. split; [lia |].
    assert (52 < k); [| lia].
    apply pow2_lt_inv; [lia |]. nia.
  - (* one second or more *)
    assert (Hk52 : k <= 52).
    { destruct (Z.leb_spec k 52); [assumption |]. exfalso.
      assert (2 ^ 53 <= 2 ^ k) by (apply pow2_le; lia).
      apply HWpos. apply Z.div_small. lia. }
    assert (Hp52 : 2 ^ 52 = 2 ^ (52 - k) * 2 ^ k)
      by (rewrite <- pow2_split by lia; f_equal; lia).
    assert (Hp53 : 2 ^ 53 = 2 ^ (53 - k) * 2 ^ k)
      by (rewrite <- pow2_split by lia; f_equal; lia).
    assert (HWb : 2 ^ (52 - k) <= W < 2 ^ (53 - k)).
    { split.
      - apply Z.div_le_lower_bound; [lia |]. rewrite Z.mul_comm. lia.
      - apply Z.div_lt_upper_bound; [lia |]. rewrite Z.mul_comm. lia. }
    assert (HdW : Zdigits2 W = 53 - k).
    { apply Zdigits2_unique; [| lia].
      now replace (53 - k - 1) with (52 - k) by lia. }
    assert (Hof : of_int W = S754_finite false (Z.to_pos (W * 2 ^ k)) e).
    { unfold of_int.
      rewrite binary_normalize_exact by lia.
      rewrite HdW. replace (53 - (53 - k)) with k by lia.
      replace (53 - k + 0 - 53) with e by lia.
      apply pack_pos; nia. }
    rewrite Hof. unfold sub, SFsub.
    rewrite Z.min_id.
    destruct (shl_align_spec m e e)
      as (mz & ez & Heq & [(Hlt & _) | (_ & -> & ->)]); [lia |].
    rewrite Heq. simpl fst.
    destruct (shl_align_spec (Z.to_pos (W * 2 ^ k)) e e)
      as (mz & ez & Heq2 & [(Hlt & _) | (_ & -> & ->)]); [lia |].
    rewrite Heq2. simpl fst. unfold cond_Zopp.
    rewrite Z2Pos.id by nia.
    replace (Z.pos m - W * 2 ^ k) with r by lia.
    destruct (Z.eq_dec r 0) as [-> | Hrne]; [now left |].
    right.
    assert (Hdr : 0 < Zdigits2 r <= k) by (apply Zdigits2_range; lia).
    rewrite binary_normalize_exact by lia.
    rewrite pack_pos; [| | lia].
    + exists (Z.to_pos (r * 2 ^ (53 - Zdigits2 r))), (Zdigits2 r + e - 53).
      split; [reflexivity |].
      pose proof (pow2_gt0 (53 - Zdigits2 r) ltac:(lia)).
      rewrite Z2Pos.id by nia. split; [| lia].
      pose proof (Zdigits2_bounds r ltac:(lia)) as [_ Hhi].
      assert (Hp : 2 ^ 53 = 2 ^ Zdigits2 r * 2 ^ (53 - Zdigits2 r))
        by (rewrite <- pow2_split by lia; f_equal; lia).
      rewrite Hp. nia.
    + pose proof (pow2_gt0 (53 - Zdigits2 r) ltac:(lia)). nia.
Qed.

Lemma of_int_1000 : of_int 1000 = S754_finite false 8796093022208000 (-43).
Proof. reflexivity. Qed.

(** A non-negative fraction below one, times 1000, truncates to an integer
    from 0 to 999: the rounding of the product cannot reach 1000. *)
Lemma mul_1000_bound mf ef :
  Zpos mf < 2 ^ 53 ->
  -200 <= ef <= -53 ->
  exists ms,
    to_int (mul (S754_finite false mf ef) (of_int 1000)) = Ok ms
    /\ 0 <= ms <= 999.
Proof.
  intros Hmf Hef. rewrite of_int_1000. unfold mul, SFmul.
  simpl xorb. rewrite Pos2Z.inj_mul.
  set (C := 8796093022208000). set (P := Z.pos mf * C).
  set (E := ef + -43).
  set (X := 2 ^ (- ef)).
  assert (HX : 2 ^ 53 <= X) by (apply pow2_le; lia).
  assert (HX2 : X = 2 ^ 53 \/ 2 ^ 54 <= X).
  { destruct (Z.eq_dec ef (-53)) as [-> | Hne]; [now left | right].
    apply pow2_le; lia. }
  assert (HXE : 1000 * 2 ^ (- E) = C * X).
  { unfold E, X. replace (- (ef + -43)) with (43 + - ef) by lia.
    rewrite pow2_split by lia. unfold C. change (2 ^ 43) with 8796093022208.
    lia. }
  assert (HP : 0 < P) by (unfold P, C; lia).
  (* the rounded product stays below 1000 *)
  assert (K : exists m e,
             binary_round_aux prec emax false P E loc_Exact = pack false m e
             /\ 0 <= m /\ E <= e
             /\ m * 2 ^ (e - E) < 1000 * 2 ^ (- E)).
  { destruct (binary_round_aux_anatomy false P E loc_Exact) as
      (m1 & e1 & m1' & m & e & Heq & Hm1 & H1 & Hround & H2); [lia |].
    exists m, e. split; [exact Heq |].
    assert (Hstep : 0 <= m1' /\ E <= e1
                    /\ m1' * 2 ^ (e1 - E) < 1000 * 2 ^ (- E)).
    { rewrite HXE.
      destruct H1 as [(Hle & -> & -> & Hex) | (Hlt & Hm1eq & He1 & Hodd)].
      - rewrite (Hex eq_refl). replace (E - E) with 0 by lia.
        split; [lia |]. split; [lia |]. unfold P. simpl Z.pow. nia.
      - (* the first shift is by at most [- ef] digits *)
        assert (HdP : Zdigits2 P + E <= 10).
        { assert (Zdigits2 P <= 10 - E); [| lia].
          apply (Zdigits2_range P 0 (10 - E)); [lia |].
          split; [simpl; lia |].
          replace (10 - E) with (53 + - ef) by (unfold E; lia).
          rewrite pow2_split by lia. fold X. unfold P, C. nia. }
        rewrite fexp_eq in He1, Hlt. rewrite <- He1 in Hlt.
        set (n := e1 - E) in *.
        assert (Hn : 0 < n <= - ef) by (unfold n, E in *; lia).
        pose proof (pow2_gt0 n ltac:(lia)) as Hpn.
        assert (Hpn' : 2 ^ n <= X) by (apply pow2_le; lia).
        pose proof (Z_div_mod_eq_full P (2 ^ n)) as Hdm.
        pose proof (Z.mod_pos_bound P (2 ^ n) Hpn) as Hr.
        rewrite <- Hm1eq in Hdm.
        assert (Hup : m1' = m1 + 1 -> 2 ^ n <= 2 * (P mod 2 ^ n)).
        { intros Hplus. specialize (Hodd eq_refl Hplus).
          (* the bit below the cut is set *)
          assert (Hn1 : 2 ^ n = 2 * 2 ^ (n - 1)).
          { replace n with (1 + (n - 1)) at 1 by lia.
            rewrite pow2_split by lia. reflexivity. }
          pose proof (pow2_gt0 (n - 1) ltac:(lia)) as Hpn1.
          pose proof (Z_div_mod_eq_full P (2 ^ (n - 1))) as Hdm1.
          pose proof (Z.mod_pos_bound P (2 ^ (n - 1)) Hpn1) as Hr1.
          set (h := P / 2 ^ (n - 1)) in *.
          apply Z.odd_spec in Hodd. destruct Hodd as [j Hj].
          assert (Hq : m1 = j).
          { rewrite Hm1eq. fold n. rewrite Hn1, Z.mul_comm.
            rewrite <- Z.div_div by lia. fold h. rewrite Hj.
            symmetry. apply Z.div_unique with 1; lia. }
          nia. }
        split; [lia |]. split; [lia |].
        unfold P in *. destruct HX2 as [HX53 | HX54]; nia. }
    destruct Hstep as (Hm1' & He1 & Hlt).
    destruct H2 as [(_ & -> & ->) | (Hlt2 & Hmeq & He)]; [auto |].
    assert (He' : e1 < e) by lia.
    pose proof (pow2_gt0 (e - e1) ltac:(lia)) as Hp2.
    pose proof (pow2_gt0 (e1 - E) ltac:(lia)) as Hp1.
    pose proof (Z_div_mod_eq_full m1' (2 ^ (e - e1))) as Hdm.
    pose proof (Z.mod_pos_bound m1' (2 ^ (e - e1)) Hp2) as Hr.
    rewrite <- Hmeq in Hdm.
    split; [subst m; apply Z.div_pos; lia |]. split; [lia |].
    replace (e - E) with ((e - e1) + (e1 - E)) by lia.
    rewrite pow2_split by lia. nia. }
  destruct K as (m & e & Heq & Hm & He & Hlt). rewrite Heq.
  destruct (Z.eq_dec m 0) as [-> | Hmne]; [exists 0; simpl; split; [reflexivity | lia] |].
  pose proof (pow2_gt0 (e - E) ltac:(lia)) as Hp.
  assert (He10 : e < 10).
  { assert (e - E < 10 - E); [| lia].
    apply pow2_lt_inv; [unfold E; lia |].
    replace (10 - E) with (10 + - E) by lia.
    rewrite pow2_split by (unfold E; lia).
    change (2 ^ 10) with 1024. nia. }
  rewrite pack_pos by lia. simpl to_int. unfold trunc, cond_Zopp.
  rewrite Z2Pos.id by lia.
  exists (Z.shiftl m e). split; [reflexivity |].
  destruct (Z.leb_spec 0 e) as [Hpos | Hneg].
  - rewrite Z.shiftl_mul_pow2 by lia.
    pose proof (pow2_gt0 e Hpos).
    assert (Hsp : 2 ^ (e - E) = 2 ^ e * 2 ^ (- E))
      by (rewrite <- pow2_split by (unfold E; lia); f_equal; lia).
    pose proof (pow2_gt0 (- E) ltac:(unfold E; lia)).
    rewrite Hsp in Hlt. nia.
  - rewrite Z.shiftl_div_pow2 by lia.
    pose proof (pow2_gt0 (- e) ltac:(lia)) as Hpe.
    assert (Hsp : 2 ^ (- E) = 2 ^ (- e) * 2 ^ (e - E))
      by (rewrite <- pow2_split by lia; f_equal; lia).
    rewrite Hsp in Hlt.
    split; [apply Z.div_pos; lia |].
    assert (m / 2 ^ (- e) < 1000); [| lia].
    apply Z.div_lt_upper_bound; [lia |]. nia.
Qed.

(** The milliseconds of a normal, non-negative number of seconds. *)
Lemma millis_bound m e :
  2 ^ 52 <= Zpos m < 2 ^ 53 ->
  -72 <= e <= -4 ->
  exists ms,
    to_int (mul (sub (S754_finite false m e) (of_int (trunc false m e)))
                (of_int 1000)) = Ok ms
    /\ 0 <= ms <= 999.
Proof.
  intros Hm He.
  destruct (sub_whole m e Hm He) as [-> | (mf & ef & -> & Hmf & Hef)].
  - exists 0. split; [reflexivity | lia].
  - now apply mul_1000_bound.
Qed.

(** ** Signs *)

Lemma pack_signless m e : signless (pack false m e).
Proof.
  destruct m; simpl; auto. destruct (e <=? 971); exact I.
Qed.

Lemma binary_round_aux_signless mx ex lx :
  0 <= mx -> signless (binary_round_aux prec emax false mx ex lx).
Proof.
  intros Hmx.
  destruct (binary_round_aux_anatomy false mx ex lx Hmx)
    as (m1 & e1 & m1' & m & e & -> & _).
  apply pack_signless.
Qed.

Lemma frac_signless m e : signless (frac (S754_finite false m e)).
Proof.
  unfold frac. destruct (e <? 0); [| exact I].
  unfold cond_Zopp.
  pose proof (Z.mod_pos_bound (Zpos m) (2 ^ (- e))) as Hr.
  destruct (pow2_pos (- e)) as [Hp | [_ Hp]].
  - specialize (Hr Hp).
    destruct (Z.pos m mod 2 ^ (- e)) as [| r | r]; try lia; [exact I |].
    unfold binary_normalize, binary_round.
    destruct (shl_align r e _) as [mz ez].
    apply binary_round_aux_signless. lia.
  - rewrite Hp, Z.mod_0_r.
    unfold binary_normalize, binary_round.
    destruct (shl_align m e _) as [mz ez].
    apply binary_round_aux_signless. lia.
Qed.

Lemma mul_signless a m e :
  signless a -> signless (mul a (S754_finite false m e)).
Proof.
  destruct a as [[|] | [|] | | [|] ma ea]; simpl; try tauto.
  intros _. apply binary_round_aux_signless. lia.
Qed.

Lemma round_half_even_nonneg f z :
  signless f -> round_half_even f = Ok z -> 0 <= z.
Proof.
  destruct f as [[|] | [|] | | [|] m e]; simpl; try tauto;
    try discriminate; intros _.
  - intros [= <-]. lia.
  - destruct (e <? 0) eqn:He.
    + intros [= <-]. unfold cond_Zopp.
      assert (0 <= Z.pos m / 2 ^ (- e)) by (apply Z.div_pos; [lia |];
        destruct (pow2_pos (- e)); lia).
      destruct (match 2 * (Z.pos m mod 2 ^ (- e)) ?= 2 ^ (- e) with
                | Eq => _ | Lt => _ | Gt => _ end); lia.
    + intros [= <-]. unfold trunc, cond_Zopp. apply Z.shiftl_nonneg. lia.
Qed.

Lemma max_zero_cases x :
  PyFloat.max zero x = zero
  \/ PyFloat.max zero x = S754_infinity false
  \/ exists m e, PyFloat.max zero x = S754_finite false m e.
Proof.
  destruct x as [[|] | [|] | | [|] m e];
    cbv [PyFloat.max gt SFltb SFcompare zero];
    try (left; reflexivity); try (right; left; reflexivity).
  right; right. eauto.
Qed.

(** ** [timedelta] and the fields of a timestamp *)

(** A [timedelta] built from clamped seconds counts a non-negative number of
    microseconds below [2^67]. *)
Lemma of_seconds_range x td :
  Datetime.of_seconds (PyFloat.max zero x) = Ok td ->
  0 <= total_microseconds td < 2 ^ 67.
Proof.
  unfold total_microseconds.
  destruct (max_zero_cases x) as [-> | [-> | (m & e & ->)]].
  - intros H. vm_compute in H. injection H as <-.
    cbn [Datetime.days Datetime.seconds Datetime.microseconds].
    change (2 ^ 67) with 147573952589676412928. lia.
  - intros H. vm_compute in H. discriminate.
  - unfold Datetime.of_seconds. simpl to_int. unfold bind at 1.
    set (whole := trunc false m e).
    assert (Hwhole : 0 <= whole)
      by (unfold whole, trunc, cond_Zopp; apply Z.shiftl_nonneg; lia).
    unfold Datetime.divmod.
    destruct (round_half_even (mul (frac (S754_finite false m e))
                                   (of_int 1000000))) as [us0 | ex] eqn:Hus;
      [| discriminate].
    assert (Hus0 : 0 <= us0).
    { eapply round_half_even_nonneg; [| exact Hus].
      change (of_int 1000000)
        with (S754_finite false 8589934592000000 (-33)).
      apply mul_signless, frac_signless. }
    unfold bind.
    destruct (Z.abs _ >? 999999999) eqn:Hd; [discriminate |].
    intros [= <-].
    cbn [Datetime.days Datetime.seconds Datetime.microseconds].
    rewrite Z.gtb_ltb in Hd. apply Z.ltb_ge in Hd.
    pose proof (Z.mod_pos_bound (whole mod (24 * 3600) + us0 / 1000000)
                                (24 * 3600) ltac:(lia)).
    pose proof (Z.mod_pos_bound us0 1000000 ltac:(lia)).
    pose proof (Z.mod_pos_bound whole (24 * 3600) ltac:(lia)).
    assert (0 <= whole / (24 * 3600)) by (apply Z.div_pos; lia).
    assert (0 <= us0 / 1000000) by (apply Z.div_pos; lia).
    assert (0 <= (whole mod (24 * 3600) + us0 / 1000000) / (24 * 3600))
      by (apply Z.div_pos; lia).
    change (2 ^ 67) with 147573952589676412928.
    change (10 ^ 6) with 1000000.
    unfold whole, trunc, cond_Zopp in *.
    change (24 * 3600) with 86400 in *.
    set (a := Z.shiftl (Z.pos m) e / 86400) in *.
    set (c := Z.shiftl (Z.pos m) e mod 86400 + us0 / 1000000) in *.
    lia.
Qed.

(** The fields of a timestamp, whenever [timedelta] accepts the clamped
    seconds: the whole seconds [W] of [total_seconds()] split into hours,
    minutes and seconds, and the milliseconds, from 0 to 999. *)
Lemma ts_fields_spec x td :
  Datetime.of_seconds (PyFloat.max zero x) = Ok td ->
  exists W ms,
    to_int (Datetime.total_seconds td) = Ok W
    /\ to_int (mul (sub (Datetime.total_seconds td) (of_int W)) (of_int 1000))
       = Ok ms
    /\ 0 <= W /\ 0 <= ms <= 999
    /\ ts_fields x = Ok (W / 3600, (W mod 3600) / 60, W mod 60, ms).
Proof.
  intros Htd. pose proof (of_seconds_range x td Htd) as HN.
  unfold ts_fields. rewrite Htd. unfold bind at 1.
  unfold Datetime.total_seconds. fold (total_microseconds td).
  destruct (Z.eq_dec (total_microseconds td) 0) as [H0 | Hne].
  - rewrite H0. exists 0, 0. repeat split; try reflexivity; lia.
  - destruct (int_true_div_normal (total_microseconds td)) as
      (m & e & Heq & Hm & He); [lia |].
    rewrite Heq.
    change (to_int (S754_finite false m e)) with (Ok (trunc false m e)).
    unfold bind at 1.
    destruct (millis_bound m e Hm He) as (ms & Hms & Hb).
    exists (trunc false m e), ms. rewrite Hms.
    repeat split; try reflexivity; try lia.
    unfold trunc, cond_Zopp. apply Z.shiftl_nonneg. lia.
Qed.

(** ** Decimal digits *)

Lemma digits_aux_length fuel :
  forall n acc k,
    0 <= n < 10 ^ Z.of_nat (S k) ->
    (S (List.length acc) <= List.length (digits_aux (S fuel) n acc)
     <= List.length acc + S k)%nat.
Proof.
  induction fuel as [| fuel IH]; intros n acc k Hn.
  - simpl. destruct (n / 10 =? 0); simpl; lia.
  - change (digits_aux (S (S fuel)) n acc)
      with (let acc' := digit_char (n mod 10) :: acc in
            if n / 10 =? 0 then acc' else digits_aux (S fuel) (n / 10) acc').
    cbv zeta. destruct (Z.eqb_spec (n / 10) 0) as [Hz | Hnz].
    + simpl. lia.
    + destruct k as [| k].
      * exfalso. apply Hnz. apply Z.div_small.
        change (10 ^ Z.of_nat 1) with 10 in Hn. exact Hn.
      * assert (Hn' : 0 <= n / 10 < 10 ^ Z.of_nat (S k)).
        { split; [apply Z.div_pos; lia |].
          apply Z.div_lt_upper_bound; [lia |].
          rewrite (Nat2Z.inj_succ (S k)), Z.pow_succ_r in Hn by lia. lia. }
        specialize (IH (n / 10) (digit_char (n mod 10) :: acc) k Hn').
        change (List.length (digit_char (n mod 10) :: acc))
          with (S (List.length acc)) in IH.
        lia.
Qed.

(** A non-negative integer below [10^width] is rendered on exactly [width]
    characters. *)
Lemma format_d_length width n :
  (0 < width)%nat -> 0 <= n < 10 ^ Z.of_nat width ->
  List.length (format_d width n) = width.
Proof.
  intros Hw Hn. unfold format_d.
  destruct (Z.ltb_spec n 0) as [Hneg | _]; [lia |].
  rewrite Z.abs_eq by lia. rewrite length_app, repeat_length.
  destruct width as [| k]; [lia |].
  pose proof (digits_aux_length (Z.to_nat (Z.log2 n)) n [] k Hn) as H.
  unfold digits. change (List.length (@nil char)) with 0%nat in H.
  unfold str, char in *. lia.
Qed.

(** ** The timestamp formatters *)

Lemma ts_fields_accepted x fields :
  ts_fields x = Ok fields ->
  exists td, Datetime.of_seconds (PyFloat.max zero x) = Ok td.
Proof.
  unfold ts_fields.
  destruct (Datetime.of_seconds (PyFloat.max zero x)) as [td | ex];
    [eauto | discriminate].
Qed.

Lemma clamp_to_zero x : gt x zero = false -> PyFloat.max zero x = zero.
Proof. unfold PyFloat.max. now intros ->. Qed.

(** C5. Whenever the hour field the formatters compute is below 100, both
    produce the same twelve characters but for the separator: hours, minutes
    and seconds on two digits each, joined by colons, then a comma (format A)
    or a period (format B), then the milliseconds on three digits. The
    statement needs no sign condition: a negative input is clamped to zero
    first. *)
Theorem timestamp_width :
  forall x hours minutes secs millis,
    ts_fields x = Ok (hours, minutes, secs, millis) ->
    hours < 100 ->
    exists hh mm ss mmm,
      format_ts_srt x = Ok (hh ++ lit ":" ++ mm ++ lit ":" ++ ss ++ lit "," ++ mmm)
      /\ format_ts_vtt x
         = Ok (hh ++ lit ":" ++ mm ++ lit ":" ++ ss ++ lit "." ++ mmm)
      /\ hh = format_d 2 hours /\ List.length hh = 2%nat
      /\ mm = format_d 2 minutes /\ List.length mm = 2%nat
      /\ ss = format_d 2 secs /\ List.length ss = 2%nat
      /\ mmm = format_d 3 millis /\ List.length mmm = 3%nat
      /\ List.length (value_of (format_ts_srt x)) = 12%nat
      /\ List.length (value_of (format_ts_vtt x)) = 12%nat.
Proof.
  intros x hours minutes secs millis Hfields Hh.
  destruct (ts_fields_accepted x _ Hfields) as [td Htd].
  destruct (ts_fields_spec x td Htd) as (W & ms & _ & _ & HW & Hms & Heq).
  rewrite Heq in Hfields. injection Hfields as <- <- <- <-.
  pose proof (Z.mod_pos_bound W 3600 ltac:(lia)) as Hm3600.
  pose proof (Z.mod_pos_bound W 60 ltac:(lia)) as Hm60.
  assert (H1 : List.length (format_d 2 (W / 3600)) = 2%nat).
  { apply format_d_length; [lia |]. change (10 ^ Z.of_nat 2) with 100.
    split; [apply Z.div_pos; lia | lia]. }
  assert (H2 : List.length (format_d 2 (W mod 3600 / 60)) = 2%nat).
  { apply format_d_length; [lia |]. change (10 ^ Z.of_nat 2) with 100.
    split; [apply Z.div_pos; lia | apply Z.div_lt_upper_bound; lia]. }
  assert (H3 : List.length (format_d 2 (W mod 60)) = 2%nat).
  { apply format_d_length; [lia |]. change (10 ^ Z.of_nat 2) with 100. lia. }
  assert (H4 : List.length (format_d 3 ms) = 3%nat).
  { apply format_d_length; [lia |]. change (10 ^ Z.of_nat 3) with 1000. lia. }
  exists (format_d 2 (W / 3600)), (format_d 2 (W mod 3600 / 60)),
         (format_d 2 (W mod 60)), (format_d 3 ms).
  unfold format_ts_srt, format_ts_vtt. rewrite Heq. simpl bind.
  unfold render_ts.
  assert (Hlen : forall sep : str,
             List.length sep = 1%nat ->
             List.length (format_d 2 (W / 3600) ++ lit ":"
                            ++ format_d 2 (W mod 3600 / 60) ++ lit ":"
                            ++ format_d 2 (W mod 60) ++ sep ++ format_d 3 ms)
             = 12%nat).
  { intros sep Hsep. rewrite !length_app. unfold str, char in *.
    rewrite H1, H2, H3, H4, Hsep. reflexivity. }
  repeat split; auto; unfold value_of;
    first [exact (Hlen (lit ",") eq_refl) | exact (Hlen (lit ".") eq_refl)].
Qed.

Lemma timestamp_width_witness :
  exists hh mm ss mmm,
    format_ts_srt (decimal 36615 1)
    = Ok (hh ++ lit ":" ++ mm ++ lit ":" ++ ss ++ lit "," ++ mmm)
    /\ format_ts_vtt (decimal 36615 1)
       = Ok (hh ++ lit ":" ++ mm ++ lit ":" ++ ss ++ lit "." ++ mmm)
    /\ hh = format_d 2 1 /\ List.length hh = 2%nat
    /\ mm = format_d 2 1 /\ List.length mm = 2%nat
    /\ ss = format_d 2 1 /\ List.length ss = 2%nat
    /\ mmm = format_d 3 500 /\ List.length mmm = 3%nat
    /\ List.length (value_of (format_ts_srt (decimal 36615 1))) = 12%nat
    /\ List.length (value_of (format_ts_vtt (decimal 36615 1))) = 12%nat.
Proof.
  apply (timestamp_width (decimal 36615 1) 1 1 1 500).
  - vm_compute. reflexivity.
  - lia.
Defined.

(** C5, as the specification words it, fails just below 100 hours. The
    seconds value 359999.9999999 has the hour component 99, and [timedelta]
    rounds it to 360000 seconds: the formatters render 100 hours, on 13
    characters. *)
Lemma timestamp_width_rounded_up :
  fields_as_specified (decimal 3599999999999 7) = (99, 59, 59, 999)
  /\ ts_fields (decimal 3599999999999 7) = Ok (100, 0, 0, 0)
  /\ format_ts_srt (decimal 3599999999999 7) = Ok (lit "100:00:00,000")
  /\ format_ts_vtt (decimal 3599999999999 7) = Ok (lit "100:00:00.000")
  /\ List.length (value_of (format_ts_srt (decimal 3599999999999 7)))
     = 13%nat
  /\ List.length (value_of (format_ts_vtt (decimal 3599999999999 7)))
     = 13%nat.
Proof.
  repeat split; vm_compute; reflexivity.
Qed.

(** What [timedelta(seconds=x)] counts: the whole seconds of [x] and its
    fraction rounded, half to even, to whole microseconds. *)
Lemma of_seconds_total x td :
  Datetime.of_seconds x = Ok td ->
  exists whole us0,
    to_int x = Ok whole
    /\ round_half_even (mul (frac x) (of_int 1000000)) = Ok us0
    /\ total_microseconds td = whole * 10 ^ 6 + us0.
Proof.
  unfold Datetime.of_seconds, total_microseconds.
  destruct (to_int x) as [whole | ex]; [| discriminate]. unfold bind at 1.
  unfold Datetime.divmod.
  destruct (round_half_even (mul (frac x) (of_int 1000000))) as [us0 | ex];
    [| discriminate].
  unfold bind. destruct (Z.abs _ >? 999999999); [discriminate |].
  intros [= <-]. exists whole, us0. split; [reflexivity |].
  split; [reflexivity |].
  cbn [Datetime.days Datetime.seconds Datetime.microseconds].
  change (24 * 3600) with 86400. change (10 ^ 6) with 1000000.
  pose proof (Z_div_mod_eq_full whole 86400).
  pose proof (Z_div_mod_eq_full us0 1000000).
  pose proof (Z_div_mod_eq_full (whole mod 86400 + us0 / 1000000) 86400).
  lia.
Qed.

(** C4, as the code has it. Both formatters clamp an input that is not
    greater than zero (negative, zero or not a number) to zero. They hand the
    clamped value to [timedelta], which rounds it to whole microseconds and
    rejects what it cannot hold; a rejected input makes the formatter raise.
    Of an accepted one they take the whole seconds [W] of [total_seconds()]
    and the milliseconds [int((total_seconds() - W) * 1000)], computed in
    double precision and always from 0 to 999, and render hours, minutes and
    seconds of [W] on two digits and the milliseconds on three, with a comma
    (format A) or a period (format B). The three examples hold. *)
Theorem timestamp_format :
  forall x,
    (gt x zero = false ->
     format_ts_srt x = Ok (lit "00:00:00,000")
     /\ format_ts_vtt x = Ok (lit "00:00:00.000"))
    /\ (forall td,
           Datetime.of_seconds (PyFloat.max zero x) = Ok td ->
           exists whole us0 W ms,
             to_int (PyFloat.max zero x) = Ok whole
             /\ round_half_even
                  (mul (frac (PyFloat.max zero x)) (of_int 1000000)) = Ok us0
             /\ total_microseconds td = whole * 10 ^ 6 + us0
             /\ Datetime.total_seconds td
                = int_true_div (total_microseconds td) (10 ^ 6)
             /\ to_int (Datetime.total_seconds td) = Ok W
             /\ to_int (mul (sub (Datetime.total_seconds td) (of_int W))
                            (of_int 1000)) = Ok ms
             /\ 0 <= W /\ 0 <= ms <= 999
             /\ format_ts_srt x
                = Ok (format_d 2 (W / 3600) ++ lit ":"
                        ++ format_d 2 (W mod 3600 / 60) ++ lit ":"
                        ++ format_d 2 (W mod 60) ++ lit ","
                        ++ format_d 3 ms)
             /\ format_ts_vtt x
                = Ok (format_d 2 (W / 3600) ++ lit ":"
                        ++ format_d 2 (W mod 3600 / 60) ++ lit ":"
                        ++ format_d 2 (W mod 60) ++ lit "."
                        ++ format_d 3 ms))
    /\ (forall e,
           Datetime.of_seconds (PyFloat.max zero x) = Raise e ->
           format_ts_srt x = Raise e /\ format_ts_vtt x = Raise e)
    /\ format_ts_srt zero = Ok (lit "00:00:00,000")
    /\ format_ts_vtt zero = Ok (lit "00:00:00.000")
    /\ format_ts_srt (decimal 36615 1) = Ok (lit "01:01:01,500")
    /\ format_ts_srt (of_int (-5)) = Ok (lit "00:00:00,000").
Proof.
  intros x. split; [| split; [| split]].
  - intros Hle. unfold format_ts_srt, format_ts_vtt, ts_fields.
    rewrite (clamp_to_zero x Hle). split; vm_compute; reflexivity.
  - intros td Htd.
    destruct (of_seconds_total _ td Htd) as (whole & us0 & Hw & Hus & Htot).
    destruct (ts_fields_spec x td Htd) as (W & ms & HW & Hm & HW0 & Hms & Heq).
    exists whole, us0, W, ms.
    unfold format_ts_srt, format_ts_vtt. rewrite Heq.
    repeat split; auto; lia.
  - intros e He. unfold format_ts_srt, format_ts_vtt, ts_fields.
    rewrite He. split; reflexivity.
  - repeat split; vm_compute; reflexivity.
Qed.

(** C4, as the specification words it, fails in two ways. The seconds value
    0.9999999 is rendered as one second and no milliseconds, because
    [timedelta] rounds it to whole microseconds first, where cutting the
    milliseconds from the value itself gives 999. And positive infinity is
    not rendered at all: the formatter raises. *)
Lemma timestamp_not_truncated :
  ts_fields (decimal 9999999 7) = Ok (0, 0, 1, 0)
  /\ fields_as_specified (decimal 9999999 7) = (0, 0, 0, 999)
  /\ format_ts_srt (decimal 9999999 7) = Ok (lit "00:00:01,000")
  /\ format_ts_vtt (decimal 9999999 7) = Ok (lit "00:00:01.000")
  /\ format_ts_srt (S754_infinity false) = Raise OverflowError
  /\ format_ts_vtt (S754_infinity false) = Raise OverflowError.
Proof.
  repeat split; vm_compute; reflexivity.
Qed.

(** * Further properties *)

(** ** Magnitudes *)

(** Dividing by a power of two takes as many digits away. *)
Lemma div_pow2_digits mx j :
  0 < mx -> 0 <= j ->
  mx / 2 ^ j = 0
  \/ (0 < mx / 2 ^ j /\ Zdigits2 (mx / 2 ^ j) <= Zdigits2 mx - j).
Proof.
  intros Hmx Hj. pose proof (Zdigits2_bounds mx Hmx) as [_ Hhi].
  pose proof (Zdigits2_pos mx Hmx) as Hd. pose proof (pow2_gt0 j Hj) as Hp.
  assert (Hq : 0 <= mx / 2 ^ j) by (apply Z.div_pos; lia).
  destruct (Z.eq_dec (mx / 2 ^ j) 0) as [Hz | Hnz]; [now left | right].
  split; [lia |].
  destruct (Z.le_gt_cases (Zdigits2 mx) j) as [Hle | Hgt].
  - exfalso. apply Hnz. apply Z.div_small.
    pose proof (pow2_le (Zdigits2 mx) j Hle ltac:(lia)). lia.
  - apply (Zdigits2_range (mx / 2 ^ j) 0 (Zdigits2 mx - j)); [lia |].
    split; [simpl; lia |].
    apply Z.div_lt_upper_bound; [lia |].
    rewrite <- pow2_split by lia.
    now replace (j + (Zdigits2 mx - j)) with (Zdigits2 mx) by lia.
Qed.

(** Adding one adds at most one digit. *)
Lemma succ_digits m : 0 <= m -> Zdigits2 (m + 1) <= Zdigits2 m + 1.
Proof.
  intros Hm. destruct (Z.eq_dec m 0) as [-> | Hne]; [simpl; lia |].
  assert (H0 : 0 < m) by lia.
  pose proof (Zdigits2_bounds m H0) as [_ Hhi].
  pose proof (Zdigits2_pos m H0) as Hd.
  apply (Zdigits2_range (m + 1) 0 (Zdigits2 m + 1)); [lia |].
  split; [simpl; lia |].
  rewrite pow2_split by lia. change (2 ^ 1) with 2. lia.
Qed.

(** Rounding keeps the magnitude: a mantissa below [2^k] rounds to zero or
    to a mantissa below [2^(k+1)]. *)
Lemma binary_round_aux_magnitude s mx ex lx k :
  0 <= mx -> Zdigits2 mx + ex <= k -> -1074 <= k ->
  exists m e,
    binary_round_aux prec emax s mx ex lx = pack s m e
    /\ 0 <= m /\ (m = 0 \/ Zdigits2 m + e <= k + 1).
Proof.
  intros Hmx Hk Hk0.
  destruct (binary_round_aux_anatomy s mx ex lx Hmx)
    as (m1 & e1 & m1' & m & e & Heq & Hm1 & Hfirst & Hround & Hsecond).
  exists m, e. split; [exact Heq |].
  assert (H1 : (m1 = 0 /\ e1 <= k) \/ (0 < m1 /\ Zdigits2 m1 + e1 <= k)).
  { destruct Hfirst as [(_ & -> & -> & _) | (Hlt & -> & He1 & _)].
    - destruct (Z.eq_dec mx 0) as [-> | Hne];
        [left; simpl in Hk; lia | right; split; lia].
    - rewrite fexp_eq in He1, Hlt.
      destruct (Z.eq_dec mx 0) as [-> | Hne].
      + left. simpl in *. split; [| lia].
        apply Z.div_0_l. pose proof (pow2_gt0 (e1 - ex)). lia.
      + destruct (div_pow2_digits mx (e1 - ex)) as [Hz | [Hpos Hd]];
          [lia | lia | left; split; [exact Hz | lia] | right].
        split; [exact Hpos | lia]. }
  assert (H1' : 0 <= m1' /\ (m1' = 0 \/ Zdigits2 m1' + e1 <= k + 1)).
  { destruct Hround as [-> | ->].
    - split; [lia |]. destruct H1 as [[-> _] | [_ H1]]; [now left | right; lia].
    - split; [lia | right]. pose proof (succ_digits m1 Hm1).
      destruct H1 as [[-> H1] | [_ H1]]; [change (Zdigits2 (0 + 1)) with 1; lia | lia]. }
  destruct H1' as [Hpos1 Hd1].
  destruct Hsecond as [(_ & -> & ->) | (Hlt & -> & He)]; [tauto |].
  split; [apply Z.div_pos; [lia | pose proof (pow2_gt0 (e - e1)); lia] |].
  destruct Hd1 as [-> | Hd1];
    [left; apply Z.div_0_l; pose proof (pow2_gt0 (e - e1)); lia |].
  destruct (Z.eq_dec m1' 0) as [-> | Hne];
    [left; apply Z.div_0_l; pose proof (pow2_gt0 (e - e1)); lia |].
  destruct (div_pow2_digits m1' (e - e1)) as [Hz | [Hp Hd]];
    [lia | lia | now left | right; lia].
Qed.

Lemma mul_digits a b :
  0 < a -> 0 < b -> Zdigits2 (a * b) <= Zdigits2 a + Zdigits2 b.
Proof.
  intros Ha Hb.
  pose proof (Zdigits2_bounds a Ha) as [_ Hahi].
  pose proof (Zdigits2_bounds b Hb) as [_ Hbhi].
  pose proof (Zdigits2_pos a Ha). pose proof (Zdigits2_pos b Hb).
  apply (Zdigits2_range (a * b) 0 (Zdigits2 a + Zdigits2 b)); [lia |].
  split; [simpl; nia |]. rewrite pow2_split by lia. nia.
Qed.

Lemma binary_normalize_magnitude r e k :
  0 <= r -> Zdigits2 r + e <= k -> -1074 <= k ->
  exists m e',
    binary_normalize prec emax r e false = pack false m e'
    /\ 0 <= m /\ (m = 0 \/ Zdigits2 m + e' <= k + 1).
Proof.
  intros Hr Hk Hk0. destruct r as [| p | p]; try lia.
  - exists 0, 0. split; [reflexivity | split; [lia | now left]].
  - unfold binary_normalize, binary_round.
    destruct (shl_align_spec p e (fexp prec emax (Z.pos (digits2_pos p) + e)))
      as (mz & ez & Heq & Hcases); rewrite Heq.
    apply binary_round_aux_magnitude; [lia | | exact Hk0].
    destruct Hcases as [(Hlt & -> & Hmz) | (_ & -> & ->)]; [| exact Hk].
    rewrite Hmz, Zdigits2_shift by lia. lia.
Qed.

(** A float of magnitude below [2^k], [k <= 971], is a zero or a finite
    number. *)
Lemma pack_finite m e k :
  0 <= m -> (m = 0 \/ Zdigits2 m + e <= k) -> k <= 972 ->
  pack false m e = S754_zero false
  \/ exists p, pack false m e = S754_finite false p e
               /\ Zdigits2 (Zpos p) + e <= k.
Proof.
  intros Hm Hd Hk. destruct m as [| p | p]; try lia; [now left | right].
  destruct Hd as [Hd | Hd]; [discriminate |].
  pose proof (Zdigits2_pos (Z.pos p) ltac:(lia)).
  exists p. split; [| exact Hd]. simpl.
  destruct (Z.leb_spec e 971); [reflexivity | lia].
Qed.

(** The fraction of a non-negative finite float is a zero or a finite
    number of magnitude at most one. *)
Lemma frac_magnitude m e :
  frac (S754_finite false m e) = S754_zero false
  \/ exists p e',
      frac (S754_finite false m e) = S754_finite false p e'
      /\ Zdigits2 (Zpos p) + e' <= 1.
Proof.
  unfold frac. destruct (Z.ltb_spec e 0) as [He | He]; [| now left].
  unfold cond_Zopp.
  assert (Hp : 0 < 2 ^ (- e)) by (apply pow2_gt0; lia).
  pose proof (Z.mod_pos_bound (Z.pos m) (2 ^ (- e)) Hp) as Hr.
  set (r := Z.pos m mod 2 ^ (- e)) in *.
  assert (Hd : Zdigits2 r + e <= 0).
  { destruct (Z.eq_dec r 0) as [-> | Hne]; [simpl; lia |].
    pose proof (Zdigits2_range r 0 (- e) ltac:(lia)
                  ltac:(split; [simpl; lia | lia])). lia. }
  destruct (binary_normalize_magnitude r e 0 ltac:(lia) Hd ltac:(lia))
    as (mf & ef & -> & Hmf & Hdf).
  destruct (pack_finite mf ef 1 Hmf Hdf ltac:(lia)) as [-> | (p & -> & Hp')];
    [now left | right; eauto].
Qed.

Lemma of_int_1000000 :
  of_int 1000000 = S754_finite false 8589934592000000 (-33).
Proof. vm_compute. reflexivity. Qed.

(** The microseconds of the fraction: a number from 0 to [2^22] at most. *)
Lemma mul_frac_rounds m e :
  exists us0,
    round_half_even (mul (frac (S754_finite false m e)) (of_int 1000000))
    = Ok us0
    /\ 0 <= us0 <= 2 ^ 22.
Proof.
  rewrite of_int_1000000.
  destruct (frac_magnitude m e) as [-> | (p & e' & -> & Hd)].
  - exists 0. split; [reflexivity | simpl; lia].
  - unfold mul, SFmul. cbn [xorb].
    assert (Hprod : Zdigits2 (Z.pos p * 8589934592000000) + (e' + -33) <= 21).
    { pose proof (mul_digits (Z.pos p) 8589934592000000 ltac:(lia) ltac:(lia)).
      change (Zdigits2 8589934592000000) with 53 in H. lia. }
    destruct (binary_round_aux_magnitude false
                (Z.pos p * 8589934592000000) (e' + -33) loc_Exact 21
                ltac:(lia) Hprod ltac:(lia)) as (mr & er & Heq & Hmr & Hdr).
    change (Z.pos (p * 8589934592000000))
      with (Z.pos p * 8589934592000000).
    rewrite Heq.
    destruct (pack_finite mr er 22 Hmr Hdr ltac:(lia))
      as [-> | (q & -> & Hq)].
    + exists 0. split; [reflexivity | simpl; lia].
    + pose proof (Zdigits2_bounds (Z.pos q) ltac:(lia)) as [_ Hhi].
      pose proof (Zdigits2_pos (Z.pos q) ltac:(lia)) as Hdq.
      set (d := Zdigits2 (Z.pos q)) in *.
      unfold round_half_even.
      destruct (Z.ltb_spec er 0) as [Her | Her].
      * assert (Hp : 0 < 2 ^ (- er)) by (apply pow2_gt0; lia).
        assert (Hquot : 0 <= Z.pos q / 2 ^ (- er) < 2 ^ 22).
        { split; [apply Z.div_pos; lia |].
          apply Z.div_lt_upper_bound; [lia |].
          destruct (Z.le_gt_cases d (22 - er)) as [Hle | Hgt]; [| lia].
          rewrite <- pow2_split by lia.
          pose proof (pow2_le d (- er + 22) ltac:(lia) ltac:(lia)). lia. }
        eexists. split; [reflexivity |]. unfold cond_Zopp.
        destruct (match 2 * (Z.pos q mod 2 ^ (- er)) ?= 2 ^ (- er) with
                  | Eq => _ | Lt => _ | Gt => _ end); lia.
      * eexists. split; [reflexivity |]. unfold trunc, cond_Zopp.
        rewrite Z.shiftl_mul_pow2 by lia.
        pose proof (pow2_gt0 er Her).
        assert (Z.pos q * 2 ^ er < 2 ^ 22); [| lia].
        pose proof (pow2_le (d + er) 22 ltac:(lia) ltac:(lia)).
        rewrite pow2_split in H0 by lia. nia.
Qed.

(** ** The range of [timedelta] *)

(** [timedelta(seconds=x)] for a positive finite [x]: the day count decides. *)
Lemma of_seconds_finite m e :
  exists us0,
    0 <= us0 <= 2 ^ 22
    /\ let whole := Z.shiftl (Zpos m) e in
       let d := whole / 86400 + (whole mod 86400 + us0 / 1000000) / 86400 in
       Datetime.of_seconds (S754_finite false m e)
       = if d >? 999999999 then Raise OverflowError
         else Ok {| Datetime.days := d;
                    Datetime.seconds :=
                      (whole mod 86400 + us0 / 1000000) mod 86400;
                    Datetime.microseconds := us0 mod 1000000 |}.
Proof.
  destruct (mul_frac_rounds m e) as (us0 & Hus & Hb).
  exists us0. split; [exact Hb |]. cbv zeta.
  unfold Datetime.of_seconds. cbn [to_int bind]. unfold Datetime.divmod.
  rewrite Hus. cbn [bind]. change (24 * 3600) with 86400.
  unfold trunc, cond_Zopp.
  assert (Hw : 0 <= Z.shiftl (Z.pos m) e) by (apply Z.shiftl_nonneg; lia).
  set (whole := Z.shiftl (Z.pos m) e) in *.
  assert (0 <= whole / 86400) by (apply Z.div_pos; lia).
  pose proof (Z.mod_pos_bound whole 86400 ltac:(lia)).
  assert (0 <= us0 / 1000000) by (apply Z.div_pos; lia).
  assert (0 <= (whole mod 86400 + us0 / 1000000) / 86400)
    by (apply Z.div_pos; lia).
  rewrite Z.abs_eq by lia. reflexivity.
Qed.

Lemma max_zero_finite m e :
  PyFloat.max zero (S754_finite false m e) = S754_finite false m e.
Proof. reflexivity. Qed.

Lemma max_zero_clamps x :
  x <> S754_infinity false ->
  (forall m e, x <> S754_finite false m e) ->
  PyFloat.max zero x = zero.
Proof.
  intros Hinf Hfin.
  destruct x as [[|] | [|] | | [|] m e]; try reflexivity.
  - congruence.
  - exfalso. now apply (Hfin m e).
Qed.

(** The seconds values [timedelta] accepts after the clamp. *)
Lemma of_seconds_accepts x :
  x <> S754_infinity false ->
  whole_seconds x < 86400 * 999999999 ->
  exists td, Datetime.of_seconds (PyFloat.max zero x) = Ok td.
Proof.
  intros Hinf Hw.
  destruct x as [[|] | [|] | | [|] m e];
    [eexists; vm_compute; reflexivity | eexists; vm_compute; reflexivity
    | eexists; vm_compute; reflexivity | congruence
    | eexists; vm_compute; reflexivity
    | eexists; change (PyFloat.max zero (S754_finite true m e)) with zero;
      vm_compute; reflexivity |].
  rewrite max_zero_finite. unfold whole_seconds in Hw.
  destruct (of_seconds_finite m e) as (us0 & Hb & Heq). cbv zeta in Heq.
  rewrite Heq.
  assert (Hw0 : 0 <= Z.shiftl (Z.pos m) e) by (apply Z.shiftl_nonneg; lia).
  set (whole := Z.shiftl (Z.pos m) e) in *.
  assert (H1 : whole / 86400 <= 999999998).
  { assert (whole / 86400 < 999999999); [| lia].
    apply Z.div_lt_upper_bound; lia. }
  pose proof (Z.mod_pos_bound whole 86400 ltac:(lia)) as Hs1.
  assert (H2 : us0 / 1000000 <= 4).
  { assert (us0 / 1000000 < 5); [| lia].
    apply Z.div_lt_upper_bound; [lia |]. change (2 ^ 22) with 4194304 in Hb.
    lia. }
  assert (H3 : (whole mod 86400 + us0 / 1000000) / 86400 <= 1).
  { assert ((whole mod 86400 + us0 / 1000000) / 86400 < 2); [| lia].
    apply Z.div_lt_upper_bound; lia. }
  destruct (Z.gtb_spec (whole / 86400
                        + (whole mod 86400 + us0 / 1000000) / 86400)
                       999999999); [lia | eauto].
Qed.

(** The seconds values [timedelta] rejects. *)
Lemma of_seconds_rejects x :
  x = S754_infinity false \/ 86400 * 1000000000 <= whole_seconds x ->
  Datetime.of_seconds (PyFloat.max zero x) = Raise OverflowError.
Proof.
  intros [-> | Hw]; [reflexivity |].
  destruct x as [[|] | [|] | | [|] m e]; try (simpl in Hw; lia).
  rewrite max_zero_finite. unfold whole_seconds in Hw.
  destruct (of_seconds_finite m e) as (us0 & Hb & Heq). cbv zeta in Heq.
  rewrite Heq.
  set (whole := Z.shiftl (Z.pos m) e) in *.
  assert (H1 : 1000000000 <= whole / 86400)
    by (apply Z.div_le_lower_bound; lia).
  pose proof (Z.mod_pos_bound whole 86400 ltac:(lia)) as Hs1.
  assert (0 <= us0 / 1000000) by (apply Z.div_pos; lia).
  assert (0 <= (whole mod 86400 + us0 / 1000000) / 86400)
    by (apply Z.div_pos; lia).
  destruct (Z.gtb_spec (whole / 86400
                        + (whole mod 86400 + us0 / 1000000) / 86400)
                       999999999); [reflexivity | lia].
Qed.

(** [timedelta] raises nothing but [OverflowError] on clamped seconds. *)
Lemma of_seconds_raises x e :
  Datetime.of_seconds (PyFloat.max zero x) = Raise e -> e = OverflowError.
Proof.
  destruct (max_zero_cases x) as [-> | [-> | (m & e0 & ->)]].
  - vm_compute. discriminate.
  - vm_compute. now intros [= <-].
  - destruct (of_seconds_finite m e0) as (us0 & Hb & Heq). cbv zeta in Heq.
    rewrite Heq. destruct (_ >? _); [now intros [= <-] | discriminate].
Qed.

Lemma ts_fields_raises x e :
  ts_fields x = Raise e -> e = OverflowError.
Proof.
  intros H.
  destruct (Datetime.of_seconds (PyFloat.max zero x)) as [td | e0] eqn:Htd.
  - destruct (ts_fields_spec x td Htd) as (W & ms & _ & _ & _ & _ & Heq).
    congruence.
  - unfold ts_fields in H. rewrite Htd in H. cbn [bind] in H.
    injection H as <-. now apply (of_seconds_raises x).
Qed.

Lemma ts_fields_domain x :
  (x <> S754_infinity false -> whole_seconds x < 86400 * 999999999 ->
   formattable x)
  /\ (x = S754_infinity false \/ 86400 * 1000000000 <= whole_seconds x ->
      ts_fields x = Raise OverflowError).
Proof.
  split.
  - intros Hinf Hw. destruct (of_seconds_accepts x Hinf Hw) as [td Htd].
    destruct (ts_fields_spec x td Htd) as (W & ms & _ & _ & _ & _ & Heq).
    eexists. exact Heq.
  - intros H. unfold ts_fields. now rewrite (of_seconds_rejects x H).
Qed.

(** X1. The range of the timestamp formatters. The only exception they raise
    is [OverflowError]. They accept every seconds value other than positive
    infinity whose whole seconds, after the clamp to zero, are below
    999,999,999 days: negative values, zeros and not-a-number included. They
    raise on positive infinity and on every value of 1,000,000,000 days or
    more. *)
Theorem format_ts_range :
  forall x,
    (forall e,
        format_ts_srt x = Raise e \/ format_ts_vtt x = Raise e ->
        e = OverflowError)
    /\ (x <> S754_infinity false ->
        whole_seconds x < 86400 * 999999999 ->
        exists a b, format_ts_srt x = Ok a /\ format_ts_vtt x = Ok b)
    /\ (x = S754_infinity false \/ 86400 * 1000000000 <= whole_seconds x ->
        format_ts_srt x = Raise OverflowError
        /\ format_ts_vtt x = Raise OverflowError).
Proof.
  intros x. split; [| split].
  - intros e H. apply (ts_fields_raises x). 
    unfold format_ts_srt, format_ts_vtt in H.
    destruct (ts_fields x) as [f | e0]; cbn [bind] in H;
      destruct H as [H | H]; congruence.
  - intros Hinf Hw.
    destruct (proj1 (ts_fields_domain x) Hinf Hw) as [fields Hf].
    unfold format_ts_srt, format_ts_vtt. rewrite Hf. cbn [bind]. eauto.
  - intros H. unfold format_ts_srt, format_ts_vtt.
    rewrite (proj2 (ts_fields_domain x) H). split; reflexivity.
Qed.

(** ** Exact results *)

(** A mantissa whose cut-off digits are all zero is shifted without
    rounding. *)
Lemma binary_round_aux_exact_shift s mx ex :
  0 < mx ->
  ex < fexp prec emax (Zdigits2 mx + ex) ->
  mx mod 2 ^ (fexp prec emax (Zdigits2 mx + ex) - ex) = 0 ->
  binary_round_aux prec emax s mx ex loc_Exact
  = pack s (mx / 2 ^ (fexp prec emax (Zdigits2 mx + ex) - ex))
         (fexp prec emax (Zdigits2 mx + ex)).
Proof.
  intros Hmx Hlt Hmod.
  destruct (binary_round_aux_anatomy s mx ex loc_Exact ltac:(lia))
    as (m1 & e1 & m1' & m & e & Heq & Hm1 & Hfirst & Hround & Hsecond).
  rewrite Heq.
  destruct Hfirst as [(Hle & _) | (_ & Hm1eq & He1 & Hodd)]; [lia |].
  set (j := e1 - ex) in *. assert (Hj : 0 < j) by (unfold j; lia).
  rewrite <- He1 in Hmod |- *. fold j in Hmod |- *.
  assert (Hp : 0 < 2 ^ j) by (apply pow2_gt0; lia).
  assert (Hmul : mx = m1 * 2 ^ j).
  { pose proof (Z_div_mod_eq_full mx (2 ^ j)). subst m1. lia. }
  assert (Hm1pos : 0 < m1) by nia.
  assert (Hkeep : m1' = m1).
  { destruct Hround as [-> | Hup]; [reflexivity | exfalso].
    specialize (Hodd eq_refl Hup).
    replace (mx / 2 ^ (j - 1)) with (2 * m1) in Hodd.
    - rewrite Z.odd_mul in Hodd. discriminate.
    - rewrite Hmul.
      replace (2 ^ j) with (2 * 2 ^ (j - 1))
        by (rewrite <- Z.pow_succ_r by lia; f_equal; lia).
      rewrite Z.mul_assoc, Z.div_mul; [lia |].
      pose proof (pow2_gt0 (j - 1) ltac:(lia)). lia. }
  subst m1'.
  assert (Hd : Zdigits2 m1 + e1 = Zdigits2 mx + ex).
  { rewrite Hmul, Zdigits2_shift by lia. unfold j. lia. }
  rewrite Hd, <- He1 in Hsecond.
  destruct Hsecond as [(_ & -> & ->) | (Hbad & _)]; [| lia].
  now rewrite Hm1eq.
Qed.

(** The seconds of a whole number of microseconds that is a whole number of
    seconds: the division is exact. *)
Lemma int_true_div_exact n :
  1 <= n -> n * 10 ^ 6 < 2 ^ 67 ->
  int_true_div (n * 10 ^ 6) (10 ^ 6) = of_int n.
Proof.
  intros Hn HN. change (10 ^ 6) with 1000000 in *.
  assert (Hn53 : n < 2 ^ 53).
  { change (2 ^ 67) with (2 ^ 53 * 16384) in HN. lia. }
  pose proof (Zdigits2_bounds n ltac:(lia)) as [Hnlo Hnhi].
  pose proof (Zdigits2_pos n ltac:(lia)) as Hdnpos.
  assert (Hdn : Zdigits2 n <= 53).
  { apply (Zdigits2_range n 0 53); [lia |]. split; [simpl; lia | exact Hn53]. }
  set (dn := Zdigits2 n) in *.
  (* the right-hand side *)
  unfold of_int. rewrite binary_normalize_exact by (fold dn; lia). fold dn.
  (* the left-hand side *)
  destruct (n * 1000000) as [| p | p] eqn:HNp; try lia.
  unfold int_true_div, raw_of_int, SFdiv, SFdiv_core_binary.
  change (Zdigits2 1000000) with 20.
  set (d1 := Zdigits2 (Z.pos p)).
  assert (Hd1 : 0 < d1 <= 67) by (apply Zdigits2_range; lia).
  pose proof (Zdigits2_bounds (Z.pos p) ltac:(lia)) as [Hlo Hhi].
  fold d1 in Hlo, Hhi.
  rewrite fexp_eq.
  replace (Z.min (Z.max (d1 + 0 - (20 + 0) - 53) (-1074)) (0 - 0))
    with (d1 - 73) by lia.
  replace (0 - 0 - (d1 - 73)) with (73 - d1) by lia.
  destruct (73 - d1) as [| sh | sh] eqn:Hsh; try lia.
  rewrite Z.shiftl_mul_pow2 by lia. rewrite <- Hsh.
  assert (Hpos : 0 < 2 ^ (73 - d1)) by (apply pow2_gt0; lia).
  assert (Hqr : Z.div_eucl (Z.pos p * 2 ^ (73 - d1)) 1000000
                = (n * 2 ^ (73 - d1), 0)).
  { pose proof (Z_div_mod (Z.pos p * 2 ^ (73 - d1)) 1000000 ltac:(lia)) as H.
    destruct (Z.div_eucl (Z.pos p * 2 ^ (73 - d1)) 1000000) as [q r].
    destruct H as [Heq Hr]. rewrite <- HNp in Heq.
    assert (r = 0 /\ q = n * 2 ^ (73 - d1)); [| intuition congruence].
    assert (Hr0 : r = 1000000 * (n * 2 ^ (73 - d1) - q)) by lia.
    assert (n * 2 ^ (73 - d1) - q = 0) by nia. lia. }
  rewrite Hqr. cbn [xorb].
  change (new_location 1000000 0) with loc_Exact.
  set (q := n * 2 ^ (73 - d1)).
  assert (Hdq : Zdigits2 q = dn + (73 - d1))
    by (unfold q; apply Zdigits2_shift; lia).
  (* the digits of the dividend: 19 or 20 more than those of [n] *)
  assert (Hdd : d1 = dn + 19 \/ d1 = dn + 20).
  { assert (Hlow : dn + 18 < d1).
    { apply (pow2_lt_inv (dn + 18) d1); [lia |].
      eapply Z.le_lt_trans; [| exact Hhi]. rewrite <- HNp.
      replace (dn + 18) with ((dn - 1) + 19) by lia.
      rewrite pow2_split by lia. change (2 ^ 19) with 524288. nia. }
    assert (Hhigh : d1 - 1 < dn + 20).
    { apply (pow2_lt_inv (d1 - 1) (dn + 20)); [lia |].
      eapply Z.le_lt_trans; [exact Hlo |]. rewrite <- HNp.
      rewrite pow2_split by lia. change (2 ^ 20) with 1048576. nia. }
    lia. }
  destruct Hdd as [Hdd | Hdd].
  - (* 54 digits: one shift, of a zero *)
    assert (Hf : fexp prec emax (Zdigits2 q + (d1 - 73)) = d1 - 72)
      by (rewrite fexp_eq; lia).
    rewrite binary_round_aux_exact_shift; rewrite ?Hf;
      replace (d1 - 72 - (d1 - 73)) with 1 by lia;
      [| unfold q; nia | lia |].
    + f_equal; [| lia]. unfold q.
      replace (73 - d1) with (1 + (53 - dn)) by lia.
      rewrite pow2_split by lia. change (2 ^ 1) with 2.
      rewrite (Z.mul_comm 2), Z.mul_assoc. apply Z.div_mul. lia.
    + unfold q. replace (73 - d1) with (1 + (72 - d1)) by lia.
      rewrite pow2_split by lia. change (2 ^ 1) with 2.
      rewrite (Z.mul_comm 2), Z.mul_assoc. apply Z.mod_mul. lia.
  - (* 53 digits: no shift *)
    rewrite binary_round_aux_exact;
      [| unfold q; nia | rewrite fexp_eq; lia].
    f_equal; [| lia]. unfold q. f_equal. f_equal. lia.
Qed.

(** The float of a positive integer below [2^52]: a mantissa of 53 digits
    with a negative exponent, and the integer as its whole part. *)
Lemma of_int_small n :
  1 <= n < 2 ^ 52 ->
  exists m e,
    of_int n = S754_finite false m e
    /\ e < 0 /\ Zpos m = n * 2 ^ (- e).
Proof.
  intros Hn.
  pose proof (Zdigits2_pos n ltac:(lia)) as Hdpos.
  assert (Hd : Zdigits2 n <= 52).
  { apply (Zdigits2_range n 0 52); [lia |]. split; [simpl; lia | lia]. }
  unfold of_int. rewrite binary_normalize_exact by lia.
  set (d := Zdigits2 n) in *.
  assert (Hp : 0 < 2 ^ (53 - d)) by (apply pow2_gt0; lia).
  rewrite pack_pos by nia.
  exists (Z.to_pos (n * 2 ^ (53 - d))), (d + 0 - 53).
  split; [reflexivity |]. split; [lia |].
  rewrite Z2Pos.id by nia. f_equal. f_equal. lia.
Qed.

Lemma sub_self s m e :
  sub (S754_finite s m e) (S754_finite s m e) = S754_zero false.
Proof.
  unfold sub, SFsub. rewrite Z.min_id.
  destruct (shl_align_spec m e e)
    as (mz & ez & Heq & [(Hlt & _) | (_ & -> & ->)]); [lia |].
  rewrite Heq. cbn [fst]. now rewrite Z.sub_diag.
Qed.

(** [timedelta(seconds=n)] for a whole number of seconds. *)
Lemma of_seconds_whole n :
  1 <= n < 86400 * 10 ^ 9 ->
  Datetime.of_seconds (PyFloat.max zero (of_int n))
  = Ok {| Datetime.days := n / 86400;
          Datetime.seconds := n mod 86400;
          Datetime.microseconds := 0 |}.
Proof.
  intros Hn. change (86400 * 10 ^ 9) with 86400000000000 in Hn.
  destruct (of_int_small n) as (m & e & Heq & He & Hm);
    [change (2 ^ 52) with 4503599627370496; lia |].
  rewrite Heq, max_zero_finite.
  assert (Hp : 0 < 2 ^ (- e)) by (apply pow2_gt0; lia).
  assert (Hwhole : Z.shiftl (Z.pos m) e = n).
  { rewrite <- (Z.opp_involutive e) at 1.
    rewrite Z.shiftl_opp_r, Z.shiftr_div_pow2 by lia.
    rewrite Hm. apply Z.div_mul. lia. }
  assert (Hfrac : frac (S754_finite false m e) = S754_zero false).
  { unfold frac. destruct (Z.ltb_spec e 0); [| lia].
    rewrite Hm, Z.mod_mul by lia. reflexivity. }
  unfold Datetime.of_seconds. cbn [to_int bind]. unfold trunc, cond_Zopp.
  rewrite Hwhole, Hfrac. unfold Datetime.divmod.
  change (round_half_even (mul (S754_zero false) (of_int 1000000)))
    with (Ok 0 : result Z).
  cbn [bind]. change (24 * 3600) with 86400.
  change (0 / 1000000) with 0. change (0 mod 1000000) with 0.
  rewrite Z.add_0_r.
  pose proof (Z.mod_pos_bound n 86400 ltac:(lia)) as Hmod.
  rewrite (Z.div_small (n mod 86400) 86400) by lia.
  rewrite Z.mod_mod by lia. rewrite Z.add_0_r.
  assert (0 <= n / 86400 <= 999999999).
  { split; [apply Z.div_pos; lia |].
    assert (n / 86400 < 1000000000); [| lia].
    apply Z.div_lt_upper_bound; lia. }
  rewrite Z.abs_eq by lia.
  destruct (Z.gtb_spec (n / 86400) 999999999); [lia | reflexivity].
Qed.

(** The fields of a whole number of seconds: no milliseconds. *)
Lemma ts_fields_whole n :
  0 <= n < 86400 * 10 ^ 9 ->
  ts_fields (of_int n) = Ok (n / 3600, (n mod 3600) / 60, n mod 60, 0).
Proof.
  intros Hn. destruct (Z.eq_dec n 0) as [-> | Hne]; [reflexivity |].
  unfold ts_fields. rewrite of_seconds_whole by lia. cbn [bind].
  unfold Datetime.total_seconds.
  cbn [Datetime.days Datetime.seconds Datetime.microseconds].
  assert (Hsum : n / 86400 * 86400 + n mod 86400 = n)
    by (pose proof (Z_div_mod_eq_full n 86400); lia).
  rewrite Hsum, Z.add_0_r.
  change (86400 * 10 ^ 9) with 86400000000000 in Hn.
  rewrite int_true_div_exact;
    [| lia | change (10 ^ 6) with 1000000;
             change (2 ^ 67) with 147573952589676412928; lia].
  destruct (of_int_small n) as (m & e & Heq & He & Hm);
    [change (2 ^ 52) with 4503599627370496; lia |].
  assert (Hp : 0 < 2 ^ (- e)) by (apply pow2_gt0; lia).
  assert (Hwhole : Z.shiftl (Z.pos m) e = n).
  { rewrite <- (Z.opp_involutive e) at 1.
    rewrite Z.shiftl_opp_r, Z.shiftr_div_pow2 by lia.
    rewrite Hm. apply Z.div_mul. lia. }
  rewrite Heq. cbn [to_int bind]. unfold trunc, cond_Zopp.
  rewrite Hwhole, <- Heq, Heq, sub_self. reflexivity.
Qed.

(** X2. A whole number of seconds, up to the range of [timedelta], is
    rendered exactly: its hours, minutes and seconds, and [000] for the
    milliseconds. No rounding of the double-precision steps shows. *)
Theorem whole_seconds_exact :
  forall n,
    0 <= n < 86400 * 10 ^ 9 ->
    format_ts_srt (of_int n)
    = Ok (format_d 2 (n / 3600) ++ lit ":"
            ++ format_d 2 (n mod 3600 / 60) ++ lit ":"
            ++ format_d 2 (n mod 60) ++ lit ",000")
    /\ format_ts_vtt (of_int n)
       = Ok (format_d 2 (n / 3600) ++ lit ":"
               ++ format_d 2 (n mod 3600 / 60) ++ lit ":"
               ++ format_d 2 (n mod 60) ++ lit ".000").
Proof.
  intros n Hn. unfold format_ts_srt, format_ts_vtt.
  rewrite (ts_fields_whole n Hn). split; reflexivity.
Qed.

Lemma whole_seconds_exact_witness :
  format_ts_srt (of_int 360000) = Ok (lit "100:00:00,000")
  /\ format_ts_vtt (of_int 360000) = Ok (lit "100:00:00.000").
Proof.
  destruct (whole_seconds_exact 360000) as [Hs Hv];
    [change (86400 * 10 ^ 9) with 86400000000000; lia |].
  rewrite Hs, Hv. split; vm_compute; reflexivity.
Defined.

(** ** Rounding to the nearest float *)

(** A mantissa of 53 or 54 digits rounds to a float next to it: with [k]
    digits cut off in all, the result times [2^k] is the multiple of [2^j]
    just below the mantissa or the one just above it, [j <= k]. *)
Lemma round_near s q e0 lx :
  2 ^ 52 <= q < 2 ^ 54 ->
  -1000 <= e0 <= 900 ->
  exists m k m1 j,
    binary_round_aux prec emax s q e0 lx = S754_finite s m (e0 + k)
    /\ 2 ^ 52 <= Zpos m < 2 ^ 53
    /\ 0 <= j <= k /\ k <= 2
    /\ m1 * 2 ^ j <= q < (m1 + 1) * 2 ^ j
    /\ (Zpos m * 2 ^ k = m1 * 2 ^ j \/ Zpos m * 2 ^ k = (m1 + 1) * 2 ^ j).
Proof.
  intros Hq He0.
  destruct (binary_round_aux_anatomy s q e0 lx) as
    (m1 & e1 & m1' & m & e & Heq & Hm1 & H1 & Hround & H2); [lia |].
  assert (Hd : 52 < Zdigits2 q <= 54) by (apply Zdigits2_range; lia).
  rewrite fexp_eq in H1.
  (* the first shift: by no digit or by one *)
  assert (Hfirst : exists j,
             0 <= j <= 1 /\ e1 = e0 + j
             /\ 2 ^ 52 <= m1 < 2 ^ 53
             /\ m1 * 2 ^ j <= q < (m1 + 1) * 2 ^ j).
  { destruct H1 as [(Hle & -> & -> & _) | (Hlt & Hm1eq & He1 & _)].
    - exists 0. assert (Zdigits2 q = 53) by lia.
      pose proof (Zdigits2_bounds q ltac:(lia)) as Hb.
      rewrite H in Hb. simpl Z.sub in Hb. change (2 ^ 0) with 1. lia.
    - exists 1. assert (Zdigits2 q = 54) by lia.
      pose proof (Zdigits2_bounds q ltac:(lia)) as Hb.
      rewrite H in Hb. simpl Z.sub in Hb.
      assert (He1' : e1 = e0 + 1) by lia. clear He1 Hlt. subst e1 m1.
      replace (e0 + 1 - e0) with 1 by lia. change (2 ^ 1) with 2.
      pose proof (Z_div_mod_eq_full q 2) as Hdm.
      pose proof (Z.mod_pos_bound q 2 ltac:(lia)) as Hr.
      change (2 ^ 54) with (2 * 2 ^ 53) in Hb.
      change (2 ^ 53) with (2 * 2 ^ 52) in Hb at 1.
      lia. }
  destruct Hfirst as (j & Hj & He1 & Hm1b & Hfloor).
  assert (Hm1' : 2 ^ 52 <= m1' <= 2 ^ 53) by lia.
  rewrite fexp_eq in H2.
  (* the second shift: only after a carry *)
  assert (Hsecond : exists c,
             0 <= c <= 1 /\ e = e1 + c /\ 2 ^ 52 <= m < 2 ^ 53
             /\ m * 2 ^ c = m1').
  { destruct (Z.eq_dec m1' (2 ^ 53)) as [Heq53 | Hne].
    - exists 1.
      assert (Zdigits2 m1' = 54)
        by (apply Zdigits2_unique; rewrite Heq53; simpl; lia).
      destruct H2 as [(Hle & _) | (Hlt & Hmeq & He)]; [lia |].
      assert (He' : e = e1 + 1) by lia. clear He Hlt. subst e m.
      replace (e1 + 1 - e1) with 1 by lia. rewrite Heq53.
      change (2 ^ 53 / 2 ^ 1) with (2 ^ 52).
      change (2 ^ 53) with (2 ^ 52 * 2 ^ 1). lia.
    - exists 0.
      assert (Zdigits2 m1' = 53) by (apply Zdigits2_unique; simpl; lia).
      destruct H2 as [(Hle & -> & ->) | (Hlt & _)]; [| lia].
      change (2 ^ 0) with 1. lia. }
  destruct Hsecond as (c & Hc & He & Hmb & Hm).
  rewrite Heq, pack_pos by lia.
  exists (Z.to_pos m), (j + c), m1, j.
  rewrite Z2Pos.id by lia.
  split; [f_equal; lia |]. split; [exact Hmb |].
  split; [lia |]. split; [lia |]. split; [exact Hfloor |].
  pose proof (pow2_gt0 j ltac:(lia)).
  replace (m * 2 ^ (j + c)) with (m * 2 ^ c * 2 ^ j)
    by (rewrite (Z.add_comm j c), pow2_split by lia; ring).
  rewrite Hm. destruct Hround as [-> | ->]; [now left | now right].
Qed.

(** The seconds of a whole number of microseconds, below [2^51]: a normal
    number within one unit of its last place of the exact quotient. *)
Lemma int_true_div_near U :
  1 <= U < 2 ^ 51 ->
  exists m e,
    int_true_div U (10 ^ 6) = S754_finite false m e
    /\ 2 ^ 52 <= Zpos m < 2 ^ 53
    /\ -72 <= e <= -20
    /\ Z.abs (10 ^ 6 * Zpos m - U * 2 ^ (- e)) <= 10 ^ 6.
Proof.
  intros HU. destruct U as [| p | p]; try lia.
  change (10 ^ 6) with 1000000.
  unfold int_true_div, raw_of_int, SFdiv, SFdiv_core_binary.
  change (Zdigits2 1000000) with 20.
  set (d1 := Zdigits2 (Z.pos p)).
  assert (Hd1 : 0 < d1 <= 51) by (apply Zdigits2_range; lia).
  rewrite fexp_eq.
  replace (Z.min (Z.max (d1 + 0 - (20 + 0) - 53) (-1074)) (0 - 0))
    with (d1 - 73) by lia.
  replace (0 - 0 - (d1 - 73)) with (73 - d1) by lia.
  destruct (73 - d1) as [| sh | sh] eqn:Hsh; try lia.
  rewrite Z.shiftl_mul_pow2 by lia. rewrite <- Hsh.
  pose proof (Zdigits2_bounds (Z.pos p) ltac:(lia)) as [Hlo Hhi].
  fold d1 in Hlo, Hhi.
  assert (Hm' : 2 ^ 72 <= Z.pos p * 2 ^ (73 - d1) < 2 ^ 73).
  { assert (Hp72 : 2 ^ 72 = 2 ^ (d1 - 1) * 2 ^ (73 - d1))
      by (rewrite <- pow2_split by lia; f_equal; lia).
    assert (Hp73 : 2 ^ 73 = 2 ^ d1 * 2 ^ (73 - d1))
      by (rewrite <- pow2_split by lia; f_equal; lia).
    assert (Hpos : 0 < 2 ^ (73 - d1)) by (apply pow2_gt0; lia).
    rewrite Hp72, Hp73. nia. }
  set (N := Z.pos p * 2 ^ (73 - d1)) in *.
  pose proof (Z_div_mod N 1000000 ltac:(lia)) as Hdm.
  destruct (Z.div_eucl N 1000000) as [q r] eqn:Hqr.
  destruct Hdm as [HN Hr].
  assert (Hq : 2 ^ 52 <= q < 2 ^ 54).
  { assert (Hq' : q = N / 1000000) by (unfold Z.div; now rewrite Hqr).
    subst q. split.
    - apply Z.div_le_lower_bound; [lia |].
      transitivity (2 ^ 72); [vm_compute; discriminate | lia].
    - apply Z.div_lt_upper_bound; [lia |].
      eapply Z.lt_le_trans; [apply Hm' | vm_compute; discriminate]. }
  cbn [xorb].
  destruct (round_near false q (d1 - 73) (new_location 1000000 r) Hq
              ltac:(lia))
    as (m & k & m1 & j & Heq & Hm & Hj & Hk & Hfloor & Hval).
  exists m, (d1 - 73 + k). split; [exact Heq |]. split; [exact Hm |].
  split; [lia |].
  pose proof (pow2_gt0 j ltac:(lia)) as Hpj.
  pose proof (pow2_gt0 k ltac:(lia)) as Hpk.
  assert (Hjk : 2 ^ j <= 2 ^ k) by (apply pow2_le; lia).
  assert (HNk : N = Z.pos p * 2 ^ (- (d1 - 73 + k)) * 2 ^ k).
  { unfold N. rewrite <- Z.mul_assoc, <- pow2_split by lia.
    do 2 f_equal. lia. }
  set (V := Z.pos p * 2 ^ (- (d1 - 73 + k))) in *.
  assert (Hbound : Z.abs (1000000 * (Z.pos m * 2 ^ k) - N)
                   <= 1000000 * 2 ^ k).
  { apply Z.abs_le. destruct Hval as [-> | ->]; nia. }
  rewrite HNk in Hbound.
  replace (1000000 * (Z.pos m * 2 ^ k) - V * 2 ^ k)
    with ((1000000 * Z.pos m - V) * 2 ^ k) in Hbound by ring.
  rewrite Z.abs_mul, (Z.abs_eq (2 ^ k)) in Hbound by lia.
  nia.
Qed.

(** The whole part of a rounded product: that of the exact product [F], or
    [F + 1] when the exact product is within one unit of the last place
    below [F + 1]. *)
Lemma round_trunc X ex :
  0 < X ->
  53 < Zdigits2 X ->
  -1074 <= Zdigits2 X + ex - 53 ->
  Zdigits2 X + ex <= 52 ->
  exists ms,
    to_int (binary_round_aux prec emax false X ex loc_Exact) = Ok ms
    /\ (ms = X / 2 ^ (- ex)
        \/ (ms = X / 2 ^ (- ex) + 1
            /\ (X / 2 ^ (- ex) + 1) * 2 ^ (- ex)
               <= X + 2 ^ (Zdigits2 X - 53))).
Proof.
  intros HX HD Hlow Hhigh.
  destruct (binary_round_aux_anatomy false X ex loc_Exact ltac:(lia))
    as (m1 & e1 & m1' & m & e & Heq & Hm1 & Hfirst & Hround & Hsecond).
  rewrite fexp_eq in Hfirst.
  set (D := Zdigits2 X) in *.
  destruct Hfirst as [(Hle & _) | (_ & Hm1eq & He1 & _)]; [lia |].
  assert (He1' : e1 = D + ex - 53) by lia. clear He1.
  set (j := D - 53). assert (Hj : 0 < j) by (unfold j; lia).
  replace (e1 - ex) with j in Hm1eq by (unfold j; lia).
  pose proof (pow2_gt0 j ltac:(lia)) as Hpj.
  pose proof (Zdigits2_bounds X HX) as [HXlo HXhi]. fold D in HXlo, HXhi.
  assert (Hm1b : 2 ^ 52 <= m1 < 2 ^ 53).
  { subst m1. split.
    - apply Z.div_le_lower_bound; [lia |].
      rewrite <- pow2_split by lia.
      now replace (j + 52) with (D - 1) by (unfold j; lia).
    - apply Z.div_lt_upper_bound; [lia |].
      rewrite <- pow2_split by lia.
      now replace (j + 53) with D by (unfold j; lia). }
  assert (Hm1' : 2 ^ 52 <= m1' <= 2 ^ 53) by lia.
  rewrite fexp_eq in Hsecond.
  set (B := - e1). assert (HB : 1 <= B) by (unfold B; lia).
  pose proof (pow2_gt0 B ltac:(lia)) as HpB.
  (* the whole part of the result is that of [m1' * 2^e1] *)
  assert (Hwhole : to_int (pack false m e) = Ok (m1' / 2 ^ B)).
  { destruct (Z.eq_dec m1' (2 ^ 53)) as [Heq53 | Hne].
    - assert (Zdigits2 m1' = 54)
        by (apply Zdigits2_unique; rewrite Heq53; simpl; lia).
      destruct Hsecond as [(Hle & _) | (Hlt & Hmeq & He)]; [lia |].
      assert (He' : e = e1 + 1) by lia. clear He Hlt. subst m.
      replace (e - e1) with 1 by lia. rewrite Heq53.
      change (2 ^ 53 / 2 ^ 1) with (2 ^ 52).
      rewrite pack_pos by lia. cbn [to_int]. unfold trunc, cond_Zopp.
      f_equal. change (Z.pos (Z.to_pos (2 ^ 52))) with (2 ^ 52).
      destruct (Z.eq_dec B 1) as [HB1 | HBn].
      + replace e with 0 by lia. rewrite HB1. reflexivity.
      + rewrite Z.shiftl_div_pow2 by lia.
        replace B with (1 + (- e)) by lia.
        rewrite pow2_split by lia. change (2 ^ 1) with 2.
        change (2 ^ 53) with (2 ^ 52 * 2).
        rewrite (Z.mul_comm 2), Z.div_mul_cancel_r; [reflexivity | | lia].
        pose proof (pow2_gt0 (- e) ltac:(lia)). lia.
    - assert (Zdigits2 m1' = 53) by (apply Zdigits2_unique; simpl; lia).
      destruct Hsecond as [(Hle & -> & ->) | (Hlt & _)]; [| lia].
      rewrite pack_pos by lia. cbn [to_int]. unfold trunc, cond_Zopp.
      rewrite Z2Pos.id by lia. f_equal.
      rewrite Z.shiftl_div_pow2 by lia. reflexivity. }
  rewrite Heq, Hwhole. eexists. split; [reflexivity |].
  assert (HF : X / 2 ^ (- ex) = m1 / 2 ^ B).
  { replace (- ex) with (j + B) by (unfold j, B; lia).
    rewrite pow2_split by lia. rewrite <- Z.div_div by lia.
    now rewrite <- Hm1eq. }
  rewrite HF.
  destruct Hround as [-> | ->]; [now left |].
  pose proof (Z_div_mod_eq_full m1 (2 ^ B)) as Hdm.
  pose proof (Z.mod_pos_bound m1 (2 ^ B) HpB) as Hr.
  set (F := m1 / 2 ^ B) in *. set (rho := m1 mod 2 ^ B) in *.
  destruct (Z.eq_dec (rho + 1) (2 ^ B)) as [Htop | Hnot].
  - right.
    assert (Hsucc : m1 + 1 = (F + 1) * 2 ^ B) by lia.
    split.
    + rewrite Hsucc. apply Z.div_mul. lia.
    + replace (- ex) with (B + j) by (unfold j, B; lia).
      rewrite pow2_split, Z.mul_assoc, <- Hsucc by lia. fold j.
      pose proof (Z_div_mod_eq_full X (2 ^ j)) as HdX.
      pose proof (Z.mod_pos_bound X (2 ^ j) Hpj) as HrX.
      rewrite <- Hm1eq in HdX. nia.
  - left. symmetry. apply Z.div_unique with (rho + 1); lia.
Qed.

(** The float left when the whole seconds are taken from a normal number of
    seconds below [2^33]: zero, or a mantissa of 53 digits that holds the
    digits of the fraction. *)
Lemma sub_whole_value m e :
  2 ^ 52 <= Zpos m < 2 ^ 53 ->
  -72 <= e <= -4 ->
  let r := Zpos m mod 2 ^ (- e) in
  (r = 0
   /\ sub (S754_finite false m e) (of_int (trunc false m e))
      = S754_zero false)
  \/ exists mf ef,
      sub (S754_finite false m e) (of_int (trunc false m e))
      = S754_finite false mf ef
      /\ 0 < r /\ ef <= e /\ -200 <= ef
      /\ 2 ^ 52 <= Zpos mf < 2 ^ 53
      /\ Zpos mf = r * 2 ^ (e - ef).
Proof.
  intros Hm He. cbv zeta. unfold trunc, cond_Zopp.
  rewrite Z.shiftl_div_pow2 by lia.
  set (k := - e). assert (Hk : 4 <= k <= 72) by lia.
  pose proof (pow2_gt0 k ltac:(lia)) as Hpk.
  pose proof (Z_div_mod_eq_full (Zpos m) (2 ^ k)) as Hdm.
  pose proof (Z.mod_pos_bound (Zpos m) (2 ^ k) Hpk) as Hr.
  set (W := Zpos m / 2 ^ k) in *. set (r := Zpos m mod 2 ^ k) in *.
  assert (HW : 0 <= W) by (apply Z.div_pos; lia).
  destruct (Z.eq_dec W 0) as [HW0 | HWpos].
  - (* less than one second *)
    right. exists m, e. rewrite HW0. split; [reflexivity |].
    replace (e - e) with 0 by lia. change (2 ^ 0) with 1. lia.
  - (* one second or more *)
    assert (Hk52 : k <= 52).
    { destruct (Z.leb_spec k 52); [assumption |]. exfalso.
      assert (2 ^ 53 <= 2 ^ k) by (apply pow2_le; lia).
      apply HWpos. apply Z.div_small. lia. }
    assert (Hp52 : 2 ^ 52 = 2 ^ (52 - k) * 2 ^ k)
      by (rewrite <- pow2_split by lia; f_equal; lia).
    assert (Hp53 : 2 ^ 53 = 2 ^ (53 - k) * 2 ^ k)
      by (rewrite <- pow2_split by lia; f_equal; lia).
    assert (HWb : 2 ^ (52 - k) <= W < 2 ^ (53 - k)).
    { split.
      - apply Z.div_le_lower_bound; [lia |]. rewrite Z.mul_comm. lia.
      - apply Z.div_lt_upper_bound; [lia |]. rewrite Z.mul_comm. lia. }
    assert (HdW : Zdigits2 W = 53 - k).
    { apply Zdigits2_unique; [| lia].
      now replace (53 - k - 1) with (52 - k) by lia. }
    assert (Hof : of_int W = S754_finite false (Z.to_pos (W * 2 ^ k)) e).
    { unfold of_int.
      rewrite binary_normalize_exact by lia.
      rewrite HdW. replace (53 - (53 - k)) with k by lia.
      replace (53 - k + 0 - 53) with e by lia.
      apply pack_pos; nia. }
    rewrite Hof. unfold sub, SFsub.
    rewrite Z.min_id.
    destruct (shl_align_spec m e e)
      as (mz & ez & Heq & [(Hlt & _) | (_ & -> & ->)]); [lia |].
    rewrite Heq. simpl fst.
    destruct (shl_align_spec (Z.to_pos (W * 2 ^ k)) e e)
      as (mz & ez & Heq2 & [(Hlt & _) | (_ & -> & ->)]); [lia |].
    rewrite Heq2. simpl fst. unfold cond_Zopp.
    rewrite Z2Pos.id by nia.
    replace (Z.pos m - W * 2 ^ k) with r by lia.
    destruct (Z.eq_dec r 0) as [Hr0 | Hrne];
      [left; rewrite Hr0; split; reflexivity |].
    right.
    assert (Hdr : 0 < Zdigits2 r <= k) by (apply Zdigits2_range; lia).
    rewrite binary_normalize_exact by lia.
    pose proof (pow2_gt0 (53 - Zdigits2 r) ltac:(lia)) as Hps.
    pose proof (Zdigits2_bounds r ltac:(lia)) as [Hrlo Hrhi].
    rewrite pack_pos; [| nia | lia].
    exists (Z.to_pos (r * 2 ^ (53 - Zdigits2 r))), (Zdigits2 r + e - 53).
    split; [reflexivity |].
    rewrite Z2Pos.id by nia.
    split; [lia |]. split; [lia |]. split; [lia |]. split.
    + assert (Hp : 2 ^ 53 = 2 ^ Zdigits2 r * 2 ^ (53 - Zdigits2 r))
        by (rewrite <- pow2_split by lia; f_equal; lia).
      assert (Hp' : 2 ^ 52 = 2 ^ (Zdigits2 r - 1) * 2 ^ (53 - Zdigits2 r))
        by (rewrite <- pow2_split by lia; f_equal; lia).
      rewrite Hp, Hp'. nia.
    + do 2 f_equal. lia.
Qed.

(** ** The arithmetic of the milliseconds *)

(** A mantissa [m] over [a = 2^k >= 2^20] that is within one unit of
    [U / 10^6] has the whole part of [U / 10^6], when that is not a whole
    number, and its fraction is as near to the fraction of [U / 10^6]. *)
Lemma near_whole U m a :
  0 <= U -> 2 ^ 20 <= a -> U mod 10 ^ 6 <> 0 ->
  Z.abs (10 ^ 6 * m - U * a) <= 10 ^ 6 ->
  m / a = U / 10 ^ 6
  /\ Z.abs (10 ^ 6 * (m mod a) - (U mod 10 ^ 6) * a) <= 10 ^ 6.
Proof.
  change (2 ^ 20) with 1048576. change (10 ^ 6) with 1000000.
  intros HU Ha HR Hnear.
  pose proof (Z_div_mod_eq_full U 1000000) as HdU.
  pose proof (Z.mod_pos_bound U 1000000 ltac:(lia)) as HRb.
  set (W := U / 1000000) in *. set (R := U mod 1000000) in *.
  assert (HUa : U * a = 1000000 * (a * W) + R * a) by (rewrite HdU; ring).
  assert (HRa : a <= R * a <= 999999 * a) by nia.
  set (P := a * W) in *. set (Q := R * a) in *.
  assert (Hdiv : m / a = W).
  { symmetry. apply Z.div_unique with (m - P); [left | unfold P]; lia. }
  split; [exact Hdiv |].
  pose proof (Z_div_mod_eq_full m a) as Hdm. rewrite Hdiv in Hdm.
  fold P in Hdm. lia.
Qed.

(** The thousandths [1000 * r / a] of a fraction [r / a] that is within
    [1 / a] of [R / 10^6] are the thousandths [T] of [R / 10^6], or [T - 1]
    when [R] is a whole number of thousandths. *)
Lemma millis_floor a r R :
  2 ^ 20 <= a -> 0 <= R ->
  Z.abs (10 ^ 6 * r - R * a) <= 10 ^ 6 ->
  R / 1000 - 1 <= 1000 * r / a <= R / 1000
  /\ (R mod 1000 <> 0 -> 1000 * r / a = R / 1000).
Proof.
  change (2 ^ 20) with 1048576. change (10 ^ 6) with 1000000.
  intros Ha HR Hnear.
  pose proof (Z_div_mod_eq_full R 1000) as HdR.
  pose proof (Z.mod_pos_bound R 1000 ltac:(lia)) as Hrho.
  set (T := R / 1000) in *. set (rho := R mod 1000) in *.
  assert (HRa : R * a = 1000 * (T * a) + rho * a) by (rewrite HdR; ring).
  assert (Hrhoa : 0 <= rho * a <= 999 * a) by nia.
  set (Q := T * a) in *. set (q := rho * a) in *.
  assert (Hup : 1000 * r / a < T + 1).
  { apply Z.div_lt_upper_bound; [lia |].
    replace (a * (T + 1)) with (Q + a) by (unfold Q; ring). lia. }
  assert (Hlow : T - 1 <= 1000 * r / a).
  { apply Z.div_le_lower_bound; [lia |].
    replace (a * (T - 1)) with (Q - a) by (unfold Q; ring). lia. }
  split; [lia |]. intros Hne.
  assert (Hq : a <= q) by (unfold q; nia).
  assert (T <= 1000 * r / a); [| lia].
  apply Z.div_le_lower_bound; [lia |].
  replace (a * T) with Q by (unfold Q; ring). lia.
Qed.

(** The rounding of the product by 1000 cannot carry the thousandths past
    those of [R / 10^6]: the product is too far below the next whole number
    for one unit [p] of the last place. *)
Lemma no_round_up a s r R T p X :
  2 ^ 20 <= a -> 1 <= s -> 0 <= r < a -> 0 <= R ->
  10 ^ 6 * r - R * a <= 10 ^ 6 ->
  R + 1 <= 1000 * (T + 1) ->
  X = r * s * (1000 * 2 ^ 43) ->
  2 ^ 52 * p <= X ->
  (T + 1) * (s * a * 2 ^ 43) <= X + p ->
  False.
Proof.
  change (2 ^ 20) with 1048576. change (10 ^ 6) with 1000000.
  change (2 ^ 43) with 8796093022208.
  change (2 ^ 52) with 4503599627370496.
  intros Ha Hs Hr HR Hnear HT HX Hp Hup.
  assert (HY : R * a + a <= 1000 * ((T + 1) * a)) by nia.
  set (Y := (T + 1) * a) in *. set (Q := R * a) in *.
  set (G := Y - 1000 * r).
  assert (HG : a - 1000000 <= 1000 * G) by (unfold G; lia).
  assert (HG1 : 1 <= G) by lia.
  assert (HGs : G * s * 8796093022208 <= p).
  { replace ((T + 1) * (s * a * 8796093022208))
      with (Y * s * 8796093022208) in Hup by (unfold Y; ring).
    replace (Y * s) with (G * s + 1000 * (r * s)) in Hup
      by (unfold G; ring).
    rewrite HX in Hup. lia. }
  assert (Hrs : 4503599627370496 * (G * s) <= 1000 * (r * s)).
  { rewrite HX in Hp. lia. }
  assert (HGr : 4503599627370496 * G <= 1000 * r) by nia.
  lia.
Qed.

(** ** The fields from the microseconds *)

Lemma mod_1000 U : (U mod 10 ^ 6) mod 1000 = U mod 1000.
Proof.
  change (10 ^ 6) with 1000000.
  pose proof (Z_div_mod_eq_full U 1000000) as Hd.
  replace (U mod 1000000) with (U + (- 1000 * (U / 1000000)) * 1000) by lia.
  apply Z.mod_add. lia.
Qed.

(** The whole seconds and the milliseconds computed from a [timedelta] of
    [U] microseconds, [U] below [2^51]. *)
Lemma millis_of_microseconds U :
  1 <= U < 2 ^ 51 ->
  exists ms,
    to_int (int_true_div U (10 ^ 6)) = Ok (U / 10 ^ 6)
    /\ to_int (mul (sub (int_true_div U (10 ^ 6)) (of_int (U / 10 ^ 6)))
                   (of_int 1000)) = Ok ms
    /\ (ms = U mod 10 ^ 6 / 1000
        \/ (ms = U mod 10 ^ 6 / 1000 - 1
            /\ U mod 1000 = 0 /\ U mod 10 ^ 6 <> 0)).
Proof.
  intros HU.
  destruct (Z.eq_dec (U mod 10 ^ 6) 0) as [HR0 | HR].
  - (* a whole number of seconds *)
    pose proof (Z_div_mod_eq_full U (10 ^ 6)) as Hd.
    rewrite HR0, Z.add_0_r in Hd.
    set (n := U / 10 ^ 6) in *.
    assert (Hn : 1 <= n < 2 ^ 52).
    { change (10 ^ 6) with 1000000 in Hd.
      change (2 ^ 51) with 2251799813685248 in HU.
      change (2 ^ 52) with 4503599627370496. lia. }
    assert (Heq : int_true_div U (10 ^ 6) = of_int n).
    { rewrite Hd at 1. rewrite (Z.mul_comm (10 ^ 6) n).
      apply int_true_div_exact; [lia |].
      rewrite Z.mul_comm, <- Hd.
      change (2 ^ 51) with 2251799813685248 in HU.
      change (2 ^ 67) with 147573952589676412928. lia. }
    rewrite Heq.
    destruct (of_int_small n Hn) as (m & e & Hof & He & Hm).
    assert (Hp : 0 < 2 ^ (- e)) by (apply pow2_gt0; lia).
    exists 0. rewrite Hof, sub_self, HR0.
    split; [| split; [reflexivity | left; reflexivity]].
    cbn [to_int]. unfold trunc, cond_Zopp. f_equal.
    rewrite Z.shiftl_div_pow2 by lia. rewrite Hm. apply Z.div_mul. lia.
  - (* seconds and a fraction *)
    destruct (int_true_div_near U HU) as (m & e & Heq & Hm & He & Hnear).
    set (a := 2 ^ (- e)) in *.
    assert (Ha : 2 ^ 20 <= a) by (apply pow2_le; lia).
    destruct (near_whole U (Zpos m) a ltac:(lia) Ha HR Hnear) as [Hw Hfr].
    pose proof (Z.mod_pos_bound U (10 ^ 6) ltac:(lia)) as HRb.
    set (R := U mod 10 ^ 6) in *.
    assert (Htr : trunc false m e = U / 10 ^ 6).
    { unfold trunc, cond_Zopp. rewrite Z.shiftl_div_pow2 by lia. exact Hw. }
    rewrite Heq. cbn [to_int]. rewrite <- Htr.
    assert (Hapos : 0 < a) by (change (2 ^ 20) with 1048576 in Ha; lia).
    pose proof (Z.mod_pos_bound (Zpos m) a Hapos) as Hrb.
    destruct (sub_whole_value m e Hm ltac:(lia))
      as [(Hr0 & _) | (mf & ef & -> & Hr & Hef & Hlow & Hmf & Hmfr)].
    { (* the fraction is not lost *)
      exfalso. fold a in Hr0. rewrite Hr0 in Hfr.
      change (2 ^ 20) with 1048576 in Ha. change (10 ^ 6) with 1000000 in *.
      nia. }
    fold a in Hr, Hmfr. set (r := Zpos m mod a) in *.
    set (s := 2 ^ (e - ef)) in *.
    assert (Hs : 1 <= s)
      by (pose proof (pow2_gt0 (e - ef) ltac:(lia)); unfold s; lia).
    rewrite of_int_1000. unfold mul, SFmul. simpl xorb.
    rewrite Pos2Z.inj_mul.
    set (C := 8796093022208000).
    set (X := Z.pos mf * C). set (ex := ef + -43).
    assert (HX : 2 ^ 104 <= X < 2 ^ 106).
    { change (2 ^ 104) with (2 ^ 52 * 2 ^ 52).
      change (2 ^ 106) with (2 ^ 53 * 2 ^ 53).
      assert (2 ^ 52 <= C < 2 ^ 53) by (unfold C; simpl; lia).
      unfold X. nia. }
    assert (HXpos : 0 < X) by (change (2 ^ 104) with
      20282409603651670423947251286016 in HX; lia).
    pose proof (Zdigits2_range X 104 106 ltac:(lia) HX) as HD.
    pose proof (Zdigits2_bounds X HXpos) as [HXlo _].
    destruct (round_trunc X ex HXpos) as (ms & Hms & Hcases);
      [lia | unfold ex; lia | unfold ex; lia |].
    exists ms. split; [reflexivity |]. split; [exact Hms |].
    (* the thousandths of the fraction *)
    assert (Hpow : 2 ^ (- ex) = s * a * 2 ^ 43).
    { unfold ex, s, a.
      replace (- (ef + -43)) with ((e - ef) + (- e) + 43) by lia.
      rewrite !pow2_split by lia. reflexivity. }
    assert (HXr : X = r * s * (1000 * 2 ^ 43)).
    { unfold X, C. rewrite Hmfr. fold s.
      change (2 ^ 43) with 8796093022208. ring. }
    assert (HF : X / 2 ^ (- ex) = 1000 * r / a).
    { rewrite Hpow, HXr.
      replace (r * s * (1000 * 2 ^ 43)) with (1000 * r * (s * 2 ^ 43))
        by ring.
      replace (s * a * 2 ^ 43) with (a * (s * 2 ^ 43)) by ring.
      apply Z.div_mul_cancel_r; [lia |].
      change (2 ^ 43) with 8796093022208. lia. }
    rewrite HF in Hcases.
    destruct (millis_floor a r R Ha ltac:(lia) Hfr) as [HFb Hexact].
    replace (R mod 1000) with (U mod 1000) in Hexact
      by (symmetry; apply mod_1000).
    set (F := 1000 * r / a) in *. set (T := R / 1000) in *.
    destruct Hcases as [-> | (-> & Hcarry)].
    + destruct (Z.eq_dec F T) as [HFT | HFT]; [left; exact HFT | right].
      split; [lia |]. split; [| exact HR].
      destruct (Z.eq_dec (U mod 1000) 0) as [Hz | Hnz]; [exact Hz |].
      specialize (Hexact Hnz). lia.
    + destruct (Z.eq_dec F T) as [HFT | HFT]; [exfalso | left; lia].
      rewrite HFT, Hpow in Hcarry.
      apply (no_round_up a s r R T (2 ^ (Zdigits2 X - 53)) X); try lia.
      * pose proof (Z_div_mod_eq_full R 1000) as HdR.
        pose proof (Z.mod_pos_bound R 1000 ltac:(lia)). fold T in HdR. lia.
      * rewrite <- pow2_split by lia.
        now replace (52 + (Zdigits2 X - 53)) with (Zdigits2 X - 1) by lia.
Qed.

(** Timestamps depend on the [timedelta] through its microseconds. *)
Lemma ts_fields_same x y tx ty :
  Datetime.of_seconds (PyFloat.max zero x) = Ok tx ->
  Datetime.of_seconds (PyFloat.max zero y) = Ok ty ->
  total_microseconds tx = total_microseconds ty ->
  ts_fields x = ts_fields y.
Proof.
  intros Hx Hy HU. unfold ts_fields. rewrite Hx, Hy. unfold bind at 1 5.
  unfold Datetime.total_seconds. fold (total_microseconds tx).
  fold (total_microseconds ty). now rewrite HU.
Qed.

Lemma ts_fields_microseconds x td :
  Datetime.of_seconds (PyFloat.max zero x) = Ok td ->
  total_microseconds td < 2 ^ 51 ->
  exists ms,
    ts_fields x
    = Ok (total_microseconds td / 10 ^ 6 / 3600,
          (total_microseconds td / 10 ^ 6) mod 3600 / 60,
          (total_microseconds td / 10 ^ 6) mod 60, ms)
    /\ (ms = total_microseconds td mod 10 ^ 6 / 1000
        \/ (ms = total_microseconds td mod 10 ^ 6 / 1000 - 1
            /\ total_microseconds td mod 1000 = 0
            /\ total_microseconds td mod 10 ^ 6 <> 0)).
Proof.
  intros Htd Hlt.
  pose proof (of_seconds_range x td Htd) as [Hnn _].
  unfold ts_fields. rewrite Htd. unfold bind at 1.
  unfold Datetime.total_seconds. fold (total_microseconds td).
  destruct (Z.eq_dec (total_microseconds td) 0) as [H0 | Hne].
  - rewrite H0. exists 0. split; [reflexivity | left; reflexivity].
  - destruct (millis_of_microseconds (total_microseconds td))
      as (ms & Hw & Hms & Hcases); [lia |].
    exists ms. rewrite Hw. unfold bind at 1. rewrite Hms.
    split; [reflexivity | exact Hcases].
Qed.

(** The time a timestamp shows is the time in milliseconds, truncated, or
    one millisecond less. *)
Lemma shown_millis_spec x td :
  Datetime.of_seconds (PyFloat.max zero x) = Ok td ->
  total_microseconds td < 2 ^ 51 ->
  exists fields,
    ts_fields x = Ok fields
    /\ (shown_millis fields = total_microseconds td / 1000
        \/ (shown_millis fields = total_microseconds td / 1000 - 1
            /\ total_microseconds td mod 1000 = 0)).
Proof.
  intros Htd Hlt.
  destruct (ts_fields_microseconds x td Htd Hlt) as (ms & Hf & Hcases).
  eexists. split; [exact Hf |]. unfold shown_millis.
  set (U := total_microseconds td) in *.
  change (10 ^ 6) with 1000000 in *.
  pose proof (Z_div_mod_eq_full U 1000000) as HdU.
  set (W := U / 1000000) in *. set (R := U mod 1000000) in *.
  pose proof (Z_div_mod_eq_full W 3600) as HdW.
  pose proof (Z_div_mod_eq_full (W mod 3600) 60) as Hd60.
  assert (Hs : W mod 60 = (W mod 3600) mod 60).
  { replace (W mod 3600) with (W + (- 60 * (W / 3600)) * 60) by lia.
    symmetry. apply Z.mod_add. lia. }
  assert (Hshown : ((W / 3600 * 60 + W mod 3600 / 60) * 60 + W mod 60) = W)
    by lia.
  rewrite Hshown.
  assert (HU1000 : U / 1000 = W * 1000 + R / 1000).
  { rewrite HdU at 1.
    replace (1000000 * W + R) with (R + (W * 1000) * 1000) by ring.
    rewrite Z.div_add by lia. lia. }
  rewrite HU1000. destruct Hcases as [-> | (-> & Hz & _)]; [left | right].
  - reflexivity.
  - split; [lia | exact Hz].
Qed.

(** X17. The milliseconds of a timestamp. For a time that [timedelta] holds
    as [U] microseconds, [U] below [2^51] (some 71 years), the hours, minutes
    and seconds are those of the whole seconds [U // 10^6], and the
    milliseconds are those of [U], truncated, or one less: one less only
    when [U] is a whole number of milliseconds other than a whole second
    (the division by [10^6] and the product by 1000 are rounded, and [int]
    truncates what falls just below). *)
Theorem millisecond_accuracy :
  forall x td,
    Datetime.of_seconds (PyFloat.max zero x) = Ok td ->
    total_microseconds td < 2 ^ 51 ->
    exists ms,
      let W := total_microseconds td / 10 ^ 6 in
      let fields := (W / 3600, W mod 3600 / 60, W mod 60, ms) in
      ts_fields x = Ok fields
      /\ format_ts_srt x = Ok (render_ts (lit ",") fields)
      /\ format_ts_vtt x = Ok (render_ts (lit ".") fields)
      /\ (ms = total_microseconds td mod 10 ^ 6 / 1000
          \/ (ms = total_microseconds td mod 10 ^ 6 / 1000 - 1
              /\ total_microseconds td mod 1000 = 0
              /\ total_microseconds td mod 10 ^ 6 <> 0)).
Proof.
  intros x td Htd Hlt.
  destruct (ts_fields_microseconds x td Htd Hlt) as (ms & Hf & Hcases).
  exists ms. cbv zeta.
  unfold format_ts_srt, format_ts_vtt. rewrite Hf.
  repeat split; try reflexivity. exact Hcases.
Qed.

Lemma millisecond_accuracy_witness :
  exists ms,
    ts_fields (decimal 1001 3) = Ok (0, 0, 1, ms) /\ (ms = 1 \/ ms = 0).
Proof.
  destruct (millisecond_accuracy
              (decimal 1001 3)
              {| Datetime.days := 0; Datetime.seconds := 1;
                 Datetime.microseconds := 1000 |})
    as (ms & Hf & _ & _ & Hcases).
  - vm_compute. reflexivity.
  - vm_compute. reflexivity.
  - exists ms. split; [exact Hf |].
    destruct Hcases as [-> | (-> & _)]; [left | right]; reflexivity.
Defined.

(** The second case happens: 1.001 seconds, a whole number of
    milliseconds, are shown with one millisecond less. *)
Lemma millisecond_lost_example :
  format_ts_srt (decimal 1001 3) = Ok (lit "00:00:01,000")
  /\ format_ts_vtt (decimal 1001 3) = Ok (lit "00:00:01.000").
Proof. split; vm_compute; reflexivity. Qed.

(** X18. Timestamps keep the order of the times. For two accepted times
    that [timedelta] holds as [U <= V] microseconds, [V] below [2^51], the
    time the first timestamp shows is not after the time the second shows
    (the lost millisecond of X17 never inverts two timestamps), and it is
    before it when the times are 2 milliseconds or more apart. *)
Theorem timestamps_ordered :
  forall x y tx ty,
    Datetime.of_seconds (PyFloat.max zero x) = Ok tx ->
    Datetime.of_seconds (PyFloat.max zero y) = Ok ty ->
    total_microseconds tx <= total_microseconds ty < 2 ^ 51 ->
    exists fx fy,
      ts_fields x = Ok fx /\ ts_fields y = Ok fy
      /\ shown_millis fx <= shown_millis fy
      /\ (total_microseconds tx + 2000 <= total_microseconds ty ->
          shown_millis fx < shown_millis fy).
Proof.
  intros x y tx ty Hx Hy [Hle Hlt].
  destruct (shown_millis_spec x tx Hx ltac:(lia)) as (fx & Hfx & Hsx).
  destruct (shown_millis_spec y ty Hy Hlt) as (fy & Hfy & Hsy).
  exists fx, fy. split; [exact Hfx |]. split; [exact Hfy |].
  set (U := total_microseconds tx) in *.
  set (V := total_microseconds ty) in *.
  pose proof (Z_div_mod_eq_full U 1000) as HdU.
  pose proof (Z_div_mod_eq_full V 1000) as HdV.
  pose proof (Z.mod_pos_bound U 1000 ltac:(lia)) as HbU.
  pose proof (Z.mod_pos_bound V 1000 ltac:(lia)) as HbV.
  split.
  - destruct (Z.eq_dec U V) as [Heq | Hne].
    + pose proof (ts_fields_same x y tx ty Hx Hy Heq) as Hsame.
      rewrite Hfx, Hfy in Hsame. injection Hsame as ->. lia.
    + lia.
  - intros Hfar. lia.
Qed.

Lemma timestamps_ordered_witness :
  exists fx fy,
    ts_fields (decimal 1001 3) = Ok fx /\ ts_fields (decimal 15 1) = Ok fy
    /\ shown_millis fx < shown_millis fy.
Proof.
  destruct (timestamps_ordered
              (decimal 1001 3) (decimal 15 1)
              {| Datetime.days := 0; Datetime.seconds := 1;
                 Datetime.microseconds := 1000 |}
              {| Datetime.days := 0; Datetime.seconds := 1;
                 Datetime.microseconds := 500000 |})
    as (fx & fy & Hfx & Hfy & _ & Hfar).
  - vm_compute. reflexivity.
  - vm_compute. reflexivity.
  - vm_compute. split; [discriminate | reflexivity].
  - exists fx, fy. split; [exact Hfx |]. split; [exact Hfy |].
    apply Hfar. vm_compute. discriminate.
Defined.

(** ** Decimal digits read back *)

Lemma int_of_digits_from l :
  forall v,
    fold_left (fun acc c => acc * 10 + (Z.of_N c - 48)) l v
    = v * 10 ^ Z.of_nat (List.length l) + Json.int_of_digits l.
Proof.
  unfold Json.int_of_digits.
  induction l as [| c l IH]; intros v.
  - cbn. lia.
  - cbn [fold_left List.length]. rewrite IH, (IH (0 * 10 + _)).
    rewrite Nat2Z.inj_succ, Z.pow_succ_r by lia. ring.
Qed.

Lemma int_of_digits_cons c l :
  Json.int_of_digits (c :: l)
  = (Z.of_N c - 48) * 10 ^ Z.of_nat (List.length l) + Json.int_of_digits l.
Proof.
  unfold Json.int_of_digits at 1. cbn [fold_left].
  rewrite int_of_digits_from. unfold str, char in *. ring.
Qed.

Lemma int_of_digits_zeros k l :
  Json.int_of_digits (repeat 48%N k ++ l) = Json.int_of_digits l.
Proof.
  induction k as [| k IH]; [reflexivity |].
  cbn [repeat app]. rewrite int_of_digits_cons, IH. cbn. lia.
Qed.

Lemma digit_char_value d :
  0 <= d <= 9 ->
  Z.of_N (digit_char d) - 48 = d /\ Json.is_digit (digit_char d) = true.
Proof.
  intros Hd. unfold digit_char, Json.is_digit. rewrite Z2N.id by lia.
  split; [lia |].
  apply andb_true_intro. split; apply N.leb_le; lia.
Qed.

Lemma digits_aux_value fuel :
  forall n acc,
    0 <= n < 2 ^ Z.of_nat fuel ->
    Json.int_of_digits (digits_aux fuel n acc)
    = n * 10 ^ Z.of_nat (List.length acc) + Json.int_of_digits acc
    /\ (numeral acc -> numeral (digits_aux fuel n acc)).
Proof.
  induction fuel as [| fuel IH]; intros n acc Hn.
  - cbn in Hn. assert (n = 0) by lia. subst. cbn [digits_aux].
    split; [lia | auto].
  - cbn [digits_aux].
    pose proof (Z.mod_pos_bound n 10 ltac:(lia)) as Hmod.
    destruct (digit_char_value (n mod 10) ltac:(lia)) as [Hval Hdig].
    pose proof (Z_div_mod_eq_full n 10) as Hdm.
    destruct (Z.eqb_spec (n / 10) 0) as [Hq | Hq].
    + split.
      * rewrite int_of_digits_cons, Hval. f_equal. nia.
      * intros Hacc. now constructor.
    + assert (Hn' : 0 <= n / 10 < 2 ^ Z.of_nat fuel).
      { split; [apply Z.div_pos; lia |].
        apply Z.div_lt_upper_bound; [lia |].
        rewrite Nat2Z.inj_succ, Z.pow_succ_r in Hn by lia. lia. }
      destruct (IH (n / 10) (digit_char (n mod 10) :: acc) Hn') as [Hv Hd].
      split.
      * rewrite Hv, int_of_digits_cons, Hval. cbn [List.length].
        rewrite Nat2Z.inj_succ, Z.pow_succ_r by lia. nia.
      * intros Hacc. apply Hd. now constructor.
Qed.

(** The decimal digits of a number read back as the number. *)
Lemma digits_value n :
  0 <= n -> Json.int_of_digits (digits n) = n /\ numeral (digits n).
Proof.
  intros Hn. unfold digits.
  assert (Hb : 0 <= n < 2 ^ Z.of_nat (S (Z.to_nat (Z.log2 n)))).
  { split; [exact Hn |]. rewrite Nat2Z.inj_succ, Z2Nat.id
      by apply Z.log2_nonneg.
    destruct (Z.eq_dec n 0) as [-> | Hne]; [cbn; lia |].
    apply Z.log2_spec. lia. }
  destruct (digits_aux_value _ n [] Hb) as [Hv Hd].
  split; [rewrite Hv; cbn; lia | apply Hd; constructor].
Qed.

(** A numeral of [k] digits reads as a number below [10^k]. *)
Lemma numeral_bound s :
  numeral s -> 0 <= Json.int_of_digits s < 10 ^ Z.of_nat (List.length s).
Proof.
  induction 1 as [| c s Hc _ IH]; [cbn; lia |].
  rewrite int_of_digits_cons. cbn [List.length].
  rewrite Nat2Z.inj_succ, Z.pow_succ_r by lia.
  unfold Json.is_digit in Hc. apply andb_prop in Hc as [H1 H2].
  apply N.leb_le in H1, H2. unfold str, char in *. nia.
Qed.

(** A zero-padded non-negative number: digits only, at least [width] of
    them, that read back as the number. *)
Lemma format_d_value width n :
  0 <= n ->
  numeral (format_d width n)
  /\ Json.int_of_digits (format_d width n) = n
  /\ (width <= List.length (format_d width n))%nat.
Proof.
  intros Hn. unfold format_d.
  destruct (Z.ltb_spec n 0) as [Hneg | _]; [lia |].
  rewrite Z.abs_eq by lia. destruct (digits_value n Hn) as [Hv Hd].
  split; [| split].
  - apply Forall_app. split; [| exact Hd].
    apply Forall_forall. intros c Hc. apply repeat_spec in Hc. now subst.
  - now rewrite int_of_digits_zeros.
  - rewrite length_app, repeat_length. unfold str, char in *. lia.
Qed.

(** The shape of a rendered timestamp. *)
Lemma render_ts_shape sep hours minutes secs millis :
  0 <= hours -> 0 <= minutes < 60 -> 0 <= secs < 60 -> 0 <= millis < 1000 ->
  exists hh mm ss mmm,
    render_ts sep (hours, minutes, secs, millis)
    = hh ++ lit ":" ++ mm ++ lit ":" ++ ss ++ sep ++ mmm
    /\ numeral hh /\ numeral mm /\ numeral ss /\ numeral mmm
    /\ (2 <= List.length hh)%nat /\ List.length mm = 2%nat
    /\ List.length ss = 2%nat /\ List.length mmm = 3%nat
    /\ Json.int_of_digits hh = hours /\ Json.int_of_digits mm = minutes
    /\ Json.int_of_digits ss = secs /\ Json.int_of_digits mmm = millis.
Proof.
  intros Hh Hm Hs Hms.
  exists (format_d 2 hours), (format_d 2 minutes), (format_d 2 secs),
         (format_d 3 millis).
  destruct (format_d_value 2 hours Hh) as (Hh1 & Hh2 & Hh3).
  destruct (format_d_value 2 minutes ltac:(lia)) as (Hm1 & Hm2 & _).
  destruct (format_d_value 2 secs ltac:(lia)) as (Hs1 & Hs2 & _).
  destruct (format_d_value 3 millis ltac:(lia)) as (Hms1 & Hms2 & _).
  repeat split; auto.
  - apply format_d_length; [lia |]. change (10 ^ Z.of_nat 2) with 100. lia.
  - apply format_d_length; [lia |]. change (10 ^ Z.of_nat 2) with 100. lia.
  - apply format_d_length; [lia |]. change (10 ^ Z.of_nat 3) with 1000. lia.
Qed.

(** The fields of a timestamp are in range. *)
Lemma ts_fields_range x hours minutes secs millis :
  ts_fields x = Ok (hours, minutes, secs, millis) ->
  0 <= hours /\ 0 <= minutes < 60 /\ 0 <= secs < 60 /\ 0 <= millis < 1000.
Proof.
  intros Hf. destruct (ts_fields_accepted x _ Hf) as [td Htd].
  destruct (ts_fields_spec x td Htd) as (W & ms & _ & _ & HW & Hms & Heq).
  rewrite Heq in Hf. injection Hf as <- <- <- <-.
  pose proof (Z.mod_pos_bound W 3600 ltac:(lia)).
  pose proof (Z.mod_pos_bound W 60 ltac:(lia)).
  repeat split; try lia.
  - apply Z.div_pos; lia.
  - apply Z.div_pos; lia.
  - apply Z.div_lt_upper_bound; lia.
Qed.

(** X3. A timestamp reads back as its fields. Whenever the formatter accepts a
    seconds value, the four fields are in range (minutes and seconds below
    60, milliseconds below 1000, hours not bounded by 24 or 100), and the text
    is four numerals, read back by [int] as the fields: the hours on two
    digits or more (more than two from 100 hours on), the minutes and the
    seconds on two digits, the milliseconds on three. *)
Theorem timestamp_reads_back :
  forall x hours minutes secs millis,
    ts_fields x = Ok (hours, minutes, secs, millis) ->
    0 <= hours /\ 0 <= minutes < 60 /\ 0 <= secs < 60 /\ 0 <= millis < 1000
    /\ exists hh mm ss mmm,
        format_ts_srt x
        = Ok (hh ++ lit ":" ++ mm ++ lit ":" ++ ss ++ lit "," ++ mmm)
        /\ format_ts_vtt x
           = Ok (hh ++ lit ":" ++ mm ++ lit ":" ++ ss ++ lit "." ++ mmm)
        /\ numeral hh /\ numeral mm /\ numeral ss /\ numeral mmm
        /\ (2 <= List.length hh)%nat /\ List.length mm = 2%nat
        /\ List.length ss = 2%nat /\ List.length mmm = 3%nat
        /\ (100 <= hours -> (2 < List.length hh)%nat)
        /\ Json.int_of_digits hh = hours /\ Json.int_of_digits mm = minutes
        /\ Json.int_of_digits ss = secs /\ Json.int_of_digits mmm = millis.
Proof.
  intros x hours minutes secs millis Hf.
  pose proof (ts_fields_range x _ _ _ _ Hf) as (Hh & Hm & Hs & Hms).
  split; [exact Hh |]. split; [exact Hm |]. split; [exact Hs |].
  split; [exact Hms |].
  exists (format_d 2 hours), (format_d 2 minutes), (format_d 2 secs),
         (format_d 3 millis).
  destruct (format_d_value 2 hours Hh) as (Hh1 & Hh2 & Hh3).
  destruct (format_d_value 2 minutes ltac:(lia)) as (Hm1 & Hm2 & _).
  destruct (format_d_value 2 secs ltac:(lia)) as (Hs1 & Hs2 & _).
  destruct (format_d_value 3 millis ltac:(lia)) as (Hms1 & Hms2 & _).
  unfold format_ts_srt, format_ts_vtt. rewrite Hf. cbn [bind render_ts].
  repeat split; auto.
  - apply format_d_length; [lia |]. change (10 ^ Z.of_nat 2) with 100. lia.
  - apply format_d_length; [lia |]. change (10 ^ Z.of_nat 2) with 100. lia.
  - apply format_d_length; [lia |]. change (10 ^ Z.of_nat 3) with 1000. lia.
  - intros H100. pose proof (numeral_bound _ Hh1) as Hb. rewrite Hh2 in Hb.
    destruct (Nat.le_gt_cases (List.length (format_d 2 hours)) 2)
      as [Hle | Hgt]; [| exact Hgt].
    exfalso.
    assert (10 ^ Z.of_nat (List.length (format_d 2 hours)) <= 10 ^ 2)
      by (apply Z.pow_le_mono_r; lia).
    change (10 ^ 2) with 100 in *. lia.
Qed.

(** Two splits of a list at the first occurrence of [c] agree. *)
Lemma first_split_unique (c : char) a r a' r' :
  a ++ c :: r = a' ++ c :: r' -> ~ In c a -> ~ In c a' -> a = a' /\ r = r'.
Proof.
  revert a'. induction a as [| x a IH]; intros [| x' a'] Heq Ha Ha'.
  - now injection Heq as <-.
  - injection Heq as <- _. exfalso. apply Ha'. now left.
  - injection Heq as -> _. exfalso. apply Ha. now left.
  - injection Heq as <- Heq.
    destruct (IH a' Heq) as [<- <-]; [| | auto].
    + intros H. apply Ha. now right.
    + intros H. apply Ha'. now right.
Qed.

Lemma numeral_not_in s c :
  numeral s -> Json.is_digit c = false -> ~ In c s.
Proof.
  intros Hs Hc Hin. unfold numeral in Hs. rewrite Forall_forall in Hs.
  rewrite (Hs c Hin) in Hc. discriminate.
Qed.

(** Fields in range are rendered apart: the text determines them. *)
Lemma render_ts_injective sep0 f1 f2 :
  Json.is_digit sep0 = false ->
  (let '(h, m, s, ms) := f1 in
   0 <= h /\ 0 <= m < 60 /\ 0 <= s < 60 /\ 0 <= ms < 1000) ->
  (let '(h, m, s, ms) := f2 in
   0 <= h /\ 0 <= m < 60 /\ 0 <= s < 60 /\ 0 <= ms < 1000) ->
  render_ts [sep0] f1 = render_ts [sep0] f2 -> f1 = f2.
Proof.
  destruct f1 as [[[h1 m1] s1] ms1], f2 as [[[h2 m2] s2] ms2].
  intros Hsep (Hh1 & Hm1 & Hs1 & Hms1) (Hh2 & Hm2 & Hs2 & Hms2) Heq.
  destruct (render_ts_shape [sep0] h1 m1 s1 ms1 Hh1 Hm1 Hs1 Hms1)
    as (hh1 & mm1 & ss1 & mmm1 & E1 & Nh1 & Nm1 & Ns1 & Nms1 & _ & _ & _ & _
        & <- & <- & <- & <-).
  destruct (render_ts_shape [sep0] h2 m2 s2 ms2 Hh2 Hm2 Hs2 Hms2)
    as (hh2 & mm2 & ss2 & mmm2 & E2 & Nh2 & Nm2 & Ns2 & Nms2 & _ & _ & _ & _
        & <- & <- & <- & <-).
  rewrite E1, E2 in Heq.
  change (lit ":") with [58%N] in Heq. cbn [app] in Heq.
  apply first_split_unique in Heq as [<- Heq];
    [| now apply numeral_not_in | now apply numeral_not_in].
  apply first_split_unique in Heq as [<- Heq];
    [| now apply numeral_not_in | now apply numeral_not_in].
  apply first_split_unique in Heq as [<- <-];
    [| now apply numeral_not_in | now apply numeral_not_in].
  reflexivity.
Qed.

(** X4. Timestamps with different fields are different texts: when two
    accepted seconds values are rendered the same by one of the formatters,
    their hours, minutes, seconds and milliseconds agree. *)
Theorem timestamp_injective :
  forall x y fx fy,
    ts_fields x = Ok fx -> ts_fields y = Ok fy ->
    format_ts_srt x = format_ts_srt y \/ format_ts_vtt x = format_ts_vtt y ->
    fx = fy.
Proof.
  intros x y fx fy Hx Hy Heq.
  assert (Hrx : let '(h, m, s, ms) := fx in
                0 <= h /\ 0 <= m < 60 /\ 0 <= s < 60 /\ 0 <= ms < 1000).
  { destruct fx as [[[h m] s] ms]. exact (ts_fields_range x h m s ms Hx). }
  assert (Hry : let '(h, m, s, ms) := fy in
                0 <= h /\ 0 <= m < 60 /\ 0 <= s < 60 /\ 0 <= ms < 1000).
  { destruct fy as [[[h m] s] ms]. exact (ts_fields_range y h m s ms Hy). }
  unfold format_ts_srt, format_ts_vtt in Heq. rewrite Hx, Hy in Heq.
  cbn [bind] in Heq.
  destruct Heq as [Heq | Heq]; injection Heq as Heq.
  - exact (render_ts_injective 44%N fx fy eq_refl Hrx Hry Heq).
  - exact (render_ts_injective 46%N fx fy eq_refl Hrx Hry Heq).
Qed.

Lemma timestamp_reads_back_witness :
  0 <= 100 /\ 0 <= 0 < 60 /\ 0 <= 1 < 60 /\ 0 <= 500 < 1000
  /\ exists hh mm ss mmm,
      format_ts_srt (decimal 3600015 1)
      = Ok (hh ++ lit ":" ++ mm ++ lit ":" ++ ss ++ lit "," ++ mmm)
      /\ format_ts_vtt (decimal 3600015 1)
         = Ok (hh ++ lit ":" ++ mm ++ lit ":" ++ ss ++ lit "." ++ mmm)
      /\ numeral hh /\ numeral mm /\ numeral ss /\ numeral mmm
      /\ (2 <= List.length hh)%nat /\ List.length mm = 2%nat
      /\ List.length ss = 2%nat /\ List.length mmm = 3%nat
      /\ (100 <= 100 -> (2 < List.length hh)%nat)
      /\ Json.int_of_digits hh = 100 /\ Json.int_of_digits mm = 0
      /\ Json.int_of_digits ss = 1 /\ Json.int_of_digits mmm = 500.
Proof.
  apply (timestamp_reads_back (decimal 3600015 1) 100 0 1 500).
  vm_compute. reflexivity.
Defined.

Lemma timestamp_injective_witness :
  ts_fields (decimal 15 1) = Ok (0, 0, 1, 500)
  /\ ts_fields (decimal 15004 4) = Ok (0, 0, 1, 500)
  /\ format_ts_srt (decimal 15 1) = format_ts_srt (decimal 15004 4)
  /\ (0, 0, 1, 500) = (0, 0, 1, 500).
Proof.
  assert (H1 : ts_fields (decimal 15 1) = Ok (0, 0, 1, 500))
    by (vm_compute; reflexivity).
  assert (H2 : ts_fields (decimal 15004 4) = Ok (0, 0, 1, 500))
    by (vm_compute; reflexivity).
  assert (H3 : format_ts_srt (decimal 15 1) = format_ts_srt (decimal 15004 4))
    by (vm_compute; reflexivity).
  split; [exact H1 |]. split; [exact H2 |]. split; [exact H3 |].
  exact (timestamp_injective (decimal 15 1) (decimal 15004 4) _ _ H1 H2
           (or_introl H3)).
Defined.

Section ForEachRaises.

Context {A : Type}.
Variable body : A -> writer unit.
Variable text_of : A -> str.

(** A loop whose body raises at [x] leaves what the items before [x]
    appended, and does not reach the items after it. *)
Lemma for_each_raises pre x post e :
  (forall y, In y pre -> forall f, body y f = (f ++ text_of y, Ok tt)) ->
  (forall f, body x f = (f, Raise e)) ->
  forall f,
    for_each (pre ++ x :: post) body f = (f ++ flat_map text_of pre, Raise e).
Proof.
  intros Hpre Hx. induction pre as [| y pre IH]; intros f.
  - cbn [app for_each flat_map]. unfold wbind. rewrite Hx.
    now rewrite app_nil_r.
  - cbn [app for_each flat_map]. unfold wbind.
    rewrite (Hpre y (or_introl eq_refl)).
    rewrite IH by (intros z Hz; apply Hpre; now right).
    now rewrite <- app_assoc.
Qed.

End ForEachRaises.

Lemma enumerate_app {A : Type} (a b : list A) :
  forall start,
    enumerate start (a ++ b)
    = enumerate start a ++ enumerate (start + Z.of_nat (List.length a)) b.
Proof.
  induction a as [| x a IH]; intros start.
  - cbn [app enumerate List.length]. now rewrite Z.add_0_r.
  - cbn [app enumerate List.length]. rewrite IH. do 2 f_equal.
    f_equal. lia.
Qed.

Lemma rejected_srt seg e :
  rejected seg e ->
  forall idx f,
    (start <~ lift (format_ts_srt (seg_start seg)) ;;
     end_ <~ lift (format_ts_srt (seg_end seg)) ;;
     let text := strip (seg_text seg) in
     if negb (truthy text) then wret tt
     else write (format_d 0 idx ++ nl ++ start ++ lit " --> " ++ end_ ++ nl
                   ++ text ++ nl ++ nl)) f
    = (f, Raise e).
Proof.
  intros [Hs | [[fields Hs] He]] idx f; unfold wbind, lift, format_ts_srt.
  - rewrite Hs. reflexivity.
  - rewrite Hs, He. reflexivity.
Qed.

Lemma rejected_vtt seg e :
  rejected seg e ->
  forall f,
    (start <~ lift (format_ts_vtt (seg_start seg)) ;;
     end_ <~ lift (format_ts_vtt (seg_end seg)) ;;
     let text := strip (seg_text seg) in
     if negb (truthy text) then wret tt
     else write (start ++ lit " --> " ++ end_ ++ nl ++ text ++ nl ++ nl)) f
    = (f, Raise e).
Proof.
  intros [Hs | [[fields Hs] He]] f; unfold wbind, lift, format_ts_vtt.
  - rewrite Hs. reflexivity.
  - rewrite Hs, He. reflexivity.
Qed.

Lemma write_srt_rejected pre seg post e :
  Forall timed pre -> rejected seg e ->
  write_srt (pre ++ seg :: post) = (fst (write_srt pre), Raise e).
Proof.
  intros Hpre Hseg. rewrite (write_srt_spec pre Hpre). cbn [fst].
  unfold write_srt, with_open_w. rewrite enumerate_app.
  cbn [enumerate].
  rewrite (for_each_raises _
             (fun p => if has_text (snd p)
                       then srt_block (fst p) (snd p) else []) _ _ _ e).
  - now rewrite (flat_map_filter (fun p => has_text (snd p))
                                 (fun p => srt_block (fst p) (snd p))).
  - intros [idx s] Hin f. apply srt_body_appends.
    rewrite Forall_forall in Hpre. apply Hpre.
    eapply enumerate_In; eassumption.
  - intros f. now apply rejected_srt.
Qed.

Lemma write_vtt_rejected pre seg post e :
  Forall timed pre -> rejected seg e ->
  write_vtt (pre ++ seg :: post) = (fst (write_vtt pre), Raise e).
Proof.
  intros Hpre Hseg. rewrite (write_vtt_spec pre Hpre). cbn [fst].
  unfold write_vtt, with_open_w, wbind, write.
  rewrite (for_each_raises _
             (fun s => if has_text s then vtt_block s else []) _ _ _ e).
  - now rewrite (flat_map_filter has_text vtt_block).
  - intros s Hin f. apply vtt_body_appends.
    rewrite Forall_forall in Hpre. now apply Hpre.
  - intros f. now apply rejected_vtt.
Qed.

(** ** The first rejected segment *)



(** ** The tail of the driver *)

Lemma write_and_report_untimed e a out segments w :
  fmt a = txt \/ fmt a = json ->
  write_and_report e a out segments w
  = (print (lit "Wrote " ++ out)
           (store out (serialized e (fmt a) segments) w), Return 0).
Proof.
  intros Hfmt. unfold write_and_report, serialized.
  destruct Hfmt as [-> | ->].
  - now rewrite write_txt_spec.
  - now rewrite write_json_spec.
Qed.

Lemma write_and_report_rejected e a out pre seg post x w :
  fmt a = srt \/ fmt a = vtt ->
  Forall timed pre -> rejected seg x ->
  write_and_report e a out (pre ++ seg :: post) w
  = (store out (serialized e (fmt a) pre) w, Uncaught x).
Proof.
  intros Hfmt Hpre Hseg. unfold write_and_report, serialized.
  destruct Hfmt as [-> | ->].
  - now rewrite (write_srt_rejected pre seg post x Hpre Hseg).
  - now rewrite (write_vtt_rejected pre seg post x Hpre Hseg).
Qed.


(** ** The runs of the driver *)

Lemma main_run e a w : run e a w (main e a w).
Proof.
  destruct (path_exists e (input a)) eqn:Hin.
  - destruct (which e (lit "ffmpeg")) as [p |] eqn:Hff.
    + assert (Hready : ready e a) by (split; congruence).
      rewrite (main_ready e a w Hready). cbv zeta.
      destruct (transcribe_with_faster_whisper e (input a) (model a)
                                               (language a))
        as [err | segments] eqn:Hp.
      * destruct (not_installed err) eqn:Hni.
        -- destruct (transcribe_with_openai_whisper e (input a) (model a)
                                                    (language a))
             as [err2 | segments] eqn:Hs.
           ++ now apply (run_both_fail e a w err err2).
           ++ now apply (run_secondary e a w err segments).
        -- now apply run_primary_fails.
      * now apply run_primary.
    + unfold main. rewrite Hin, Hff. now apply run_no_ffmpeg.
  - unfold main. rewrite Hin. now apply run_no_input.
Qed.


(** A run that transcribes goes on to the writer, with nothing written or
    reported before. *)
Lemma main_transcribed e a w segments :
  ready e a -> transcript e a segments ->
  exists w1,
    main e a w = write_and_report e a (destination e a) segments w1
    /\ stdout w1 = stdout w /\ stderr w1 = stderr w /\ files w1 = files w.
Proof.
  intros Hready Ht. rewrite (main_ready e a w Hready). cbv zeta.
  destruct Ht as [-> | (err & -> & -> & ->)]; eexists; repeat split.
Qed.

(** A run that reaches the writer has transcribed. *)
Lemma main_run_transcript e a w w' o :
  main e a w = (w', o) ->
  (o = Return 0 \/ exists x, o = Uncaught x) ->
  ready e a
  /\ exists segments w1,
      transcript e a segments
      /\ write_and_report e a (destination e a) segments w1 = (w', o)
      /\ stdout w1 = stdout w /\ stderr w1 = stderr w /\ files w1 = files w.
Proof.
  intros Hmain Ho. pose proof (main_run e a w) as Hrun. rewrite Hmain in Hrun.
  inversion Hrun as [Hin Heq | Hin Hff Heq | err Hready Hp Hni Heq
                    | err err2 Hready Hp Hni Hs Heq
                    | segments Hready Hp Heq
                    | err segments Hready Hp Hni Hs Heq]; subst;
    try (exfalso; destruct Ho as [Ho | [x Ho]]; discriminate).
  - split; [exact Hready |]. exists segments, (call faster_whisper w).
    repeat split; auto. now left.
  - split; [exact Hready |].
    exists segments, (call openai_whisper (call faster_whisper w)).
    repeat split; auto. right. now exists err.
Qed.

(** X10. The driver does not catch the exception of a subtitle writer. When
    the preconditions hold, the format is one of the two subtitle formats and
    the transcript has a first segment with a time the formatter rejects,
    the run ends with the [OverflowError] of the writer and returns no exit
    code. The file at the destination (taken to be writable) then holds what
    was written for the segments before that one, and nothing has been
    printed on either stream: neither the report [Wrote ...] nor a
    message. *)
Theorem main_overflow_uncaught :
  forall e a w pre seg post x,
    ready e a -> fmt a = srt \/ fmt a = vtt ->
    transcript e a (pre ++ seg :: post) ->
    Forall timed pre -> rejected seg x ->
    x = OverflowError
    /\ snd (main e a w) = Uncaught x
    /\ files (fst (main e a w))
       = (destination e a, serialized e (fmt a) pre) :: files w
    /\ stdout (fst (main e a w)) = stdout w
    /\ stderr (fst (main e a w)) = stderr w.
Proof.
  intros e a w pre seg post x Hready Hfmt Ht Hpre Hseg.
  split.
  { destruct Hseg as [Hs | [_ Hs]]; exact (ts_fields_raises _ _ Hs). }
  destruct (main_transcribed e a w _ Hready Ht)
    as (w1 & -> & Hout & Herr & Hfiles).
  rewrite (write_and_report_rejected e a _ pre seg post x w1 Hfmt Hpre Hseg).
  cbn [fst snd stdout stderr files store].
  rewrite Hout, Herr, Hfiles. repeat split.
Qed.

(** X11. The plain-text and the structured format need no formattable times:
    once a backend has returned segments, whatever their times, the run
    returns 0, reports the destination, leaves the standard error alone and
    stores there the trimmed texts (plain text) or the laid-out list
    (structured). *)
Theorem main_text_formats :
  forall e a w segments,
    ready e a -> fmt a = txt \/ fmt a = json ->
    transcript e a segments ->
    snd (main e a w) = Return 0
    /\ stdout (fst (main e a w))
       = stdout w ++ lit "Wrote " ++ destination e a ++ nl
    /\ stderr (fst (main e a w)) = stderr w
    /\ exists content,
        files (fst (main e a w)) = (destination e a, content) :: files w
        /\ (fmt a = txt ->
            content = flat_map (fun seg => strip (seg_text seg) ++ nl)
                               (filter has_text segments))
        /\ (fmt a = json -> content = segments_text (float_repr e) segments).
Proof.
  intros e a w segments Hready Hfmt Ht.
  destruct (main_transcribed e a w segments Hready Ht)
    as (w1 & -> & Hout & Herr & Hfiles).
  rewrite (write_and_report_untimed e a _ segments w1 Hfmt).
  cbn [fst snd stdout stderr files print store].
  rewrite Hout, Herr, Hfiles. repeat split.
  exists (serialized e (fmt a) segments). split; [reflexivity |].
  unfold serialized. split; intros ->.
  - now rewrite write_txt_spec.
  - now rewrite write_json_spec.
Qed.

(** X5. The subtitle writers stop at the first segment with a time the
    formatter rejects, whether that segment has text or not: the timestamps
    are formatted before the text is looked at. The file then holds what was
    written for the segments before it (for format B after the header), the
    exception leaves the writer, and it is [OverflowError]. *)
Theorem subtitle_writers_stop :
  forall pre seg post e,
    Forall timed pre -> rejected seg e ->
    write_srt (pre ++ seg :: post)
    = (flat_map (fun p => srt_block (fst p) (snd p))
                (filter (fun p => has_text (snd p)) (enumerate 1 pre)),
       Raise e)
    /\ write_vtt (pre ++ seg :: post)
       = (lit "WEBVTT" ++ nl ++ nl
            ++ flat_map vtt_block (filter has_text pre), Raise e)
    /\ e = OverflowError.
Proof.
  intros pre seg post e Hpre Hseg. split; [| split].
  - rewrite (write_srt_rejected pre seg post e Hpre Hseg).
    now rewrite (write_srt_spec pre Hpre).
  - rewrite (write_vtt_rejected pre seg post e Hpre Hseg).
    now rewrite (write_vtt_spec pre Hpre).
  - destruct Hseg as [Hs | [_ Hs]]; exact (ts_fields_raises _ _ Hs).
Qed.

Lemma subtitle_writers_stop_witness :
  write_srt
    (example_segments zero (decimal 15 1) (of_int 2) (decimal 36615 1)
       ++ {| seg_start := S754_infinity false; seg_end := zero;
             seg_text := lit "  " |}
       :: [ {| seg_start := zero; seg_end := zero;
               seg_text := lit "later" |} ])
  = (lit "1" ++ nl ++ lit "00:00:00,000 --> 00:00:01,500" ++ nl
       ++ lit "hello" ++ nl ++ nl
       ++ lit "3" ++ nl ++ lit "00:00:02,000 --> 01:01:01,500" ++ nl
       ++ lit "world" ++ nl ++ nl, Raise OverflowError)
  /\ write_vtt
       (example_segments zero (decimal 15 1) (of_int 2) (decimal 36615 1)
          ++ {| seg_start := S754_infinity false; seg_end := zero;
                seg_text := lit "  " |}
          :: [ {| seg_start := zero; seg_end := zero;
                  seg_text := lit "later" |} ])
     = (lit "WEBVTT" ++ nl ++ nl
          ++ lit "00:00:00.000 --> 00:00:01.500" ++ nl
          ++ lit "hello" ++ nl ++ nl
          ++ lit "00:00:02.000 --> 01:01:01.500" ++ nl
          ++ lit "world" ++ nl ++ nl, Raise OverflowError).
Proof.
  destruct (subtitle_writers_stop
              (example_segments zero (decimal 15 1) (of_int 2)
                                (decimal 36615 1))
              {| seg_start := S754_infinity false; seg_end := zero;
                 seg_text := lit "  " |}
              [ {| seg_start := zero; seg_end := zero;
                   seg_text := lit "later" |} ]
              OverflowError example_timed
              (or_introl eq_refl)) as (Hsrt & Hvtt & _).
  split.
  - rewrite Hsrt. vm_compute. reflexivity.
  - rewrite Hvtt. vm_compute. reflexivity.
Defined.


Lemma main_text_formats_witness :
  snd (main (example_env
               (inr [ {| seg_start := S754_infinity false;
                         seg_end := S754_nan; seg_text := lit " late " |} ])
               (inl []))
            (example_args txt None) initial_world)
  = Return 0
  /\ files (fst (main (example_env
                         (inr [ {| seg_start := S754_infinity false;
                                   seg_end := S754_nan;
                                   seg_text := lit " late " |} ])
                         (inl []))
                      (example_args txt None) initial_world))
     = [(lit "talk.txt", lit "late" ++ nl)].
Proof.
  destruct (main_text_formats
              (example_env
                 (inr [ {| seg_start := S754_infinity false;
                           seg_end := S754_nan; seg_text := lit " late " |} ])
                 (inl []))
              (example_args txt None) initial_world
              [ {| seg_start := S754_infinity false;
                   seg_end := S754_nan; seg_text := lit " late " |} ])
    as (Hcode & _ & _ & content & Hfiles & Htxt & _).
  - split; [reflexivity | discriminate].
  - left. reflexivity.
  - left. reflexivity.
  - split; [exact Hcode |]. rewrite Hfiles, (Htxt eq_refl).
    vm_compute. reflexivity.
Defined.

Lemma main_overflow_uncaught_witness :
  snd (main (example_env
               (inr (example_segments zero (decimal 15 1)
                                      (S754_infinity false) zero))
               (inl []))
            (example_args vtt None) initial_world)
  = Uncaught OverflowError
  /\ files (fst (main (example_env
                         (inr (example_segments zero (decimal 15 1)
                                                (S754_infinity false) zero))
                         (inl []))
                      (example_args vtt None) initial_world))
     = [(lit "talk.vtt",
         lit "WEBVTT" ++ nl ++ nl
           ++ lit "00:00:00.000 --> 00:00:01.500" ++ nl
           ++ lit "hello" ++ nl ++ nl)].
Proof.
  destruct (main_overflow_uncaught
              (example_env
                 (inr (example_segments zero (decimal 15 1)
                                        (S754_infinity false) zero))
                 (inl []))
              (example_args vtt None) initial_world
              [ {| seg_start := zero; seg_end := decimal 15 1;
                   seg_text := lit "hello" |} ]
              {| seg_start := decimal 15 1; seg_end := S754_infinity false;
                 seg_text := lit "  " |}
              [ {| seg_start := S754_infinity false; seg_end := zero;
                   seg_text := lit "world" |} ]
              OverflowError)
    as (_ & Hcode & Hfiles & _).
  - split; [reflexivity | discriminate].
  - right. reflexivity.
  - left. reflexivity.
  - constructor; [| constructor].
    split; eexists; vm_compute; reflexivity.
  - right. split; [eexists |]; vm_compute; reflexivity.
  - split; [exact Hcode |]. rewrite Hfiles. vm_compute. reflexivity.
Defined.

(** ** Trimming *)

Lemma lstrip_spec s :
  exists pre,
    s = pre ++ lstrip s /\ blank pre
    /\ (forall c r, lstrip s = c :: r -> isspace c = false).
Proof.
  induction s as [| x s (pre & Hs & Hpre & Hhead)].
  - exists []. repeat split; [constructor | discriminate].
  - cbn [lstrip]. destruct (isspace x) eqn:Hx.
    + exists (x :: pre). split; [cbn [app]; now f_equal |].
      split; [now constructor | exact Hhead].
    + exists []. split; [reflexivity |]. split; [constructor |].
      intros c r [= <- _]. exact Hx.
Qed.

Lemma rstrip_spec s :
  exists post,
    s = rstrip s ++ post /\ blank post
    /\ (forall r c, rstrip s = r ++ [c] -> isspace c = false).
Proof.
  unfold rstrip. destruct (lstrip_spec (rev s)) as (pre & Hs & Hpre & Hhead).
  exists (rev pre). split; [| split].
  - rewrite <- rev_app_distr, <- Hs. now rewrite rev_involutive.
  - unfold blank in *. now apply Forall_rev.
  - intros r c Hr. apply (Hhead c (rev r)).
    rewrite <- (rev_involutive (lstrip (rev s))), Hr, rev_app_distr.
    reflexivity.
Qed.

(** [s.strip()] is [s] without its leading and trailing white space. *)
Lemma strip_trimmed s : trimmed s (strip s).
Proof.
  unfold strip. destruct (lstrip_spec s) as (pre & Hs & Hpre & Hhead).
  destruct (rstrip_spec (lstrip s)) as (post & Hl & Hpost & Hlast).
  exists pre, post. split; [now rewrite <- Hl |].
  split; [exact Hpre |]. split; [exact Hpost |]. split; [| exact Hlast].
  intros c r Hr. apply (Hhead c (r ++ post)). rewrite Hl at 1. now rewrite Hr.
Qed.

Lemma blank_lstrip s : blank s -> lstrip s = [].
Proof.
  induction 1 as [| c s Hc _ IH]; [reflexivity |].
  cbn [lstrip]. now rewrite Hc.
Qed.

Lemma existsb_blank s :
  existsb (fun c => negb (isspace c)) s = false <-> blank s.
Proof.
  unfold blank. induction s as [| c s IH]; cbn [existsb].
  - split; [constructor | reflexivity].
  - rewrite orb_false_iff, negb_false_iff, IH. split.
    + intros [Hc Hs]. now constructor.
    + intros H. inversion H. auto.
Qed.

(** The trimmed text is empty exactly when the text is white space only. *)
Lemma has_text_visible seg : has_text seg = visible seg.
Proof.
  unfold has_text, visible.
  destruct (strip_trimmed (seg_text seg))
    as (pre & post & Hs & Hpre & Hpost & Hhead & _).
  destruct (strip (seg_text seg)) as [| c r] eqn:Ht; cbn [truthy].
  - symmetry. apply existsb_blank. rewrite Hs. unfold blank.
    apply Forall_app. auto.
  - symmetry. apply existsb_exists. exists c. split.
    + rewrite Hs. apply in_or_app. right. now left.
    + now rewrite (Hhead c r eq_refl).
Qed.

Lemma filter_has_text segments :
  filter has_text segments = filter visible segments.
Proof. apply filter_ext. exact has_text_visible. Qed.

(** X6. What the plain-text writer writes, without reference to [strip]: one
    text and a newline for each segment whose text has a character that is
    not white space, in order; the text is the segment's text without its
    leading and trailing white space, the inside unchanged, and it is not
    empty. *)
Theorem write_txt_trims :
  forall segments,
    exists texts,
      write_txt segments = (flat_map (fun t => t ++ nl) texts, Ok tt)
      /\ Forall2 (fun seg t => trimmed (seg_text seg) t /\ t <> [])
                 (filter visible segments) texts.
Proof.
  intros segments.
  exists (List.map (fun seg => strip (seg_text seg)) (filter visible segments)).
  split.
  - rewrite write_txt_spec, filter_has_text, flat_map_concat_map.
    rewrite flat_map_concat_map, map_map. reflexivity.
  - assert (H : Forall (fun seg => visible seg = true)
                       (filter visible segments)).
    { apply Forall_forall. intros seg Hin. now apply filter_In in Hin. }
    induction H as [| seg l Hseg _ IH]; cbn [List.map]; constructor;
      [| exact IH].
    split; [apply strip_trimmed |].
    rewrite <- has_text_visible in Hseg. unfold has_text in Hseg.
    intros Ht. rewrite Ht in Hseg. discriminate.
Qed.

(** X7. The plain-text file is empty exactly when the text of every segment
    is white space only (or there is no segment). *)
Theorem write_txt_empty :
  forall segments,
    fst (write_txt segments) = []
    <-> Forall (fun seg => blank (seg_text seg)) segments.
Proof.
  intros segments. rewrite write_txt_spec, filter_has_text. cbn [fst].
  induction segments as [| seg rest IH]; cbn [filter].
  - split; [constructor | reflexivity].
  - destruct (visible seg) eqn:Hv.
    + split.
      * cbn [flat_map]. intros H. apply app_eq_nil in H as [H _].
        apply app_eq_nil in H as [_ H]. discriminate.
      * intros H. inversion H as [| ? ? Hb _]. subst.
        apply existsb_blank in Hb. unfold visible in Hv. congruence.
    + rewrite IH. split.
      * intros H. constructor; [now apply existsb_blank | exact H].
      * intros H. now inversion H.
Qed.

(** X8. Writing two transcripts one after the other. The plain-text file of
    [a ++ b] is the file of [a] followed by the file of [b]. For format B it
    is the file of [a] followed by the blocks of [b], with one header. For
    format A the blocks of [b] follow those of [a] numbered from the number
    of segments of [a] plus one, whether those segments were written or
    not. *)
Theorem writers_concatenate :
  forall a b,
    fst (write_txt (a ++ b)) = fst (write_txt a) ++ fst (write_txt b)
    /\ (Forall timed a -> Forall timed b ->
        fst (write_vtt (a ++ b))
        = fst (write_vtt a) ++ flat_map vtt_block (filter has_text b)
        /\ fst (write_srt (a ++ b))
           = fst (write_srt a)
               ++ flat_map (fun p => srt_block (fst p) (snd p))
                    (filter (fun p => has_text (snd p))
                            (enumerate (1 + Z.of_nat (List.length a)) b))).
Proof.
  intros a b. split.
  - rewrite !write_txt_spec. cbn [fst].
    now rewrite filter_app, flat_map_app.
  - intros Ha Hb.
    assert (Hab : Forall timed (a ++ b)) by (apply Forall_app; auto).
    rewrite (write_vtt_spec _ Hab), (write_vtt_spec _ Ha).
    rewrite (write_srt_spec _ Hab), (write_srt_spec _ Ha). cbn [fst].
    split.
    + rewrite filter_app, flat_map_app. now rewrite <- !app_assoc.
    + rewrite enumerate_app, filter_app, flat_map_app. reflexivity.
Qed.

(** ** The split of a path is unique *)

(** A path splits in one way into a directory part and a name. *)
Lemma dir_name_unique os d1 n1 d2 n2 :
  d1 ++ n1 = d2 ++ n2 ->
  (forall c, In c n1 -> is_sep os c = false) ->
  (forall c, In c n2 -> is_sep os c = false) ->
  (d1 = [] \/ exists d c, d1 = d ++ [c] /\ is_sep os c = true) ->
  (d2 = [] \/ exists d c, d2 = d ++ [c] /\ is_sep os c = true) ->
  d1 = d2 /\ n1 = n2.
Proof.
  assert (Hlonger : forall (a b l na nb : str),
             a = b ++ l -> nb = l ++ na ->
             (forall c, In c nb -> is_sep os c = false) ->
             (a = [] \/ exists d c, a = d ++ [c] /\ is_sep os c = true) ->
             l = []).
  { intros a b l na nb Ha Hnb Hsep Hdir.
    destruct l as [| y l0]; [reflexivity |]. exfalso.
    destruct (@exists_last _ (y :: l0) ltac:(discriminate)) as (l' & z & Hl).
    rewrite Hl in *. clear Hl.
    destruct Hdir as [-> | (d & c & -> & Hc)].
    - symmetry in Ha. apply app_eq_nil in Ha as [_ Ha].
      apply app_eq_nil in Ha as [_ Ha]. discriminate.
    - rewrite app_assoc in Ha. apply app_inj_tail in Ha as [_ ->].
      rewrite (Hsep z) in Hc; [discriminate |].
      rewrite Hnb. apply in_or_app. left. apply in_or_app. right. now left. }
  intros Heq H1 H2 Hd1 Hd2.
  apply app_eq_app in Heq as [l [[Hd Hn] | [Hd Hn]]].
  - pose proof (Hlonger d1 d2 l n1 n2 Hd Hn H2 Hd1) as ->.
    rewrite app_nil_r in Hd. simpl in Hn. auto.
  - pose proof (Hlonger d2 d1 l n2 n1 Hd Hn H1 Hd2) as ->.
    rewrite app_nil_r in Hd. simpl in Hn. auto.
Qed.

(** [splits] describes one split. *)
Lemma splits_unique os p b1 e1 b2 e2 :
  splits os p b1 e1 -> splits os p b2 e2 -> b1 = b2 /\ e1 = e2.
Proof.
  intros (d1 & n1 & Hp1 & Hn1 & Hd1 & Hc1) (d2 & n2 & Hp2 & Hn2 & Hd2 & Hc2).
  assert (Heq : d1 ++ n1 = d2 ++ n2) by congruence.
  destruct (dir_name_unique os d1 n1 d2 n2 Heq Hn1 Hn2 Hd1 Hd2) as [<- <-].
  destruct Hc1 as [(s1 & x1 & Hs1 & Hx1 & (c1 & Hin1 & Hne1) & -> & ->)
                  | (Hall1 & -> & ->)];
    destruct Hc2 as [(s2 & x2 & Hs2 & Hx2 & (c2 & Hin2 & Hne2) & -> & ->)
                    | (Hall2 & -> & ->)].
  - rewrite Hs1 in Hs2.
    destruct (SplitextFacts.last_split_unique 46%N s1 x1 s2 x2 Hs2 Hx1 Hx2)
      as [-> ->]. auto.
  - exfalso. apply Hne1. exact (Hall2 s1 x1 Hs1 Hx1 c1 Hin1).
  - exfalso. apply Hne2. exact (Hall1 s2 x2 Hs2 Hx2 c2 Hin2).
  - auto.
Qed.

(** [os.path.splitext] is the split [splits] describes. *)
Lemma splitext_unique os p base ext :
  splits os p base ext -> OsPath.splitext os p = (base, ext).
Proof.
  intros H. pose proof (SplitextFacts.splitext_splits os p) as H'.
  destruct (splits_unique os p _ _ _ _ H' H) as [Hb He].
  destruct (OsPath.splitext os p) as [b e]. simpl in *. congruence.
Qed.

(** The name of a format has no separator and no dot. *)
Lemma format_str_plain os f c :
  In c (format_str f) -> is_sep os c = false /\ c <> 46%N.
Proof.
  destruct f, os; cbn; intros H;
    repeat (destruct H as [<- | H]; [split; [reflexivity | discriminate] |]);
    destruct H.
Qed.

Lemma dot_not_sep os : is_sep os 46%N = false.
Proof. destruct os; reflexivity. Qed.

(** The root of a path followed by a dot and a format splits into that root
    and that format, when the root has a file name. *)
Lemma splits_rooted os dir stem f :
  (forall x, In x stem -> is_sep os x = false) ->
  (dir = [] \/ exists d s, dir = d ++ [s] /\ is_sep os s = true) ->
  (exists c, In c stem /\ c <> 46%N) ->
  splits os ((dir ++ stem) ++ lit "." ++ format_str f)
         (dir ++ stem) (lit "." ++ format_str f).
Proof.
  intros Hstem Hdir Hc.
  exists dir, (stem ++ lit "." ++ format_str f).
  split; [now rewrite <- app_assoc |]. split.
  { intros x Hx. apply in_app_or in Hx as [Hx | Hx]; [now apply Hstem |].
    destruct Hx as [<- | Hx]; [apply dot_not_sep |].
    now apply (format_str_plain os f). }
  split; [exact Hdir |]. left. exists stem, (format_str f).
  split; [reflexivity |]. split.
  { intros Hin. now apply (format_str_plain os f) in Hin as [_ Hin]. }
  split; [exact Hc |]. split; reflexivity.
Qed.

(** The root [os.path.splitext] leaves of a path with a file name: a
    directory part and a stem with a character other than a dot. *)
Lemma splitext_root os p :
  named os p ->
  exists dir stem,
    fst (OsPath.splitext os p) = dir ++ stem
    /\ (forall x, In x stem -> is_sep os x = false)
    /\ (dir = [] \/ exists d s, dir = d ++ [s] /\ is_sep os s = true)
    /\ (exists c, In c stem /\ c <> 46%N).
Proof.
  intros (dir' & name' & c & Hp' & Hname' & Hdir' & Hc & Hne).
  destruct (SplitextFacts.splitext_splits os p)
    as (dir & name & Hp & Hname & Hdir & Hcases).
  assert (Heq : dir ++ name = dir' ++ name') by congruence.
  destruct (dir_name_unique os dir name dir' name' Heq Hname Hname' Hdir Hdir')
    as [<- <-].
  destruct Hcases as [(stem & x & Hs & Hx & Hstem & Hb & _) | (_ & Hb & _)].
  - exists dir, stem. split; [exact Hb |]. split; [| split; assumption].
    intros y Hy. apply Hname. rewrite Hs. apply in_or_app. now left.
  - exists dir, name. split; [congruence |]. split; [exact Hname |].
    split; [exact Hdir | eauto].
Qed.

(** X13. Deriving an output path twice. When the file name of the path (what
    follows its last separator) has a character other than a dot, the derived
    path splits into the root of the path and the extension of the format, so
    that deriving again replaces the format: the result is the path derived
    for the last format. Otherwise (an empty name, or dots only) nothing is
    taken for an extension and each derivation appends a dot and the
    format. *)
Theorem derive_output_path_twice :
  forall os p f g,
    (named os p ->
     OsPath.splitext os (derive_output_path os p (format_str f))
     = (fst (OsPath.splitext os p), lit "." ++ format_str f)
     /\ derive_output_path os (derive_output_path os p (format_str f))
                           (format_str g)
        = derive_output_path os p (format_str g))
    /\ (~ named os p ->
        derive_output_path os p (format_str f) = p ++ lit "." ++ format_str f
        /\ derive_output_path os (derive_output_path os p (format_str f))
                              (format_str g)
           = p ++ lit "." ++ format_str f ++ lit "." ++ format_str g).
Proof.
  intros os p f g. split.
  - intros Hnamed.
    destruct (splitext_root os p Hnamed) as (dir & stem & Hroot & Hs & Hd & Hc).
    assert (Hsplit : OsPath.splitext os
                       (derive_output_path os p (format_str f))
                     = (fst (OsPath.splitext os p), lit "." ++ format_str f)).
    { unfold derive_output_path at 1.
      destruct (OsPath.splitext os p) as [base ext]. cbn [fst] in *.
      subst base. apply splitext_unique. now apply splits_rooted. }
    split; [exact Hsplit |].
    unfold derive_output_path at 1. rewrite Hsplit.
    unfold derive_output_path.
    now destruct (OsPath.splitext os p) as [base ext].
  - intros Hunnamed.
    destruct (SplitextFacts.splitext_splits os p)
      as (dir & name & Hp & Hname & Hdir & Hcases).
    assert (Hdots : forall c, In c name -> c = 46%N).
    { intros c Hc. destruct (N.eq_dec c 46%N) as [| Hne]; [assumption |].
      exfalso. apply Hunnamed. exists dir, name, c. auto. }
    assert (Hbase : fst (OsPath.splitext os p) = p).
    { destruct Hcases as [(stem & x & Hs & _ & (c & Hc & Hne) & _) | (_ & Hb & _)];
        [| exact Hb].
      exfalso. apply Hne. apply Hdots. rewrite Hs. apply in_or_app. now left. }
    assert (Hfirst : derive_output_path os p (format_str f)
                     = p ++ lit "." ++ format_str f).
    { unfold derive_output_path.
      destruct (OsPath.splitext os p) as [base ext]. cbn [fst] in Hbase.
      now subst base. }
    split; [exact Hfirst |]. rewrite Hfirst.
    assert (Hsplit : OsPath.splitext os (p ++ lit "." ++ format_str f)
                     = (p ++ lit "." ++ format_str f, [])).
    { apply splitext_unique.
      exists dir, (name ++ lit "." ++ format_str f).
      split; [rewrite Hp at 1; now rewrite <- app_assoc |]. split.
      { intros x Hx. apply in_app_or in Hx as [Hx | Hx]; [now apply Hname |].
        destruct Hx as [<- | Hx]; [apply dot_not_sep |].
        now apply (format_str_plain os f). }
      split; [exact Hdir |]. right. split; [| split; reflexivity].
      intros stem x Hs Hx c Hc.
      change (name ++ lit "." ++ format_str f)
        with (name ++ 46%N :: format_str f) in Hs.
      assert (Hfmt : ~ In 46%N (format_str f)).
      { intros Hin. now apply (format_str_plain os f) in Hin as [_ Hin]. }
      destruct (SplitextFacts.last_split_unique 46%N _ _ _ _ Hs Hfmt Hx)
        as [<- _].
      now apply Hdots. }
    unfold derive_output_path. rewrite Hsplit.
    now rewrite <- !app_assoc.
Qed.

(** The root and the extension make up the path. *)
Lemma splitext_app os p :
  fst (OsPath.splitext os p) ++ snd (OsPath.splitext os p) = p.
Proof.
  assert (H : forall sep altsep,
             fst (OsPath._splitext p sep altsep 46%N)
               ++ snd (OsPath._splitext p sep altsep 46%N) = p).
  { intros sep altsep. unfold OsPath._splitext.
    destruct (_ && _); cbn [fst snd];
      [apply firstn_skipn | apply app_nil_r]. }
  destruct os; apply H.
Qed.

(** The derived path is the input path exactly when the input has the
    extension of the format. *)
Lemma derive_output_path_fixed os p f :
  derive_output_path os p (format_str f) = p
  <-> snd (OsPath.splitext os p) = lit "." ++ format_str f.
Proof.
  pose proof (splitext_app os p) as Happ. unfold derive_output_path.
  destruct (OsPath.splitext os p) as [base ext]. cbn [fst snd] in *.
  split.
  - intros H. rewrite <- Happ in H. apply app_inv_head in H. now symmetry.
  - intros <-. exact Happ.
Qed.

(** X14. An input that has the extension of the requested format is
    overwritten: with [--output] omitted or empty, the derived path is the
    input path itself, and a run that returns 0 has stored the transcript
    there. *)
Theorem derived_path_overwrites_input :
  forall e a w w',
    main e a w = (w', Return 0) ->
    output a = None \/ output a = Some [] ->
    snd (OsPath.splitext (os_path e) (input a))
    = lit "." ++ format_str (fmt a) ->
    derive_output_path (os_path e) (input a) (format_str (fmt a)) = input a
    /\ exists content,
        files w' = (input a, content) :: files w
        /\ stdout w' = stdout w ++ lit "Wrote " ++ input a ++ nl.
Proof.
  intros e a w w' Hmain Hout Hext.
  assert (Hd : derive_output_path (os_path e) (input a) (format_str (fmt a))
               = input a) by now apply derive_output_path_fixed.
  split; [exact Hd |].
  destruct (main_returns_0 e a w w' Hmain) as (content & Hfiles & Hstdout).
  assert (Hdest : destination e a = input a).
  { unfold destination. destruct Hout as [-> | ->]; exact Hd. }
  rewrite Hdest in *. eauto.
Qed.

Lemma derived_path_overwrites_input_witness :
  derive_output_path OsPath.posixpath (lit "notes.txt") (lit "txt")
  = lit "notes.txt"
  /\ exists content,
      files (fst (main (example_env
                          (inr (example_segments zero zero zero zero))
                          (inl []))
                       {| input := lit "notes.txt"; model := lit "small";
                          language := None; fmt := txt; output := None |}
                       initial_world))
      = (lit "notes.txt", content) :: files initial_world
      /\ stdout (fst (main (example_env
                              (inr (example_segments zero zero zero zero))
                              (inl []))
                           {| input := lit "notes.txt"; model := lit "small";
                              language := None; fmt := txt; output := None |}
                           initial_world))
         = stdout initial_world ++ lit "Wrote " ++ lit "notes.txt" ++ nl.
Proof.
  apply (derived_path_overwrites_input
           (example_env (inr (example_segments zero zero zero zero)) (inl []))
           {| input := lit "notes.txt"; model := lit "small";
              language := None; fmt := txt; output := None |}
           initial_world).
  - vm_compute. reflexivity.
  - left. reflexivity.
  - vm_compute. reflexivity.
Defined.

(** ** Empty transcripts and failing backends *)

Lemma serialized_empty e f : serialized e f [] = empty_output f.
Proof. unfold serialized. now destruct f. Qed.

(** X12. A run whose backend finds no segment succeeds with an empty
    transcript: it returns 0, reports the destination and stores there an
    empty file (plain text and format A), the header alone (format B) or the
    empty list [[]] (structured). *)
Theorem empty_transcript_is_written :
  forall e a w,
    ready e a -> transcript e a [] ->
    snd (main e a w) = Return 0
    /\ files (fst (main e a w))
       = (destination e a, empty_output (fmt a)) :: files w
    /\ stdout (fst (main e a w))
       = stdout w ++ lit "Wrote " ++ destination e a ++ nl
    /\ stderr (fst (main e a w)) = stderr w.
Proof.
  intros e a w Hready Ht.
  destruct (main_transcribed e a w [] Hready Ht)
    as (w1 & -> & Hout & Herr & Hfiles).
  rewrite (write_and_report_ok e a _ [] w1 (Forall_nil _)).
  cbn [fst snd stdout stderr files print store].
  rewrite Hout, Herr, Hfiles, serialized_empty. repeat split.
Qed.

Lemma empty_transcript_is_written_witness :
  snd (main (example_env (inr []) (inl [])) (example_args vtt None)
            initial_world) = Return 0
  /\ files (fst (main (example_env (inr []) (inl [])) (example_args vtt None)
                      initial_world))
     = [(lit "talk.vtt", lit "WEBVTT" ++ nl ++ nl)].
Proof.
  destruct (empty_transcript_is_written
              (example_env (inr []) (inl [])) (example_args vtt None)
              initial_world) as (Hcode & Hfiles & _).
  - split; [reflexivity | discriminate].
  - left. reflexivity.
  - split; [exact Hcode |]. rewrite Hfiles. reflexivity.
Defined.

(** X15. openai-whisper, called when the primary backend is not installed. A
    result without the key [segments] is an empty transcript: the run returns
    0 and stores the empty output of the format. A segment without one of
    the keys [start], [end], [text] fails the whole transcription with the
    [KeyError] of the first missing key: the run returns 1 and reports the
    install hint followed by the quoted key. *)
Theorem openai_whisper_result :
  forall e a w err ow loaded,
    ready e a ->
    not_installed err = true ->
    Backend.load_model ow (model a) = inr loaded ->
    (Backend.ow_transcribe ow loaded (input a) (language a) = inr None ->
     snd (main (with_backends e (inl err) (inr ow)) a w) = Return 0
     /\ files (fst (main (with_backends e (inl err) (inr ow)) a w))
        = (destination e a, empty_output (fmt a)) :: files w)
    /\ (forall pre seg post key,
           Backend.ow_transcribe ow loaded (input a) (language a)
           = inr (Some (pre ++ seg :: post)) ->
           Forall (fun s => exists s', Backend.segment_of s = inr s') pre ->
           Backend.segment_of seg = inl key ->
           main (with_backends e (inl err) (inr ow)) a w
           = (eprint (install_hint ++ key)
                     (call openai_whisper (call faster_whisper w)),
              Return 1)).
Proof.
  intros e a w err ow loaded Hready Hni Hload.
  set (e' := with_backends e (inl err) (inr ow)).
  assert (Hready' : ready e' a) by exact Hready.
  rewrite (main_ready e' a w Hready'). cbv zeta.
  cbn [e' with_backends transcribe_with_faster_whisper
       transcribe_with_openai_whisper].
  cbn [Backend.transcribe_with_faster_whisper]. rewrite Hni.
  unfold Backend.transcribe_with_openai_whisper. rewrite Hload.
  split.
  - intros ->. cbn [Backend.comprehension].
    rewrite (write_and_report_ok e' a _ [] _ (Forall_nil _)).
    cbn [fst snd files print store call]. rewrite serialized_empty.
    split; reflexivity.
  - intros pre seg post key -> Hpre Hseg.
    assert (Hc : Backend.comprehension (pre ++ seg :: post) = inl key).
    { induction Hpre as [| s pre [s' Hs] _ IH].
      - cbn [app Backend.comprehension]. now rewrite Hseg.
      - cbn [app Backend.comprehension]. now rewrite Hs, IH. }
    now rewrite Hc.
Qed.

Lemma openai_whisper_result_witness :
  (snd (main (with_backends (example_env (inl []) (inl []))
                            (inl (lit "No module named 'faster_whisper'"))
                            (inr (example_whisper None)))
             (example_args json None) initial_world) = Return 0
   /\ files (fst (main (with_backends
                          (example_env (inl []) (inl []))
                          (inl (lit "No module named 'faster_whisper'"))
                          (inr (example_whisper None)))
                       (example_args json None) initial_world))
      = [(lit "talk.json", lit "[]")])
  /\ main (with_backends (example_env (inl []) (inl []))
                         (inl (lit "No module named 'faster_whisper'"))
                         (inr (example_whisper
                                 (Some [ {| Backend.ws_start := Some zero;
                                            Backend.ws_end := None;
                                            Backend.ws_text := None |} ]))))
          (example_args json None) initial_world
     = (eprint (install_hint ++ lit "'end'")
               (call openai_whisper (call faster_whisper initial_world)),
        Return 1).
Proof.
  split.
  - destruct (openai_whisper_result
                (example_env (inl []) (inl [])) (example_args json None)
                initial_world (lit "No module named 'faster_whisper'")
                (example_whisper None) tt) as [H _];
      [split; [reflexivity | discriminate] | reflexivity | reflexivity |].
    exact (H eq_refl).
  - destruct (openai_whisper_result
                (example_env (inl []) (inl [])) (example_args json None)
                initial_world (lit "No module named 'faster_whisper'")
                (example_whisper
                   (Some [ {| Backend.ws_start := Some zero;
                              Backend.ws_end := None;
                              Backend.ws_text := None |} ])) tt) as [_ H];
      [split; [reflexivity | discriminate] | reflexivity | reflexivity |].
    exact (H [] _ [] (lit "'end'") eq_refl (Forall_nil _) eq_refl).
Defined.

(** X16. faster-whisper decodes lazily. When the iteration over its segments
    ends without an exception, the transcript is the segments it yielded, in
    order. When it raises (with a message that does not say a module is
    missing), the segments yielded before are lost: the run returns 1,
    reports the failure and writes no file. *)
Theorem faster_whisper_stream :
  forall e a w fw ow loaded segments,
    ready e a ->
    Backend.WhisperModel fw (model a) (lit "cpu") (lit "int8") = inr loaded ->
    Backend.fw_transcribe fw loaded (input a) (language a) true 5
    = inr segments ->
    (Backend.raised segments = None ->
     transcript (with_backends e (inr fw) ow) a (Backend.yielded segments))
    /\ (forall err,
           Backend.raised segments = Some err ->
           not_installed err = false ->
           main (with_backends e (inr fw) ow) a w
           = (eprint (lit "Transcription failed: " ++ err)
                     (call faster_whisper w), Return 1)).
Proof.
  intros e a w fw ow loaded segments Hready Hmodel Hrun.
  set (e' := with_backends e (inr fw) ow).
  assert (Hprimary :
            transcribe_with_faster_whisper e' (input a) (model a) (language a)
            = match Backend.raised segments with
              | Some err => inl err
              | None => inr (Backend.yielded segments)
              end).
  { cbn [e' with_backends transcribe_with_faster_whisper].
    unfold Backend.transcribe_with_faster_whisper. rewrite Hmodel, Hrun.
    cbv zeta. destruct (Backend.raised segments); [reflexivity |].
    f_equal. rewrite <- (map_id (Backend.yielded segments)) at 2.
    apply map_ext. now intros []. }
  split.
  - intros Hnone. left. now rewrite Hprimary, Hnone.
  - intros err Hsome Hni.
    assert (Hready' : ready e' a) by exact Hready.
    rewrite (main_ready e' a w Hready'). cbv zeta.
    now rewrite Hprimary, Hsome, Hni.
Qed.

Lemma faster_whisper_stream_witness :
  main (with_backends
          (example_env (inl []) (inl []))
          (inr (example_faster_whisper
                  {| Backend.yielded := example_segments zero zero zero zero;
                     Backend.raised := Some (lit "decoder failed") |}))
          (inl []))
       (example_args txt None) initial_world
  = (eprint (lit "Transcription failed: " ++ lit "decoder failed")
            (call faster_whisper initial_world), Return 1).
Proof.
  destruct (faster_whisper_stream
              (example_env (inl []) (inl [])) (example_args txt None)
              initial_world
              (example_faster_whisper
                 {| Backend.yielded := example_segments zero zero zero zero;
                    Backend.raised := Some (lit "decoder failed") |})
              (inl []) tt
              {| Backend.yielded := example_segments zero zero zero zero;
                 Backend.raised := Some (lit "decoder failed") |})
    as [_ H];
    [split; [reflexivity | discriminate] | reflexivity | reflexivity |].
  exact (H (lit "decoder failed") eq_refl eq_refl).
Defined.
